(** * signal-extract: scoring, structured extraction and the opportunity store

    A shallow embedding of the scoring engine ([filters/scorer.py]), the
    structured response parser and its repair loop ([synthesizer/engine.py])
    and the opportunity tables of the store ([storage/db.py]), then of the
    item table, the digests, the question answering and the collection
    command ([models.py], [qa/handler.py], [main.py]), followed by the
    properties proved about them.

    Conventions of the embedding.
    - A Python [str] is a [string]; each character stands for one code point
      below 256.  Whitespace ([str.isspace], [\s]), word characters ([\w]) and
      [str.lower] follow the Unicode tables on that range.
    - A Python [int] is a [Z].  A [float] is the exact value of the double it
      holds ([FFin q]), an infinity or NaN; only comparison and truncation of
      floats are modelled, both of which are exact.
    - A [dict] with string keys is a [gmap string pyval].
    - A call returns ([Ok]), raises ([Raise]) or leaves the model
      ([Unmodelled]: the run goes on in float arithmetic, or depends on an
      interpreter limit). *)

From Stdlib Require Import ZArith QArith String Ascii List Lia Bool.
From Stdlib Require Import OrderedTypeEx Sorted Permutation.
From stdpp Require Import gmap strings list.

Set Warnings "-register-all".
Local Open Scope string_scope.
Local Open Scope list_scope.
Local Open Scope Z_scope.

(** ** Python values, exceptions and results *)

Module Py.

Inductive pyfloat :=
| FNaN
| FInf (negative : bool)
| FFin (q : Q).

Inductive pyval :=
| PNone
| PBool (b : bool)
| PInt (z : Z)
| PFloat (f : pyfloat)
| PStr (s : string)
| PList (l : list pyval)
| PDict (d : gmap string pyval).

(** [type(v).__name__] *)
Definition type_name (v : pyval) : string :=
  match v with
  | PNone => "NoneType"
  | PBool _ => "bool"
  | PInt _ => "int"
  | PFloat _ => "float"
  | PStr _ => "str"
  | PList _ => "list"
  | PDict _ => "dict"
  end.

(** Text produced by an f-string or by [str.format]: the literal parts are
    kept as they are written in the source, a substituted value is kept as the
    value ([Val v] for [str(v)], [Repr v] for [repr(v)], [ValSet] for a set of
    strings, whose printing order depends on the hash seed). *)
Inductive piece :=
| Lit (s : string)
| Val (v : pyval)
| Repr (v : pyval)
| ValSet (members : list string).

Definition ftext := list piece.

(** [sep.join(parts)] *)
Fixpoint join (sep : string) (parts : list ftext) : ftext :=
  match parts with
  | [] => []
  | [p] => p
  | p :: rest => p ++ Lit sep :: join sep rest
  end.

(** The exception classes the modelled code can meet.  [JSONDecodeError] is a
    subclass of [ValueError]. *)
Inductive exn :=
| LLMError (msg : ftext)
| ValueError (msg : ftext)
| JSONDecodeError (msg : ftext)
| TypeError
| AttributeError
| OverflowError
| IntegrityError
| ProgrammingError.

(** [except ValueError] *)
Definition is_ValueError (e : exn) : bool :=
  match e with
  | ValueError _ | JSONDecodeError _ => true
  | _ => false
  end.

(** [except LLMError] *)
Definition is_LLMError (e : exn) : bool :=
  match e with
  | LLMError _ => true
  | _ => false
  end.

(** [str(e)] *)
Definition exn_str (e : exn) : ftext :=
  match e with
  | LLMError m | ValueError m | JSONDecodeError m => m
  | _ => []
  end.

Inductive result (A : Type) :=
| Ok (a : A)
| Raise (e : exn)
| Unmodelled.

Arguments Ok {A} a.
Arguments Raise {A} e.
Arguments Unmodelled {A}.

Definition bind {A B} (r : result A) (k : A -> result B) : result B :=
  match r with
  | Ok a => k a
  | Raise e => Raise e
  | Unmodelled => Unmodelled
  end.

(** Truth value of an object ([if v:], [not v]). *)
Definition truthy (v : pyval) : bool :=
  match v with
  | PNone => false
  | PBool b => b
  | PInt z => negb (z =? 0)
  | PFloat (FFin q) => negb (Qeq_bool q 0)
  | PFloat _ => true
  | PStr s => negb (String.eqb s EmptyString)
  | PList l => negb (Nat.eqb (length l) 0)
  | PDict d => negb (Nat.eqb (size d) 0)
  end.

(** *** Characters and strings *)

Definition code (c : ascii) : N := N_of_ascii c.

(** [str.isspace] on one character; also the class [\s]. *)
Definition isspace (c : ascii) : bool :=
  let n := code c in
  ((9 <=? n) && (n <=? 13) || (28 <=? n) && (n <=? 32) || (n =? 133) || (n =? 160))%N.

(** [\d] *)
Definition isdigit (c : ascii) : bool :=
  let n := code c in ((48 <=? n) && (n <=? 57))%N.

(** [\w]: letters, digits and the underscore. *)
Definition isword (c : ascii) : bool :=
  let n := code c in
  ((48 <=? n) && (n <=? 57) || (65 <=? n) && (n <=? 90) || (n =? 95)
   || (97 <=? n) && (n <=? 122)
   || (n =? 170) || (n =? 178) || (n =? 179) || (n =? 181) || (n =? 185)
   || (n =? 186) || (188 <=? n) && (n <=? 190)
   || (192 <=? n) && (n <=? 214) || (216 <=? n) && (n <=? 246)
   || (248 <=? n))%N.

Definition lower_char (c : ascii) : ascii :=
  let n := code c in
  if ((65 <=? n) && (n <=? 90) || (192 <=? n) && (n <=? 214)
      || (216 <=? n) && (n <=? 222))%N
  then ascii_of_N (n + 32) else c.

(** [s.lower()] *)
Fixpoint lower (s : string) : string :=
  match s with
  | EmptyString => EmptyString
  | String c r => String (lower_char c) (lower r)
  end.

(** Leading and trailing characters of a class removed. *)
Fixpoint lstrip_by (space : ascii -> bool) (s : string) : string :=
  match s with
  | EmptyString => EmptyString
  | String c r => if space c then lstrip_by space r else s
  end.

Fixpoint rstrip_by (space : ascii -> bool) (s : string) : string :=
  match s with
  | EmptyString => EmptyString
  | String c r =>
      match rstrip_by space r with
      | EmptyString => if space c then EmptyString else String c EmptyString
      | r' => String c r'
      end
  end.

(** [s.lstrip()] *)
Definition lstrip (s : string) : string := lstrip_by isspace s.

(** [s.rstrip()] *)
Definition rstrip (s : string) : string := rstrip_by isspace s.

(** [s.strip()] *)
Definition strip (s : string) : string := rstrip (lstrip s).

(** [s[:n]] for [n >= 0] *)
Fixpoint take (n : nat) (s : string) : string :=
  match n, s with
  | S n', String c r => String c (take n' r)
  | _, _ => EmptyString
  end.

(** [s[n:]] for [n >= 0] *)
Fixpoint drop (n : nat) (s : string) : string :=
  match n, s with
  | S n', String _ r => drop n' r
  | _, _ => s
  end.

(** [s.find(c)] for a one-character needle; [None] stands for [-1]. *)
Fixpoint find (c : ascii) (s : string) : option nat :=
  match s with
  | EmptyString => None
  | String x r => if Ascii.eqb x c then Some 0%nat else option_map S (find c r)
  end.

(** [s.startswith(p)] *)
Fixpoint startswith (p s : string) : bool :=
  match p, s with
  | EmptyString, _ => true
  | String a p', String b s' => Ascii.eqb a b && startswith p' s'
  | _, _ => false
  end.

(** [s in members] for a set or list of strings *)
Definition str_in (s : string) (members : list string) : bool :=
  existsb (String.eqb s) members.

(** *** Numbers *)

(** [int(f)] for a float: truncation toward zero. *)
Definition int_of_float (f : pyfloat) : result Z :=
  match f with
  | FNaN => Raise (ValueError [Lit "cannot convert float NaN to integer"])
  | FInf _ => Raise OverflowError
  | FFin q => Ok (Z.quot (Qnum q) (Z.pos (Qden q)))
  end.

(** Digits of a decimal literal with single underscores between digits
    allowed, as [int] reads them; [acc] is the value read so far and [prev]
    tells whether the previous character was a digit. *)
Fixpoint int_digits (s : string) (acc : Z) (prev : bool) : option Z :=
  match s with
  | EmptyString => if prev then Some acc else None
  | String c r =>
      if isdigit c then int_digits r (10 * acc + Z.of_N (code c - 48)) true
      else if Ascii.eqb c "_" then (if prev then int_digits r acc false else None)
      else None
  end.

(** Longest decimal string [int] converts whatever the interpreter version:
    newer interpreters refuse more than 4300 digits, older ones do not. *)
Definition int_max_str_digits : nat := 4300.

(** The whitespace [int] skips around a number: that of [str.isspace]
    except the four separators 28 to 31. *)
Definition int_space (c : ascii) : bool :=
  let n := code c in
  ((9 <=? n) && (n <=? 13) || (n =? 32) || (n =? 133) || (n =? 160))%N.

(** [int(s)] for a string: optional surrounding whitespace, optional sign,
    decimal digits. *)
Definition int_of_str (s : string) : result Z :=
  let t := rstrip_by int_space (lstrip_by int_space s) in
  let '(neg, body) :=
    match t with
    | String "-" r => (true, r)
    | String "+" r => (false, r)
    | _ => (false, t)
    end in
  match int_digits body 0 false with
  | Some z =>
      if (int_max_str_digits <? String.length body)%nat then Unmodelled
      else Ok (if neg then - z else z)
  | None =>
      Raise (ValueError [Lit "invalid literal for int() with base 10: "; Repr (PStr s)])
  end.

(** [int(v)] *)
Definition py_int (v : pyval) : result Z :=
  match v with
  | PInt z => Ok z
  | PBool b => Ok (if b then 1 else 0)
  | PFloat f => int_of_float f
  | PStr s => int_of_str s
  | PNone | PList _ | PDict _ => Raise TypeError
  end.

(** A number as an extended rational, for the comparison operators. *)
Inductive ext := NegInf | Fin (q : Q) | PosInf.

Definition ext_le (a b : ext) : bool :=
  match a, b with
  | NegInf, _ => true
  | _, PosInf => true
  | Fin x, Fin y => Qle_bool x y
  | _, _ => false
  end.

(** The numeric value of an operand of [<=] or [>=]: [None] for NaN, which
    compares false with everything; [Raise TypeError] for an operand that is
    not a number. *)
Definition as_number (v : pyval) : result (option ext) :=
  match v with
  | PInt z => Ok (Some (Fin (inject_Z z)))
  | PBool b => Ok (Some (Fin (inject_Z (if b then 1 else 0))))
  | PFloat FNaN => Ok None
  | PFloat (FInf true) => Ok (Some NegInf)
  | PFloat (FInf false) => Ok (Some PosInf)
  | PFloat (FFin q) => Ok (Some (Fin q))
  | PNone | PStr _ | PList _ | PDict _ => Raise TypeError
  end.

(** [v >= c] for a numeric constant [c] *)
Definition py_ge_const (v : pyval) (c : Q) : result bool :=
  bind (as_number v) (fun n =>
    Ok match n with
       | Some x => ext_le (Fin c) x
       | None => false
       end).

(** [lo <= v <= hi] for numeric constants [lo] and [hi] *)
Definition py_between_const (lo : Q) (v : pyval) (hi : Q) : result bool :=
  bind (as_number v) (fun n =>
    Ok match n with
       | Some x => ext_le (Fin lo) x && ext_le x (Fin hi)
       | None => false
       end).

End Py.

(** ** Regular expressions ([re.search])

    The scorer only asks whether a pattern matches somewhere in a text, so a
    regular expression is given its set semantics: [matches r prev s k] holds
    when [r] matches a prefix of [s] (the character before [s] being [prev])
    and the continuation [k] accepts what is left.  A pattern is written as in
    the source file, in UTF-8, and compiled by [parse]; syntax the scorer's
    tables do not use is refused. *)

Module Regex.
Import Py.

Inductive class_item :=
| CChar (c : N)
| CDigit
| CSpace
| CWord.

Inductive re :=
| Empty
| Chr (c : N)
| Dot
| Class (items : list class_item)
| Boundary
| Dollar
| Cat (a b : re)
| Alt (a b : re)
| Repeat (a : re) (lo : nat) (hi : option nat).

Definition class_item_matches (c : ascii) (i : class_item) : bool :=
  match i with
  | CChar n => (code c =? n)%N
  | CDigit => isdigit c
  | CSpace => isspace c
  | CWord => isword c
  end.

Definition is_word_at (c : option ascii) : bool :=
  match c with Some x => isword x | None => false end.

Definition head (s : string) : option ascii :=
  match s with String c _ => Some c | EmptyString => None end.

Definition may_repeat (done : nat) (hi : option nat) : bool :=
  match hi with Some h => (done <? h)%nat | None => true end.

Fixpoint matches (r : re) (prev : option ascii) (s : string)
    (k : option ascii -> string -> bool) : bool :=
  match r with
  | Empty => k prev s
  | Chr n =>
      match s with
      | String c rest => if (code c =? n)%N then k (Some c) rest else false
      | EmptyString => false
      end
  | Dot =>
      match s with
      | String c rest => if (code c =? 10)%N then false else k (Some c) rest
      | EmptyString => false
      end
  | Class items =>
      match s with
      | String c rest =>
          if existsb (class_item_matches c) items then k (Some c) rest else false
      | EmptyString => false
      end
  | Boundary =>
      if xorb (is_word_at prev) (is_word_at (head s)) then k prev s else false
  | Dollar =>
      match s with
      | EmptyString => k prev s
      | String c EmptyString => if (code c =? 10)%N then k prev s else false
      | _ => false
      end
  | Cat a b => matches a prev s (fun p' s' => matches b p' s' k)
  | Alt a b => if matches a prev s k then true else matches b prev s k
  | Repeat a lo hi =>
      (fix loop (fuel done : nat) (prev : option ascii) (s : string) : bool :=
         if (if (lo <=? done)%nat then k prev s else false) then true
         else
           match fuel with
           | O => false
           | S fuel' =>
               if may_repeat done hi then
                 matches a prev s (fun p' s' =>
                   if ((String.length s' <? String.length s)%nat || (done <? lo)%nat)
                   then loop fuel' (S done) p' s' else false)
               else false
           end) (String.length s + lo)%nat O prev s
  end.

(** Does [r] match at some position of [s]? *)
Fixpoint search_from (r : re) (prev : option ascii) (s : string) : bool :=
  if matches r prev s (fun _ _ => true) then true
  else
    match s with
    | String c rest => search_from r (Some c) rest
    | EmptyString => false
    end.

Definition search (r : re) (s : string) : bool := search_from r None s.

(** *** Reading a pattern *)

(** UTF-8 decoding of the pattern text into code points. *)
Fixpoint decode (fuel : nat) (bytes : list N) : list N :=
  match fuel with
  | O => []
  | S fuel' =>
      match bytes with
      | [] => []
      | b :: rest =>
          if (b <? 128)%N then b :: decode fuel' rest
          else if (b <? 224)%N then
            match rest with
            | b1 :: rest' => ((b - 192) * 64 + (b1 - 128))%N :: decode fuel' rest'
            | _ => []
            end
          else if (b <? 240)%N then
            match rest with
            | b1 :: b2 :: rest' =>
                ((b - 224) * 4096 + (b1 - 128) * 64 + (b2 - 128))%N :: decode fuel' rest'
            | _ => []
            end
          else
            match rest with
            | b1 :: b2 :: b3 :: rest' =>
                ((b - 240) * 262144 + (b1 - 128) * 4096 + (b2 - 128) * 64 + (b3 - 128))%N
                  :: decode fuel' rest'
            | _ => []
            end
      end
  end.

Definition code_points (p : string) : list N :=
  let bytes := map code (list_ascii_of_string p) in
  decode (length bytes) bytes.

Definition ch (s : string) : N :=
  match s with String c _ => code c | EmptyString => 0%N end.

Definition is_digit_cp (n : N) : bool := ((48 <=? n) && (n <=? 57))%N.

Definition is_alnum_cp (n : N) : bool :=
  (is_digit_cp n || (65 <=? n) && (n <=? 90) || (97 <=? n) && (n <=? 122))%N.

(** A decimal number at the head of the pattern. *)
Fixpoint read_nat (ts : list N) (acc : option nat) : option nat * list N :=
  match ts with
  | t :: rest =>
      if is_digit_cp t
      then read_nat rest (Some (10 * default 0 acc + N.to_nat (t - 48))%nat)
      else (acc, ts)
  | [] => (acc, ts)
  end.

(** An escape [\c] outside or inside a class. *)
Definition escape_class (c : N) : option class_item :=
  if (c =? ch "d")%N then Some CDigit
  else if (c =? ch "s")%N then Some CSpace
  else if (c =? ch "w")%N then Some CWord
  else if is_alnum_cp c then None
  else Some (CChar c).

Definition escape (c : N) : option re :=
  if (c =? ch "b")%N then Some Boundary
  else match escape_class c with
       | Some (CChar n) => Some (Chr n)
       | Some i => Some (Class [i])
       | None => None
       end.

(** The items of a class up to the closing bracket; ranges and negation are
    not read. *)
Fixpoint parse_class (ts : list N) (first : bool) (acc : list class_item)
    : option (re * list N) :=
  match ts with
  | [] => None
  | t :: rest =>
      if (t =? ch "]")%N then
        (if first then None else Some (Class (rev acc), rest))
      else if (t =? ch "^")%N && first then None
      else if (t =? ch "\")%N then
        match rest with
        | c :: rest' =>
            match escape_class c with
            | Some i => parse_class rest' false (i :: acc)
            | None => None
            end
        | [] => None
        end
      else if (t =? ch "-")%N then
        match rest with
        | c :: _ =>
            if first || (c =? ch "]")%N then parse_class rest false (CChar t :: acc)
            else None
        | [] => None
        end
      else parse_class rest false (CChar t :: acc)
  end.

(** A quantifier after an atom, if there is one.  Lazy and possessive
    quantifiers are not read. *)
Definition parse_quant (a : re) (ts : list N) : option (re * list N) :=
  let plain r rest :=
    match rest with
    | t :: _ => if (t =? ch "?")%N || (t =? ch "+")%N then None else Some (r, rest)
    | [] => Some (r, rest)
    end in
  match ts with
  | t :: rest =>
      if (t =? ch "?")%N then plain (Repeat a 0 (Some 1%nat)) rest
      else if (t =? ch "*")%N then plain (Repeat a 0 None) rest
      else if (t =? ch "+")%N then plain (Repeat a 1 None) rest
      else if (t =? ch "{")%N then
        match read_nat rest None with
        | (Some lo, t1 :: rest1) =>
            if (t1 =? ch "}")%N then plain (Repeat a lo (Some lo)) rest1
            else if (t1 =? ch ",")%N then
              match read_nat rest1 None with
              | (hi, t2 :: rest2) =>
                  if (t2 =? ch "}")%N then plain (Repeat a lo hi) rest2 else None
              | _ => None
              end
            else None
        | _ => None
        end
      else Some (a, ts)
  | [] => Some (a, ts)
  end.

Fixpoint parse_alt (fuel : nat) (ts : list N) : option (re * list N) :=
  match fuel with
  | O => None
  | S fuel' =>
      match parse_seq fuel' ts with
      | Some (a, rest) =>
          match rest with
          | t :: rest' =>
              if (t =? ch "|")%N then
                match parse_alt fuel' rest' with
                | Some (b, rest'') => Some (Alt a b, rest'')
                | None => None
                end
              else Some (a, rest)
          | [] => Some (a, rest)
          end
      | None => None
      end
  end
with parse_seq (fuel : nat) (ts : list N) : option (re * list N) :=
  match fuel with
  | O => None
  | S fuel' =>
      match ts with
      | [] => Some (Empty, ts)
      | t :: _ =>
          if (t =? ch "|")%N || (t =? ch ")")%N then Some (Empty, ts)
          else
            match parse_atom fuel' ts with
            | Some (a, rest) =>
                match parse_quant a rest with
                | Some (a', rest') =>
                    match parse_seq fuel' rest' with
                    | Some (b, rest'') => Some (Cat a' b, rest'')
                    | None => None
                    end
                | None => None
                end
            | None => None
            end
      end
  end
with parse_atom (fuel : nat) (ts : list N) : option (re * list N) :=
  match fuel with
  | O => None
  | S fuel' =>
      let group body :=
        match parse_alt fuel' body with
        | Some (a, t :: rest) => if (t =? ch ")")%N then Some (a, rest) else None
        | _ => None
        end in
      match ts with
      | [] => None
      | t :: rest =>
          if (t =? ch "(")%N then
            match rest with
            | q :: c :: body =>
                if (q =? ch "?")%N then
                  (if (c =? ch ":")%N then group body else None)
                else group rest
            | _ => group rest
            end
          else if (t =? ch "[")%N then parse_class rest true []
          else if (t =? ch "\")%N then
            match rest with
            | c :: rest' =>
                match escape c with
                | Some a => Some (a, rest')
                | None => None
                end
            | [] => None
            end
          else if (t =? ch ".")%N then Some (Dot, rest)
          else if (t =? ch "$")%N then Some (Dollar, rest)
          else if (t =? ch "*")%N || (t =? ch "+")%N || (t =? ch "?")%N
                  || (t =? ch "{")%N || (t =? ch "^")%N || (t =? ch "]")%N
                  || (t =? ch "}")%N then None
          else Some (Chr t, rest)
      end
  end.

(** [re.compile(p)], for the syntax read above. *)
Definition parse (p : string) : option re :=
  let ts := code_points p in
  match parse_alt (4 * length ts + 4) ts with
  | Some (r, []) => Some r
  | _ => None
  end.

(** [re.search(p, s)] as a truth value. *)
Definition re_search (p s : string) : result bool :=
  match parse p with
  | Some r => Ok (search r s)
  | None => Unmodelled
  end.

End Regex.


(** ** Core data types ([models.py]) *)

Module Models.
Import Py.

Inductive Source :=
| GITHUB_RELEASE
| GITHUB_ISSUE
| GITHUB_DISCUSSION
| HACKER_NEWS
| RSS
| NVD_CVE.

(** [source.value] *)
Definition Source_value (s : Source) : string :=
  match s with
  | GITHUB_RELEASE => "github_release"
  | GITHUB_ISSUE => "github_issue"
  | GITHUB_DISCUSSION => "github_discussion"
  | HACKER_NEWS => "hacker_news"
  | RSS => "rss"
  | NVD_CVE => "nvd_cve"
  end.

(** A point in time, in microseconds; timestamps are stored and compared as
    ISO-8601 texts of one format, whose order is the order of time. *)
Definition datetime := Z.

Record Item := mkItem {
  source : Source;
  source_id : string;
  url : string;
  title : string;
  body : string;
  metadata : gmap string pyval;
  collected_at : datetime;
  score : Z
}.

Definition set_score (item : Item) (s : Z) : Item :=
  mkItem (source item) (source_id item) (url item) (title item) (body item)
         (metadata item) (collected_at item) s.

Definition set_metadata (item : Item) (m : gmap string pyval) : Item :=
  mkItem (source item) (source_id item) (url item) (title item) (body item)
         m (collected_at item) (score item).

Record EvidenceRef := mkEvidenceRef {
  ev_source : string;
  item_title : string;
  ev_url : string;
  ev_score : Z
}.

(** The construction timestamp of an [Opportunity], which none of the
    modelled functions reads, is left out.  [competition_notes] is whatever
    the response held under that key. *)
Record Opportunity := mkOpportunity {
  id : string;
  opp_title : string;
  pain : string;
  target_buyer : string;
  solution_shape : string;
  market_type : string;
  effort_estimate : string;
  monetization : string;
  moat : string;
  confidence : Z;
  evidence : list EvidenceRef;
  competition_notes : pyval;
  run_id : option Z
}.

Definition set_run_id (o : Opportunity) (r : Z) : Opportunity :=
  mkOpportunity (id o) (opp_title o) (pain o) (target_buyer o) (solution_shape o)
    (market_type o) (effort_estimate o) (monetization o) (moat o) (confidence o)
    (evidence o) (competition_notes o) (Some r).

End Models.

(** ** Deterministic signal scoring ([filters/scorer.py]) *)

Module Scorer.
Import Py Regex Models.

Definition HIGH_SIGNAL_PATTERNS : list (string * Z) := [
  (* Breaking changes and migrations *)
  ("\bbreaking\s+change", 25);
  ("\bdeprecate[ds]?\b", 20);
  ("\bmigrat(e|ion|ing)\b", 15);
  ("\bremov(e[ds]?|ing)\b.{0,30}\b(api|support|feature)", 15);
  ("\bend[- ]?of[- ]?life\b", 20);
  (* Failures and rollbacks *)
  ("\broll(ed)?\s*back\b", 25);
  ("\breverted?\b", 20);
  ("\bpost[- ]?mortem\b", 30);
  ("\bincident\s+(report|review)\b", 25);
  ("\boutage\b", 20);
  ("\bfail(ed|ure|ing)\b", 10);
  ("\bregression\b", 15);
  (* Rewrites and major changes *)
  ("\brewrit(e|ten|ing)\b", 15);
  ("\brearchitect", 15);
  ("\bfrom\s+scratch\b", 10);
  ("\bmajor\s+(version|release|update)\b", 10);
  ("\bv\d+\.0\.0\b", 10);
  (* Pain signals *)
  ("\bfrustrat(ed|ing|ion)\b", 10);
  ("\bworkaround\b", 10);
  ("\bbug\b.*\b(critical|severe|major)\b", 15);
  ("\bsecurity\s+(vulnerabilit|advis|patch|fix)", 20);
  ("\bCVE-\d{4}", 20);
  (* Performance and scaling *)
  ("\bperformance\s+(regression|degradation|issue)", 15);
  ("\bmemory\s+leak\b", 15);
  ("\b\d+x\s+(faster|slower)\b", 10);
  (* Technical depth signals *)
  ("\bbenchmark", 8);
  ("\barchitecture\s+decision\b", 10);
  ("\blessons?\s+learned\b", 15);
  ("\bwhy\s+we\s+(chose|switched|moved|left|abandoned)\b", 15)
].

Definition ENTERPRISE_SIGNAL_PATTERNS : list (string * Z) := [
  (* Explicit wish / feature request signals *)
  ("\bi\s+wish\s+(there\s+was|there\s+were|we\s+had|we\s+could)\b", 15);
  ("\bi\s+wish\s+\w+\s+had\b", 20);
  ("\bwhy\s+(doesn't|can't|won't|isn't)\b", 10);
  ("\bfeature\s+request\b", 15);
  ("\bwould\s+be\s+(great|nice|helpful|awesome)\s+(if|to)\b", 10);
  ("\bmissing\s+feature\b", 20);
  ("\bno\s+(way|option|ability)\s+to\b", 15);
  ("\bneeds?\s+(a|an|better)\s+(way|option|tool|solution)\b", 15);
  ("\bcan't\s+believe\s+there's\s+no\b", 25);
  (* GitHub Actions / CI/CD friction *)
  ("\b(github\s+)?actions?\s+(is|are)\s+(slow|broken|flaky|unreliable|painful)", 25);
  ("\bworkflow\s+(is|keeps?)\s+(fail|break|timeout|slow|flaky)", 20);
  ("\bCI\s+(is|keeps?)\s+(slow|flaky|broken|failing|unreliable)", 20);
  ("\bpipeline\s+(is|keeps?)\s+(slow|break|fail|flaky)", 15);
  ("\bactions?\s+(timeout|timed?\s+out)\b", 15);
  ("\brunner\s+(is|are)\s+(slow|unavailable|down)\b", 15);
  ("\bself[- ]hosted\s+runner", 10);
  ("\bworkflow\s+(yaml|yml|syntax|config)\b.*\b(confus|complex|hard|painful)", 15);
  ("\bcache\s+(miss|invalid|not\s+work|broken|slow)\b", 15);
  ("\bartifact\s+(upload|download)\s+(slow|fail|broken|limit)\b", 15);
  (* Repetitive work / automation wishes *)
  ("\bmanual(ly)?\s+(approv|review|deploy|merge|tag|release|update|bump)", 15);
  ("\brepetitive\s+(task|step|process|workflow|work)\b", 15);
  ("\btoil\b", 10);
  ("\bautomat(e|ion|ically)\b.*\b(wish|should|want|need|could)\b", 15);
  ("\bbot\s+(that|to|for|which)\s+\w+", 10);
  (* Code review pain *)
  ("\bcode\s+review\s+(is|takes?|slow|painful|bottleneck|broken|tedious)", 25);
  ("\bPR\s+(review|approval)\s+(is|takes?|slow|blocked|bottleneck|waiting)", 25);
  ("\breview\s+fatigue\b", 20);
  ("\bstale\s+PR[s]?\b", 15);
  ("\bmerge\s+(conflict[s]?|queue|hell|nightmare)\b", 15);
  ("\bcheck[s]?\s+(are|is)\s+(slow|redundant|flaky|failing)\b", 15);
  ("\bCODEOWNERS\b.*\b(broken|doesn't|wrong|confus|limit|problem|issue|pain)", 20);
  ("\bCODEOWNERS\b", 10);
  ("\bauto[- ]?merge\b", 10);
  ("\bmerge\s+queue\b", 10);
  (* Security & Vulnerability Management *)
  ("\bzero[- ]day\b", 25);
  ("\bcritical\s+vulnerabilit", 25);
  ("\bransomware\b", 15);
  ("\bpatch\s+management\b", 20);
  ("\bsecurity\s+(posture|baseline|hardening)\b", 15);
  ("\bthreat\s+(model|detection|intelligence)\b", 15);
  ("\bpenetration\s+test", 10);
  ("\bsecurity\s+audit\b", 20);
  ("\bincident\s+response\b", 15);
  ("\bvulnerability\s+(manage|scan|remediat|priorit)", 15);
  (* Compliance & Audit *)
  ("\bSOC\s*2\b", 20);
  ("\bSOC\s*[12]\s+type\s+[12]\b", 25);
  ("\bISO\s*27001\b", 20);
  ("\bHIPAA\b", 20);
  ("\bGDPR\b", 15);
  ("\bFedRAMP\b", 20);
  ("\bPCI[- ]DSS\b", 20);
  ("\bcompliance\s+(automation|drift|monitoring|report|check|audit|gap|requirement|polic)", 20);
  ("\baudit\s+(trail|log|evidence|report)\b", 15);
  ("\bpolicy[- ]as[- ]code\b", 20);
  ("\bregulatory\s+(compliance|requirement)\b", 15);
  ("\bcompliance\s+(violation|finding)\b", 20);
  (* Infrastructure as Code & DevOps *)
  ("\bterraform\b.*\b(drift|state|pain|broken|slow|issue|problem)\b", 15);
  ("\bterraform\b", 8);
  ("\binfrastructure[- ]as[- ]code\b", 10);
  ("\bIaC\b", 10);
  ("\bkubernetes\b.*\b(pain|complex|hard|config|security|cost)\b", 15);
  ("\bk8s\b.*\b(pain|complex|hard|config|security|cost)\b", 15);
  ("\bhelm\b.*\b(chart|pain|complex|broken)\b", 10);
  ("\bansible\b.*\b(pain|slow|complex|broken)\b", 10);
  ("\bconfiguration\s+(drift|management|sprawl)\b", 15);
  ("\bcloud\s+(cost|spend|waste|optimization|governance)\b", 15);
  ("\bFinOps\b", 15);
  ("\bcloud\s+native\b.*\b(security|compliance|governance)\b", 10);
  (* Observability & Incident Management *)
  ("\bobservability\b", 10);
  ("\bmonitoring\s+(gap|blind\s+spot|alert\s+fatigue)\b", 15);
  ("\balert\s+fatigue\b", 20);
  ("\bon[- ]call\s+(rotation|burden|fatigue|pain)\b", 15);
  ("\bincident\s+(management|coordination|retrospective)\b", 15);
  ("\bSLO\b.*\b(track|monitor|breach|burn)\b", 15);
  ("\bSLI\b.*\b(defin|measur|track)\b", 10);
  ("\bmean\s+time\s+to\s+(recover|detect|resolve)\b", 15);
  ("\bMTTR\b", 10);
  (* Secrets Management *)
  ("\bsecret[s]?\s+(leak|expos|rotat|scan|detect|manage)", 20);
  ("\bsecrets?\s+management\b", 15);
  ("\bvault\b.*\b(pain|complex|config|issue)\b", 10);
  ("\bsecret\s+rotation\b", 15);
  ("\bcredential\s+(leak|rotat|manag|sprawl)\b", 15);
  ("\bAPI\s+key\s+(rotat|manag|leak|expos)\b", 15);
  (* Software Supply Chain *)
  ("\bSBOM\b", 15);
  ("\bsupply\s+chain\s+(security|attack|risk|integrity)", 20);
  ("\bdependency\s+(confusion|hijack)\b", 20);
  ("\bpackage\s+(integrity|provenance|signing)\b", 15);
  ("\bSLSA\b", 15);
  ("\bsoftware\s+composition\s+analysis\b", 15);
  ("\bSCA\b.*\b(tool|scan|result)\b", 10);
  ("\bdependency\s+(vulnerabilit|audit|scan|update|hell|management)", 20);
  ("\blicense\s+(compliance|check|scan|violation|audit)", 15);
  ("\bsecret\s+scanning\b.*\b(miss|false|limit|doesn't|not\s+enough)", 20);
  ("\bdependabot\b.*\b(slow|noisy|miss|doesn't|broken|limit|annoying)", 20);
  (* Access Control & Identity *)
  ("\baccess\s+(control|management|review|governance)\b", 15);
  ("\bprivilege\s+(escalation|management|creep)\b", 20);
  ("\bleast\s+privilege\b", 15);
  ("\bIAM\b.*\b(complex|pain|audit|review)\b", 15);
  ("\bSSO\b.*\b(integration|pain|issue|broken)\b", 10);
  ("\bRBAC\b", 10);
  (* Testing & Code Quality *)
  ("\bflaky\s+test", 20);
  ("\btest\s+(coverage|gap|flak|automation|infrastructure)\b", 15);
  ("\btesting\s+(pain|bottleneck|slow|manual|burden)\b", 15);
  ("\bcode\s+quality\b.*\b(enforce|automat|gate|check)\b", 15);
  ("\bstatic\s+analysis\b", 10);
  ("\bSAST\b", 10);
  ("\bDAST\b", 10);
  ("\btechnical\s+debt\b", 10);
  ("\bcode\s+coverage\b.*\b(enforce|requir|gate|low)\b", 15);
  (* Developer Productivity & Platform Engineering *)
  ("\bdeveloper\s+productivity\b", 10);
  ("\bengineering\s+velocity\b", 10);
  ("\bdeveloper\s+(platform|portal|self[- ]service)\b", 15);
  ("\bplatform\s+engineering\b", 15);
  ("\binternal\s+developer\s+platform\b", 15);
  ("\bgolden\s+path\b", 10);
  ("\bdeploy\s+(frequency|lead\s+time|time)\b", 10);
  ("\bDORA\s+metrics\b", 20);
  ("\bdeveloper\s+experience\b", 10);
  ("\bDX\b\s+(is|sucks|poor|bad|terrible|awful|needs)", 20);
  ("\bonboarding\s+(is|takes?|slow|painful|difficult|hard|complex)", 15);
  ("\bdev\s+(environment|setup|config)\s+(is|takes?|painful|slow|broken|complex)", 15);
  (* Integration / tooling gaps *)
  ("\b(doesn't|don't|can't|no)\s+(integrat|connect|sync|work\s+with)\b", 20);
  ("\bmissing\s+integration\b", 20);
  ("\b(jira|linear|notion|slack|teams|discord)\s+(integration|sync|connect|bridge)", 15);
  ("\bno\s+(native|built[- ]?in)\s+(support|integration|feature)\b", 20);
  ("\bAPI\s+(limitation|missing|gap|doesn't|insufficient|rate\s+limit)", 15);
  ("\bwebhook[s]?\s+(missing|unreliable|limitation|delay|broken)", 15);
  (* Monorepo / scale-related pain *)
  ("\bmonorepo\b.*\b(pain|slow|problem|issue|hard|scale|limit|doesn't)", 15);
  ("\bmonorepo\b", 8);
  ("\bcode\s+own(er|ership)\b.*\b(confus|broken|limit|doesn't|wrong|pain)", 15);
  ("\blarge\s+(repo|repository|codebase)\b.*\b(slow|pain|problem|scale)", 15);
  (* Notifications / noise management *)
  ("\bnotification[s]?\s+(noise|overload|flood|too\s+many|useless|overwhelm)", 20);
  (* Release / deployment pain *)
  ("\brelease\s+(process|management|automation)\b.*\b(pain|manual|tedious|complex)", 15);
  ("\bchangelog\s+(generat|automat|maintain)\b", 10);
  ("\brelease\s+notes?\b.*\b(manual|automat|generat|tedious)", 10)
].

Definition LOW_SIGNAL_PATTERNS : list (string * Z) := [
  (* Marketing / hype *)
  ("\bexcited\s+to\s+announce\b", -15);
  ("\bgame[- ]?changer\b", -20);
  ("\brevolution(ary|ize)\b", -15);
  ("\bunlock\s+(the\s+)?power\b", -15);
  ("\b10x\s+(developer|engineer|productivity)\b", -20);
  ("\bsynerg", -20);
  ("\bdelighted\b", -10);
  (* Engagement bait *)
  ("\bthis\s+is\s+huge\b", -10);
  ("\byou\s+won't\s+believe\b", -20);
  ("\bmind[- ]?blow(n|ing)\b", -15);
  ("\bhot\s+take\b", -10);
  (* Generic opinion *)
  ("\bmy\s+thoughts\s+on\b", -5);
  ("\bunpopular\s+opinion\b", -10);
  ("\bthread\s*[🧵⬇️↓]\s*$", -10);
  (* Hiring/job posts *)
  ("\bwe're\s+hiring\b", -15);
  ("\bjoin\s+our\s+team\b", -15);
  (* Self-promotion (someone advertising their own app, not complaining) *)
  ("\bcheck\s+out\s+my\s+(app|action|tool|project|extension)\b", -20);
  ("\bjust\s+(published|released|launched|shipped)\s+(my|our|a)\s+(app|action|tool)\b", -15);
  ("\bintroducing\s+(my|our)\s+(new\s+)?(app|action|tool)\b", -15);
  ("\bshow\s+HN\b", -5);
  (* Testimonials (people praising existing tools, not pain signals) *)
  ("\b(love|loving)\s+(this|the)\s+(tool|app|action)\b", -10);
  ("\bbest\s+(tool|app|action)\s+(I've|i've|ever)\b", -10);
  (* Tutorial content (not pain signals) *)
  ("\bstep[- ]by[- ]step\s+(guide|tutorial)\b", -10);
  ("\bbeginner'?s?\s+guide\b", -10)
].

(** One pass of [for pattern, delta in patterns: if re.search(...): total += delta] *)
Fixpoint apply_patterns (patterns : list (string * Z)) (text_lower : string)
    (total : Z) : result Z :=
  match patterns with
  | [] => Ok total
  | (pattern, delta) :: rest =>
      bind (re_search pattern text_lower) (fun hit =>
        apply_patterns rest text_lower (if hit then total + delta else total))
  end.

Definition _pattern_score (text : string) : result Z :=
  let text_lower := lower text in
  bind (apply_patterns HIGH_SIGNAL_PATTERNS text_lower 0) (fun total =>
  bind (apply_patterns ENTERPRISE_SIGNAL_PATTERNS text_lower total) (fun total =>
  apply_patterns LOW_SIGNAL_PATTERNS text_lower total)).

(** [meta.get(key, default)] *)
Definition get (meta : gmap string pyval) (key : string) (dflt : pyval) : pyval :=
  default dflt (meta !! key).

(** [min(v // n, cap)] for positive integer constants [n] and [cap].  A float
    operand continues in float arithmetic. *)
Definition capped_bucket (v : pyval) (n cap : Z) : result Z :=
  match v with
  | PInt z => Ok (Z.min (z / n) cap)
  | PBool b => Ok (Z.min ((if b then 1 else 0) / n) cap)
  | PFloat _ => Unmodelled
  | PNone | PStr _ | PList _ | PDict _ => Raise TypeError
  end.

(** The elements [for l in labels] visits. The keys of a dict are visited in
    insertion order, which the map does not keep; they are all strings, so
    the order does not show in [any_label]. *)
Definition iterate (labels : pyval) : result (list pyval) :=
  match labels with
  | PList l => Ok l
  | PStr s => Ok (map (fun c => PStr (String c EmptyString)) (list_ascii_of_string s))
  | PDict d => Ok (map (fun kv => PStr kv.1) (map_to_list d))
  | PNone | PBool _ | PInt _ | PFloat _ => Raise TypeError
  end.

(** [any(l.lower() in members for l in ls)] *)
Fixpoint any_lower_in (members : list string) (ls : list pyval) : result bool :=
  match ls with
  | [] => Ok false
  | PStr s :: rest =>
      if str_in (lower s) members then Ok true else any_lower_in members rest
  | _ :: _ => Raise AttributeError
  end.

Definition any_label (members : list string) (labels : pyval) : result bool :=
  bind (iterate labels) (any_lower_in members).

Definition high_signal_labels : list string :=
  ["bug"; "breaking"; "regression"; "security"; "critical"].

Definition opportunity_labels : list string :=
  ["enhancement"; "feature-request"; "feature"; "feature request";
   "help-wanted"; "help wanted"; "proposal"; "rfc"].

Definition high_signal_categories : list string :=
  ["ideas"; "feature request"; "feature requests";
   "feedback"; "feature"; "enhancements"].

(** [category.lower()] *)
Definition py_lower (v : pyval) : result string :=
  match v with
  | PStr s => Ok (lower s)
  | _ => Raise AttributeError
  end.

Definition _engagement_score (item : Item) : result Z :=
  let meta := metadata item in
  let score := 0 in
  match source item with
  | GITHUB_ISSUE =>
      let reactions := get meta "reactions" (PInt 0) in
      let comments := get meta "comments" (PInt 0) in
      bind (capped_bucket reactions 5 15) (fun d =>
      let score := score + d in
      bind (capped_bucket comments 3 10) (fun d =>
      let score := score + d in
      let labels := get meta "labels" (PList []) in
      bind (any_label high_signal_labels labels) (fun hit =>
      let score := if hit then score + 15 else score in
      bind (any_label opportunity_labels labels) (fun hit =>
      let score := if hit then score + 10 else score in
      Ok score))))
  | GITHUB_RELEASE =>
      let score := if truthy (get meta "prerelease" PNone) then score - 5 else score in
      Ok score
  | GITHUB_DISCUSSION =>
      let upvotes := get meta "upvotes" (PInt 0) in
      let comments := get meta "comments" (PInt 0) in
      bind (capped_bucket upvotes 3 20) (fun d =>
      let score := score + d in
      bind (capped_bucket comments 5 10) (fun d =>
      let score := score + d in
      bind (if truthy (get meta "has_answer" (PBool true)) then Ok false
            else py_ge_const upvotes (inject_Z 10)) (fun unmet =>
      let score := if unmet then score + 15 else score in
      bind (py_lower (get meta "category" (PStr EmptyString))) (fun category =>
      let score := if str_in category high_signal_categories then score + 10 else score in
      let labels := get meta "labels" (PList []) in
      bind (any_label opportunity_labels labels) (fun hit =>
      let score := if hit then score + 10 else score in
      Ok score)))))
  | HACKER_NEWS =>
      let hn_score := get meta "score" (PInt 0) in
      let comments := get meta "comments" (PInt 0) in
      bind (capped_bucket hn_score 50 15) (fun d =>
      let score := score + d in
      bind (capped_bucket comments 30 10) (fun d =>
      let score := score + d in
      let score := if truthy (get meta "search_keyword" PNone) then score + 5 else score in
      Ok score))
  | NVD_CVE =>
      let cvss := get meta "cvss_score" (PInt 0) in
      bind (py_ge_const cvss (inject_Z 9)) (fun critical =>
      if critical then Ok (score + 20)
      else bind (py_ge_const cvss (inject_Z 7)) (fun high =>
      if high then Ok (score + 15)
      else bind (py_ge_const cvss (inject_Z 4)) (fun medium =>
      if medium then Ok (score + 5) else Ok score)))
  | RSS => Ok score
  end.

Definition _body_quality_score (item : Item) : Z :=
  let body_len := Z.of_nat (String.length (strip (body item))) in
  if body_len <? 50 then -10
  else if body_len <? 200 then 0
  else if body_len <? 1000 then 5
  else 10.

Definition score_item (item : Item) : result Item :=
  let base := 20 in
  let text := title item +:+ String "010" (body item) in
  bind (_pattern_score text) (fun pattern =>
  bind (_engagement_score item) (fun engagement =>
  let quality := _body_quality_score item in
  let total := base + pattern + engagement + quality in
  Ok (set_score item (Z.max 0 (Z.min 100 total))))).

(** [[score_item(item) for item in items]] *)
Fixpoint score_all (items : list Item) : result (list Item) :=
  match items with
  | [] => Ok []
  | item :: rest =>
      bind (score_item item) (fun scored =>
      bind (score_all rest) (fun scored_rest => Ok (scored :: scored_rest)))
  end.

(** [list.sort] is stable: [insert_by le x l] puts [x] in front of the first
    element it may precede, [sort_by le] sorts from the right. *)
Fixpoint insert_by {A} (le : A -> A -> bool) (x : A) (l : list A) : list A :=
  match l with
  | [] => [x]
  | y :: rest => if le x y then x :: l else y :: insert_by le x rest
  end.

Fixpoint sort_by {A} (le : A -> A -> bool) (l : list A) : list A :=
  match l with
  | [] => []
  | x :: rest => insert_by le x (sort_by le rest)
  end.

(** Order of [sort(key=lambda x: x.score, reverse=True)] *)
Definition score_desc (a b : Item) : bool := score b <=? score a.

Definition filter_items (items : list Item) (threshold : Z) : result (list Item) :=
  bind (score_all items) (fun scored =>
  let filtered := List.filter (fun item => threshold <=? score item) scored in
  Ok (sort_by score_desc filtered)).

(** The default of [threshold] *)
Definition default_threshold : Z := 40.

End Scorer.

(** ** The store ([storage/db.py])

    The connection's view of the tables that scoring and extraction use.  A
    table is the list of its rows in insertion order; a column declared
    [INTEGER PRIMARY KEY AUTOINCREMENT] takes the successor of the last value
    handed out, kept in [last_*]. *)

Module Db.
Import Py Models Scorer.

Record digest_row := mkDigestRow {
  digest_id : Z;
  digest_type : string;
  content : ftext;
  digest_item_count : Z;
  digest_generated_at : datetime
}.

Record run_row := mkRunRow {
  run_row_id : Z;
  run_digest_id : option Z;
  item_count : Z;
  opportunity_count : Z;
  run_generated_at : datetime
}.

(** A row of [opportunities]; its primary key is [(o_id, o_run_id)]. *)
Record opportunity_row := mkOpportunityRow {
  o_id : string;
  o_run_id : Z;
  o_title : string;
  o_pain : string;
  o_target_buyer : string;
  o_solution_shape : string;
  o_market_type : string;
  o_effort_estimate : string;
  o_monetization : string;
  o_moat : string;
  o_confidence : Z;
  o_competition_notes : pyval;
  o_generated_at : datetime
}.

Record evidence_row := mkEvidenceRow {
  e_id : Z;
  e_opportunity_id : string;
  e_run_id : Z;
  e_source : string;
  e_item_title : string;
  e_url : string;
  e_score : Z
}.

Record Storage := mkStorage {
  items : list Item;
  digests : list digest_row;
  opportunity_runs : list run_row;
  opportunities : list opportunity_row;
  opportunity_evidence : list evidence_row;
  last_digest_id : Z;
  last_run_id : Z;
  last_evidence_id : Z
}.

(** [timedelta(days=days)] *)
Definition timedelta_days (days : Z) : Z := days * 86400 * 1000000.

(** [ORDER BY score DESC, collected_at DESC] *)
Definition items_order (a b : Item) : bool :=
  if score b <? score a then true
  else if score a <? score b then false
  else collected_at b <=? collected_at a.

(** SQL leaves open the order of rows that agree on both keys.  SQLite
    answers this query from the index on [score], walked backwards, and
    returns such rows last inserted first. *)
Definition get_items_since (self : Storage) (since : datetime) (min_score : Z)
    : list Item :=
  sort_by items_order
    (rev (List.filter (fun r => (since <=? collected_at r) && (min_score <=? score r))
            (items self))).

(** [now] is the reading of the clock taken by the call. *)
Definition get_items_last_n_days (self : Storage) (now : datetime) (days min_score : Z)
    : list Item :=
  let since := now - timedelta_days days in
  get_items_since self since min_score.

Definition save_digest (self : Storage) (now : datetime) (digest_type : string)
    (content : ftext) (item_count : Z) : Storage :=
  let new_id := last_digest_id self + 1 in
  mkStorage (items self)
    (digests self ++ [mkDigestRow new_id digest_type content item_count now])
    (opportunity_runs self) (opportunities self) (opportunity_evidence self)
    new_id (last_run_id self) (last_evidence_id self).

(** [SELECT id FROM digests ORDER BY id DESC LIMIT 1] *)
Definition latest_digest_id (self : Storage) : option Z :=
  match digests self with
  | [] => None
  | d :: rest => Some (fold_left Z.max (map digest_id rest) (digest_id d))
  end.

Definition same_key (oid : string) (rid : Z) (r : opportunity_row) : bool :=
  String.eqb (o_id r) oid && (o_run_id r =? rid).

(** [INSERT OR REPLACE INTO opportunities]: a row with the same primary key
    is deleted, then the new row is inserted. *)
Definition insert_or_replace (row : opportunity_row) (table : list opportunity_row)
    : list opportunity_row :=
  List.filter (fun r => negb (same_key (o_id row) (o_run_id row) r)) table ++ [row].

(** An integer bound to a statement has to fit in 64 bits. *)
Definition sqlite_int (z : Z) : result Z :=
  if (- 2 ^ 63 <=? z) && (z <? 2 ^ 63) then Ok z else Raise OverflowError.

(** What the column [competition_notes] holds for a value that was bound.
    [None] and NaN are bound as NULL; the column is [NOT NULL DEFAULT ''],
    and [INSERT OR REPLACE] writes the default of such a column in place of
    a NULL.  The column turns a number into its text, which is kept here as
    the number. *)
Definition stored_notes (notes : pyval) : pyval :=
  match notes with
  | PNone | PFloat FNaN => PStr EmptyString
  | _ => notes
  end.

(** The two parameters of the insertion into [opportunities] that can be
    refused, in the order they are bound: [confidence], then
    [competition_notes], which cannot be a list or a dict.  The value
    returned is the one the column holds. *)
Definition bind_opportunity (confidence : Z) (notes : pyval) : result pyval :=
  bind (sqlite_int confidence) (fun _ =>
  match notes with
  | PList _ | PDict _ => Raise ProgrammingError
  | PInt z => bind (sqlite_int z) (fun _ => Ok notes)
  | _ => Ok (stored_notes notes)
  end).

(** [for ev in opp.evidence: INSERT INTO opportunity_evidence ...], on the
    table and the last id handed out; these are returned, as they are when
    the loop ends or raises. *)
Fixpoint insert_evidence (oid : string) (rid : Z) (evs : list EvidenceRef)
    (table : list evidence_row) (last : Z) : result unit * (list evidence_row * Z) :=
  match evs with
  | [] => (Ok tt, (table, last))
  | ev :: rest =>
      match sqlite_int (ev_score ev) with
      | Ok score =>
          let new_id := last + 1 in
          insert_evidence oid rid rest
            (table ++ [mkEvidenceRow new_id oid rid (ev_source ev) (item_title ev)
                         (ev_url ev) score])
            new_id
      | Raise e => (Raise e, (table, last))
      | Unmodelled => (Unmodelled, (table, last))
      end
  end.

(** The body of [for opp in opportunities] for one opportunity. *)
Definition save_opportunity (now : datetime) (rid : Z) (opp : Opportunity)
    (self : Storage) : result unit * Storage :=
  match bind_opportunity (confidence opp) (competition_notes opp) with
  | Ok notes =>
      let row :=
        mkOpportunityRow (id opp) rid (opp_title opp) (pain opp) (target_buyer opp)
          (solution_shape opp) (market_type opp) (effort_estimate opp)
          (monetization opp) (moat opp) (confidence opp) notes now in
      let '(r, (ev_table, last)) :=
        insert_evidence (id opp) rid (evidence opp)
          (opportunity_evidence self) (last_evidence_id self) in
      (r,
       mkStorage (items self) (digests self) (opportunity_runs self)
         (insert_or_replace row (opportunities self)) ev_table
         (last_digest_id self) (last_run_id self) last)
  | Raise e => (Raise e, self)
  | Unmodelled => (Unmodelled, self)
  end.

Fixpoint save_opportunities (now : datetime) (rid : Z) (opps : list Opportunity)
    (self : Storage) : result unit * Storage :=
  match opps with
  | [] => (Ok tt, self)
  | opp :: rest =>
      match save_opportunity now rid opp self with
      | (Ok _, self') => save_opportunities now rid rest self'
      | failed => failed
      end
  end.

(** The parameters of the insertion into [opportunity_runs]: the two
    integers have to fit, and [digest_id] has to name a row of [digests]
    (foreign keys are on). *)
Definition bind_run (self : Storage) (digest : option Z) (item_count : Z)
    : result unit :=
  bind (match digest with Some d => sqlite_int d | None => Ok 0 end) (fun _ =>
  bind (sqlite_int item_count) (fun _ =>
  match digest with
  | None => Ok tt
  | Some d =>
      if existsb (fun r => digest_id r =? d) (digests self) then Ok tt
      else Raise IntegrityError
  end)).

(** Returns the run id and the store after the call; when the call raises,
    the store is what the connection holds at that point. *)
Definition save_opportunity_run (self : Storage) (now : datetime)
    (opps : list Opportunity) (item_count : Z) (digest : option Z)
    : result Z * Storage :=
  match bind_run self digest item_count with
  | Ok _ =>
      let run_id := last_run_id self + 1 in
      let self1 :=
        mkStorage (items self) (digests self)
          (opportunity_runs self
             ++ [mkRunRow run_id digest item_count (Z.of_nat (length opps)) now])
          (opportunities self) (opportunity_evidence self)
          (last_digest_id self) run_id (last_evidence_id self) in
      match save_opportunities now run_id opps self1 with
      | (Ok _, self2) => (Ok run_id, self2)
      | (Raise e, self2) => (Raise e, self2)
      | (Unmodelled, self2) => (Unmodelled, self2)
      end
  | Raise e => (Raise e, self)
  | Unmodelled => (Unmodelled, self)
  end.

(** *** Trends *)

Record data_point := mkDataPoint {
  dp_run_id : Z;
  dp_confidence : Z;
  dp_generated_at : datetime
}.

Record trend := mkTrend {
  trend_id : string;
  trend_title : string;
  data_points : list data_point
}.

(** [ORDER BY o.id, o.generated_at ASC]; rows that agree on both keep the
    order of the table. *)
Definition trend_order (a b : opportunity_row) : bool :=
  match String.compare (o_id a) (o_id b) with
  | Lt => true
  | Gt => false
  | Eq => o_generated_at a <=? o_generated_at b
  end.

(** The dict [trends], in insertion order. *)
Definition trends_dict := list (string * trend).

(** [oid in trends] *)
Definition contains (oid : string) (trends : trends_dict) : bool :=
  existsb (fun kv => String.eqb kv.1 oid) trends.

(** [trends[oid] = f(trends[oid])] for a key that is present *)
Fixpoint update (oid : string) (f : trend -> trend) (trends : trends_dict)
    : trends_dict :=
  match trends with
  | [] => []
  | (k, t) :: rest =>
      if String.eqb k oid then (k, f t) :: rest else (k, t) :: update oid f rest
  end.

(** The body of [for row in rows] *)
Definition trends_step (trends : trends_dict) (row : opportunity_row) : trends_dict :=
  let oid := o_id row in
  let trends :=
    if negb (contains oid trends)
    then trends ++ [(oid, mkTrend oid (o_title row) [])]
    else trends in
  let trends :=
    update oid (fun t =>
      mkTrend (trend_id t) (trend_title t)
        (data_points t
           ++ [mkDataPoint (o_run_id row) (o_confidence row) (o_generated_at row)]))
      trends in
  update oid (fun t => mkTrend (trend_id t) (o_title row) (data_points t)) trends.

Definition get_opportunity_trends (self : Storage) : list trend :=
  let rows := sort_by trend_order (opportunities self) in
  let trends := fold_left trends_step rows [] in
  map snd trends.

(** A store with no rows. *)
Definition empty_storage : Storage := mkStorage [] [] [] [] [] 0 0 0.

End Db.

(** ** The synthesis engine ([synthesizer/engine.py]) *)

Module Engine.
Import Py Models Db.

Definition nl : string := String "010" EmptyString.

(** [items[:max_items]], each rendered by the f-string of the loop. *)
Definition format_item (item : Item) : ftext :=
  [Lit "[score="; Val (PInt (score item)); Lit "] [";
   Lit (Source_value (source item)); Lit "] "; Lit (title item); Lit nl;
   Lit "  URL: "; Lit (url item); Lit nl;
   Lit "  "; Lit (take 500 (body item)); Lit nl].

Definition _format_items_for_prompt (items : list Item) (max_items : nat) : ftext :=
  match items with
  | [] => [Lit "(no items collected)"]
  | _ => join (nl +:+ "---" +:+ nl) (map format_item (firstn max_items items))
  end.

(** [re.sub] of the fence pattern by the empty string, as
    [_extract_json_array] calls it.  A match is three backticks,
    then [json] if it is there, then all the whitespace that follows (after
    which the optional newline has nothing left to take).  [skip] counts the
    characters of the current match still to drop; [in_space] tells that the
    whitespace of a match is being dropped. *)
Fixpoint sub_fences (skip : nat) (in_space : bool) (text : string) : string :=
  match text with
  | EmptyString => EmptyString
  | String c rest =>
      match skip with
      | S n => sub_fences n true rest
      | O =>
          if in_space && isspace c then sub_fences 0 true rest
          else if startswith "```json" text then sub_fences 6 true rest
          else if startswith "```" text then sub_fences 2 true rest
          else String c (sub_fences 0 false rest)
      end
  end.

(** The loop [for i in range(start, len(text))], on the text from [start]
    on: the number of characters up to and including the bracket that brings
    [depth] back to zero. *)
Fixpoint bracket_end (text : string) (depth : Z) : option nat :=
  match text with
  | EmptyString => None
  | String c rest =>
      if Ascii.eqb c "[" then option_map S (bracket_end rest (depth + 1))
      else if Ascii.eqb c "]" then
        let depth := depth - 1 in
        if depth =? 0 then Some 1%nat else option_map S (bracket_end rest depth)
      else option_map S (bracket_end rest depth)
  end.

Definition _extract_json_array (text : string) : result string :=
  let text := sub_fences 0 false text in
  let text := strip text in
  match find "[" text with
  | None => Raise (ValueError [Lit "No JSON array found in response"])
  | Some start =>
      match bracket_end (drop start text) 0 with
      | None => Raise (ValueError [Lit "Unbalanced brackets in JSON array"])
      | Some len => Ok (take len (drop start text))
      end
  end.

Definition VALID_EFFORT_ESTIMATES : list string := ["weekend"; "1-2 weeks"; "month+"].

Definition required_str_fields : list string :=
  ["id"; "title"; "pain"; "target_buyer"; "solution_shape";
   "market_type"; "effort_estimate"; "monetization"; "moat"].

(** [field not in d or not isinstance(d[field], str) or not d[field].strip()] *)
Definition missing_or_empty (d : gmap string pyval) (field : string) : bool :=
  match d !! field with
  | Some (PStr s) => String.eqb (strip s) EmptyString
  | _ => true
  end.

(** [isinstance(v, (int, float))] *)
Definition is_int_or_float (v : pyval) : bool :=
  match v with
  | PInt _ | PBool _ | PFloat _ => true
  | _ => false
  end.

Definition confidence_errors (d : gmap string pyval) : list ftext :=
  match d !! "confidence" with
  | None => [[Lit "Missing field: confidence"]]
  | Some v =>
      if negb (is_int_or_float v) then
        [[Lit "confidence must be an integer, got "; Lit (type_name v)]]
      else
        match py_between_const 0 v (inject_Z 100) with
        | Ok true => []
        | _ => [[Lit "confidence must be 0-100, got "; Val v]]
        end
  end.

(** The membership test hashes the value, which raises for a list or a
    dict. *)
Definition effort_errors (d : gmap string pyval) : result (list ftext) :=
  let complaint v :=
    [[Lit "effort_estimate must be one of "; ValSet VALID_EFFORT_ESTIMATES;
      Lit ", got '"; Val v; Lit "'"]] in
  match d !! "effort_estimate" with
  | None => Ok []
  | Some (PList _) | Some (PDict _) => Raise TypeError
  | Some (PStr s) =>
      if str_in s VALID_EFFORT_ESTIMATES then Ok [] else Ok (complaint (PStr s))
  | Some v => Ok (complaint v)
  end.

Definition evidence_fields : list string := ["source"; "item_title"; "url"].

(** The body of [for i, ev in enumerate(d["evidence"])] *)
Definition evidence_entry_errors (i : nat) (ev : pyval) : list ftext :=
  match ev with
  | PDict e =>
      map (fun ef => [Lit "evidence["; Val (PInt (Z.of_nat i)); Lit "] missing field: "; Lit ef])
        (List.filter (missing_or_empty e) evidence_fields)
  | _ => [[Lit "evidence["; Val (PInt (Z.of_nat i)); Lit "] must be an object"]]
  end.

Fixpoint evidence_entries_errors (i : nat) (evs : list pyval) : list ftext :=
  match evs with
  | [] => []
  | ev :: rest => evidence_entry_errors i ev ++ evidence_entries_errors (S i) rest
  end.

Definition evidence_errors (d : gmap string pyval) : list ftext :=
  match d !! "evidence" with
  | Some (PList []) => [[Lit "evidence array must have at least 1 entry"]]
  | Some (PList evs) => evidence_entries_errors 0 evs
  | _ => [[Lit "Missing or invalid field: evidence (must be array)"]]
  end.

Definition _validate_opportunity_dict (d : gmap string pyval) : result (list ftext) :=
  let errors :=
    map (fun field => [Lit "Missing or empty required field: "; Lit field])
      (List.filter (missing_or_empty d) required_str_fields) in
  let errors := errors ++ confidence_errors d in
  bind (effort_errors d) (fun effort =>
  let errors := errors ++ effort in
  let errors := errors ++ evidence_errors d in
  Ok errors).

(** [d[key]], or [d.get(key, '')], read as the [str] that validation found
    there. *)
Definition str_field (d : gmap string pyval) (key : string) : result string :=
  match d !! key with
  | Some (PStr s) => Ok s
  | _ => Unmodelled
  end.

(** [EvidenceRef(source=ev.get("source", ''), ..., score=int(ev.get("score", 0)))] *)
Definition to_evidence_ref (ev : pyval) : result EvidenceRef :=
  match ev with
  | PDict e =>
      bind (str_field e "source") (fun source =>
      bind (str_field e "item_title") (fun item_title =>
      bind (str_field e "url") (fun url =>
      bind (py_int (default (PInt 0) (e !! "score"))) (fun score =>
      Ok (mkEvidenceRef source item_title url score)))))
  | _ => Unmodelled
  end.

Fixpoint to_evidence (evs : list pyval) : result (list EvidenceRef) :=
  match evs with
  | [] => Ok []
  | ev :: rest =>
      bind (to_evidence_ref ev) (fun r =>
      bind (to_evidence rest) (fun rs => Ok (r :: rs)))
  end.

(** The construction of the [Opportunity] from a dict that passed
    validation. *)
Definition to_opportunity (item : gmap string pyval) : result Opportunity :=
  bind (match default (PList []) (item !! "evidence") with
        | PList evs => to_evidence evs
        | _ => Unmodelled
        end) (fun evidence =>
  bind (str_field item "id") (fun id =>
  bind (str_field item "title") (fun title =>
  bind (str_field item "pain") (fun pain =>
  bind (str_field item "target_buyer") (fun target_buyer =>
  bind (str_field item "solution_shape") (fun solution_shape =>
  bind (str_field item "market_type") (fun market_type =>
  bind (str_field item "effort_estimate") (fun effort_estimate =>
  bind (str_field item "monetization") (fun monetization =>
  bind (str_field item "moat") (fun moat =>
  bind (match item !! "confidence" with
        | Some v => py_int v
        | None => Unmodelled
        end) (fun confidence =>
  Ok (mkOpportunity id title pain target_buyer solution_shape market_type
        effort_estimate monetization moat confidence evidence
        (default (PStr EmptyString) (item !! "competition_notes")) None)))))))))))).

(** [f"Item {i} ({item.get('id', '?')}): {'; '.join(errors)}"] *)
Definition item_errors_line (i : nat) (item : gmap string pyval) (errors : list ftext)
    : ftext :=
  [Lit "Item "; Val (PInt (Z.of_nat i)); Lit " (";
   Val (default (PStr "?") (item !! "id")); Lit "): "] ++ join "; " errors.

(** [f"Item {i}: expected object, got {type(item).__name__}"] *)
Definition not_object_line (i : nat) (item : pyval) : ftext :=
  [Lit "Item "; Val (PInt (Z.of_nat i)); Lit ": expected object, got ";
   Lit (type_name item)].

(** The loop [for i, item in enumerate(data)], from index [i] on, with the
    two accumulators. *)
Fixpoint parse_loop (i : nat) (data : list pyval) (opportunities : list Opportunity)
    (all_errors : list ftext) : result (list Opportunity * list ftext) :=
  match data with
  | [] => Ok (opportunities, all_errors)
  | PDict item :: rest =>
      bind (_validate_opportunity_dict item) (fun errors =>
      match errors with
      | _ :: _ =>
          parse_loop (S i) rest opportunities
            (all_errors ++ [item_errors_line i item errors])
      | [] =>
          bind (to_opportunity item) (fun opp =>
          parse_loop (S i) rest (opportunities ++ [opp]) all_errors)
      end)
  | item :: rest =>
      parse_loop (S i) rest opportunities (all_errors ++ [not_object_line i item])
  end.

(** [f"All {len(data)} opportunities failed validation:\n" + "\n".join(all_errors)] *)
Definition all_failed (n : nat) (all_errors : list ftext) : exn :=
  ValueError ([Lit "All "; Val (PInt (Z.of_nat n));
               Lit (" opportunities failed validation:" +:+ nl)] ++ join nl all_errors).

(** [parse_opportunities_json] from the value [json.loads] returned.  The
    warning logged when only some elements fail is not modelled. *)
Definition parse_loaded (data : pyval) : result (list Opportunity) :=
  match data with
  | PList elements =>
      bind (parse_loop 0 elements [] []) (fun '(opportunities, all_errors) =>
      match all_errors, opportunities with
      | _ :: _, [] => Raise (all_failed (length elements) all_errors)
      | _, _ => Ok opportunities
      end)
  | _ => Raise (ValueError [Lit "Expected JSON array, got "; Lit (type_name data)])
  end.

(** [json_loads] stands for [json.loads] of the standard library, which
    returns the value read or raises [JSONDecodeError]. *)
Definition parse_opportunities_json (json_loads : string -> result pyval)
    (raw_text : string) : result (list Opportunity) :=
  bind (_extract_json_array raw_text) (fun json_str =>
  bind (json_loads json_str) parse_loaded).

(** *** The completion client ([llm/provider.py]) *)

(** The system prompts are module constants; a request names the one it
    carries. *)
Inductive system_prompt_name :=
| DAILY_SYSTEM
| WEEKLY_SYSTEM
| QA_SYSTEM
| OPPORTUNITY_SYSTEM
| STRUCTURED_OPPORTUNITY_SYSTEM.

(** The arguments of one call of [complete]. *)
Record request := mkRequest {
  system_prompt : system_prompt_name;
  user_prompt : ftext;
  temperature : Q;
  max_tokens : Z
}.

Record LLMResponse := mkLLMResponse {
  text : string;
  input_tokens : Z;
  output_tokens : Z;
  model : string
}.

(** A provider answers a request, knowing the requests it was sent before:
    it returns a response or raises. *)
Definition LLMProvider := list request -> request -> result LLMResponse.

(** [STRUCTURED_OPPORTUNITY_USER.format(items=items)] *)
Definition STRUCTURED_OPPORTUNITY_USER (items : ftext) : ftext :=
  [Lit ("Here are the last 14 days of enterprise-relevant signals (scored and filtered):"
        +:+ nl +:+ nl)]
  ++ items
  ++ [Lit (nl +:+ nl +:+ "Respond with ONLY a JSON array of structured opportunities."
           +:+ nl +:+ "No text before or after the JSON. No markdown fences." +:+ nl)].

(** [STRUCTURED_OPPORTUNITY_REPAIR.format(error=error, raw=raw)] *)
Definition STRUCTURED_OPPORTUNITY_REPAIR (error : ftext) (raw : string) : ftext :=
  [Lit ("Your previous response was not valid JSON. Here is the error:" +:+ nl +:+ nl)]
  ++ error
  ++ [Lit (nl +:+ nl +:+ "Here is what you returned (truncated to 500 chars):"
           +:+ nl +:+ nl);
      Lit raw;
      Lit (nl +:+ nl
           +:+ "Please fix your response. Return ONLY a valid JSON array of opportunity objects."
           +:+ nl
           +:+ "No markdown, no commentary, no code fences. Just the JSON array." +:+ nl)].

(** The lines [_opportunities_to_text] appends for the opportunity numbered
    [i] (from 1). *)
Definition opportunity_lines (i : nat) (opp : Opportunity) : list ftext :=
  [[Val (PInt (Z.of_nat i)); Lit ". "; Lit (opp_title opp); Lit " (confidence: ";
    Val (PInt (confidence opp)); Lit "/100)"];
   [Lit "   PAIN: "; Lit (pain opp)];
   [Lit "   TARGET BUYER: "; Lit (target_buyer opp)];
   [Lit "   SOLUTION: "; Lit (solution_shape opp)];
   [Lit "   MARKET: "; Lit (market_type opp)];
   [Lit "   EFFORT: "; Lit (effort_estimate opp)];
   [Lit "   MONETIZATION: "; Lit (monetization opp)];
   [Lit "   MOAT: "; Lit (moat opp)]]
  ++ (if truthy (competition_notes opp)
      then [[Lit "   COMPETITION: "; Val (competition_notes opp)]] else [])
  ++ (match evidence opp with
      | [] => []
      | evs =>
          [Lit "   EVIDENCE ("; Val (PInt (Z.of_nat (length evs))); Lit " sources):"]
          :: flat_map (fun ev =>
               [[Lit "     - ["; Lit (ev_source ev); Lit "] "; Lit (item_title ev)];
                [Lit "       "; Lit (ev_url ev)]]) evs
      end)
  ++ [[]].

Fixpoint opportunities_lines (i : nat) (opps : list Opportunity) : list ftext :=
  match opps with
  | [] => []
  | opp :: rest => opportunity_lines i opp ++ opportunities_lines (S i) rest
  end.

Definition _opportunities_to_text (opps : list Opportunity) : ftext :=
  join nl (opportunities_lines 1 opps).

(** *** The synthesizer *)

(** The object's two fields, and the requests sent to the provider so far. *)
Record Synthesizer := mkSynthesizer {
  _llm : LLMProvider;
  _storage : Storage;
  requests : list request
}.

(** [self._llm.complete(...)] *)
Definition complete (self : Synthesizer) (req : request)
    : result LLMResponse * Synthesizer :=
  (_llm self (requests self) req,
   mkSynthesizer (_llm self) (_storage self) (requests self ++ [req])).

Definition with_storage (self : Synthesizer) (st : Storage) : Synthesizer :=
  mkSynthesizer (_llm self) st (requests self).

(** The request of the first attempt. *)
Definition first_request (items : list Item) : request :=
  mkRequest STRUCTURED_OPPORTUNITY_SYSTEM
    (STRUCTURED_OPPORTUNITY_USER (_format_items_for_prompt items 50))
    (2 # 10) 3000.

(** The request of the retry, after [first_error] on [raw_text]. *)
Definition repair_request (first_error : exn) (raw_text : string) : request :=
  mkRequest STRUCTURED_OPPORTUNITY_SYSTEM
    (STRUCTURED_OPPORTUNITY_REPAIR (exn_str first_error) (take 500 raw_text))
    (1 # 10) 3000.

(** [structured_opportunity_report] once [opportunities] is bound: the
    digest and the run are saved at the clock readings [t_digest] and
    [t_run]. *)
Definition store_opportunities (self : Synthesizer) (t_digest t_run : datetime)
    (items : list Item) (opportunities : list Opportunity)
    : result (option (list Opportunity)) * Synthesizer :=
  match opportunities with
  | [] => (Ok (Some []), self)
  | _ =>
      let text_summary := _opportunities_to_text opportunities in
      let st :=
        save_digest (_storage self) t_digest "opportunities" text_summary
          (Z.of_nat (length items)) in
      let digest_id := latest_digest_id st in
      match save_opportunity_run st t_run opportunities (Z.of_nat (length items)) digest_id with
      | (Ok run_id, st') =>
          (Ok (Some (map (fun opp => set_run_id opp run_id) opportunities)),
           with_storage self st')
      | (Raise e, st') => (Raise e, with_storage self st')
      | (Unmodelled, st') => (Unmodelled, with_storage self st')
      end
  end.

(** [except (ValueError, json.JSONDecodeError, LLMError)] *)
Definition caught_by_retry (e : exn) : bool := is_ValueError e || is_LLMError e.

(** The result is [Ok None] for [return None], and comes with the
    synthesizer after the call.  [t_items] is the clock reading of the item
    query. *)
Definition structured_opportunity_report (json_loads : string -> result pyval)
    (self : Synthesizer) (t_items t_digest t_run : datetime)
    : result (option (list Opportunity)) * Synthesizer :=
  let items := get_items_last_n_days (_storage self) t_items 14 35 in
  match items with
  | [] => (Ok (Some []), self)
  | _ =>
      (* First attempt *)
      match complete self (first_request items) with
      | (Raise e, self) =>
          if is_LLMError e then (Ok None, self) else (Raise e, self)
      | (Unmodelled, self) => (Unmodelled, self)
      | (Ok response, self) =>
          let raw_text := text response in
          (* Parse attempt 1 *)
          match parse_opportunities_json json_loads raw_text with
          | Ok opportunities => store_opportunities self t_digest t_run items opportunities
          | Unmodelled => (Unmodelled, self)
          | Raise first_error =>
              if is_ValueError first_error then
                (* Retry with repair prompt *)
                match complete self (repair_request first_error raw_text) with
                | (Ok repair_response, self) =>
                    match parse_opportunities_json json_loads (text repair_response) with
                    | Ok opportunities =>
                        store_opportunities self t_digest t_run items opportunities
                    | Raise second_error =>
                        if caught_by_retry second_error then (Ok None, self)
                        else (Raise second_error, self)
                    | Unmodelled => (Unmodelled, self)
                    end
                | (Raise second_error, self) =>
                    if caught_by_retry second_error then (Ok None, self)
                    else (Raise second_error, self)
                | (Unmodelled, self) => (Unmodelled, self)
                end
              else (Raise first_error, self)
          end
      end
  end.

End Engine.

(** ** Inputs used in the examples *)

Module Scenarios.
Import Py Models Scorer.

(** A discussion whose title is the phrase of scenario A, with 80 upvotes
    and no answer. *)
Definition soc2_discussion : Item :=
  mkItem GITHUB_DISCUSSION "D_1" "https://github.com/orgs/community/discussions/1"
    "SOC 2 compliance audit automation" EmptyString
    (<["upvotes" := PInt 80]> (<["has_answer" := PBool false]> ∅)) 0 0.

(** The same discussion, announcing a product. *)
Definition soc2_announcement : Item :=
  mkItem GITHUB_DISCUSSION "D_2" "https://github.com/orgs/community/discussions/2"
    "SOC 2 compliance audit automation"
    "Excited to announce our game-changer. Check out my tool!"
    (<["upvotes" := PInt 80]> (<["has_answer" := PBool false]> ∅)) 0 0.

Definition plain_issue : Item :=
  mkItem GITHUB_ISSUE "42" "https://github.com/o/r/issues/42"
    "Typo in the readme" "A word is misspelled."
    (<["reactions" := PInt 1]> (<["comments" := PInt 2]> ∅)) 0 0.

Definition release_note : Item :=
  mkItem GITHUB_RELEASE "v2.0.0" "https://github.com/o/r/releases/v2.0.0"
    "v2.0.0" "Breaking change: the old API is removed."
    (<["prerelease" := PBool false]> ∅) 0 0.

Definition hn_story : Item :=
  mkItem HACKER_NEWS "1001" "https://news.ycombinator.com/item?id=1001"
    "Show HN: my weekend project" EmptyString
    (<["score" := PInt 12]> (<["comments" := PInt 3]> ∅)) 0 0.

Definition feed_entry : Item :=
  mkItem RSS "e1" "https://example.com/e1" "Weekly notes" "Nothing new." ∅ 0 0.

(** An issue that matches many signal patterns and has much engagement. *)
Definition loud_issue : Item :=
  mkItem GITHUB_ISSUE "7" "https://github.com/o/r/issues/7"
    "Breaking change: regression after the rewrite, rollback needed"
    "Post-mortem of the outage: flaky test, memory leak, and a manual deploy with no way to audit. We need a better tool for secrets management."
    (<["reactions" := PInt 500]> (<["comments" := PInt 90]>
       (<["labels" := PList [PStr "Bug"; PStr "enhancement"]]> ∅))) 0 0.

(** A prerelease note that is all hype. *)
Definition hype_release : Item :=
  mkItem GITHUB_RELEASE "v0.1.0-rc1" "https://github.com/o/r/releases/v0.1.0-rc1"
    "Excited to announce a game-changer" "Revolutionary synergy!"
    (<["prerelease" := PBool true]> ∅) 0 0.

(** The batch of five items of scenario A. *)
Definition scenario_A_batch : list Item :=
  [plain_issue; release_note; soc2_discussion; hn_story; feed_entry].

(** A vulnerability record whose CVSS score came as text. *)
Definition cvss_as_text : Item :=
  mkItem NVD_CVE "CVE-2024-0001" "https://nvd.nist.gov/vuln/detail/CVE-2024-0001"
    "CVE-2024-0001" "A flaw." (<["cvss_score" := PStr "9.8"]> ∅) 0 0.

(** Two versions of one opportunity, as two runs would propose it. *)
Definition drift_detector : Opportunity :=
  mkOpportunity "terraform-drift-detector" "Terraform Drift Detector"
    "Infrastructure drift is a pain." "DevOps lead"
    "CLI + dashboard for drift monitoring." "boring/growing" "1-2 weeks"
    "Per-repo $100/mo." "Deep Terraform integration." 82
    [mkEvidenceRef "github_issue" "Drift detection broken"
       "https://github.com/hashicorp/terraform/issues/123" 70]
    (PStr "Spacelift exists but is expensive.") None.

Definition drift_detector_v2 : Opportunity :=
  mkOpportunity "terraform-drift-detector" "Terraform Drift Detector v2"
    "Still a pain." "DevOps lead" "Updated solution." "boring/growing" "1-2 weeks"
    "$200/mo" "Deeper integration." 90
    [mkEvidenceRef "github_issue" "New drift issue"
       "https://github.com/hashicorp/terraform/issues/456" 75]
    (PStr EmptyString) None.

(** An evidence object of a response, with or without a [score]. *)
Definition evidence_entry (score : option pyval) : pyval :=
  let entry : gmap string pyval :=
    <["source" := PStr "github_issue"]>
      (<["item_title" := PStr "Terraform drift detection is broken"]>
         (<["url" := PStr "https://github.com/hashicorp/terraform/issues/12345"]> ∅)) in
  PDict match score with
        | Some v => <["score" := v]> entry
        | None => entry
        end.

(** An opportunity object of a response that has every required field. *)
Definition opportunity_dict (oid : string) (evidence : pyval) : gmap string pyval :=
  <["id" := PStr oid]>
    (<["title" := PStr "Terraform Drift Detector"]>
       (<["pain" := PStr "Teams lose track of infrastructure drift."]>
          (<["target_buyer" := PStr "DevOps lead"]>
             (<["solution_shape" := PStr "CLI + SaaS dashboard."]>
                (<["market_type" := PStr "boring/growing"]>
                   (<["effort_estimate" := PStr "1-2 weeks"]>
                      (<["monetization" := PStr "Per-repo, $50-200/month per team."]>
                         (<["moat" := PStr "Deep integration with Terraform state files."]>
                            (<["confidence" := PInt 75]>
                               (<["evidence" := evidence]> ∅)))))))))).

Definition good_dict : gmap string pyval :=
  opportunity_dict "good-one" (PList [evidence_entry (Some (PInt 65))]).

(** The same object, its evidence score being the text [high]. *)
Definition bad_score_dict : gmap string pyval :=
  opportunity_dict "bad-score" (PList [evidence_entry (Some (PStr "high"))]).

(** An object with an id and nothing else. *)
Definition incomplete_dict : gmap string pyval := <["id" := PStr "bad-one"]> ∅.

(** The opportunity [good_dict] converts to. *)
Definition good_opportunity : Opportunity :=
  mkOpportunity "good-one" "Terraform Drift Detector"
    "Teams lose track of infrastructure drift." "DevOps lead"
    "CLI + SaaS dashboard." "boring/growing" "1-2 weeks"
    "Per-repo, $50-200/month per team." "Deep integration with Terraform state files."
    75
    [mkEvidenceRef "github_issue" "Terraform drift detection is broken"
       "https://github.com/hashicorp/terraform/issues/12345" 65]
    (PStr EmptyString) None.

End Scenarios.

(** ** Notions used in the statements *)

Module Notions.
Import Py Regex Models Scorer Db Engine Scenarios.

(** *** Scoring *)

Definition parses (entry : string * Z) : bool :=
  match parse entry.1 with Some _ => true | None => false end.

Definition int_like (v : option pyval) : Prop :=
  match v with
  | None | Some (PInt _) | Some (PBool _) => True
  | _ => False
  end.

Definition number_like (v : option pyval) : Prop :=
  match v with
  | None | Some (PInt _) | Some (PBool _) | Some (PFloat _) => True
  | _ => False
  end.

Definition str_like (v : option pyval) : Prop :=
  match v with
  | None | Some (PStr _) => True
  | _ => False
  end.

Definition is_str (v : pyval) : Prop :=
  match v with PStr _ => True | _ => False end.

Definition labels_like (v : option pyval) : Prop :=
  match v with
  | None => True
  | Some (PList l) => Forall is_str l
  | _ => False
  end.

(** The metadata an item carries holds, under the keys its source's branch of
    [_engagement_score] reads, values of the types the collectors write. *)
Definition well_typed_metadata (item : Item) : Prop :=
  let m := metadata item in
  match source item with
  | GITHUB_ISSUE =>
      int_like (m !! "reactions") /\ int_like (m !! "comments")
      /\ labels_like (m !! "labels")
  | GITHUB_DISCUSSION =>
      int_like (m !! "upvotes") /\ int_like (m !! "comments")
      /\ str_like (m !! "category") /\ labels_like (m !! "labels")
  | HACKER_NEWS => int_like (m !! "score") /\ int_like (m !! "comments")
  | NVD_CVE => number_like (m !! "cvss_score")
  | GITHUB_RELEASE | RSS => True
  end.

(** The keys [_engagement_score] reads. *)
Definition engagement_keys : list string :=
  ["reactions"; "comments"; "labels"; "prerelease"; "upvotes"; "has_answer";
   "category"; "score"; "search_keyword"; "cvss_score"].

(** The comment count, when it is an integer, is not negative. *)
Definition comments_nonnegative (item : Item) : Prop :=
  match metadata item !! "comments" with
  | Some (PInt c) => 0 <= c
  | _ => True
  end.

(** *** Array extraction *)

(** Three backticks in a row somewhere in the text. *)
Fixpoint has_fence (s : string) : bool :=
  match s with
  | EmptyString => false
  | String _ rest => startswith "```" s || has_fence rest
  end.

(** The text wrapped in a code fence, as a completion often is. *)
Definition fence_wrap (a : string) : string :=
  "```json" +:+ nl +:+ a +:+ nl +:+ "```".

(** A character of the text. *)
Fixpoint occurs (c : ascii) (s : string) : bool :=
  match s with
  | EmptyString => false
  | String x rest => Ascii.eqb x c || occurs c rest
  end.

(** A bracket character. *)
Definition is_bracket (c : ascii) : bool := Ascii.eqb c "[" || Ascii.eqb c "]".

(** The brackets of a text, in order. *)
Fixpoint brackets (s : string) : string :=
  match s with
  | EmptyString => EmptyString
  | String c rest => if is_bracket c then String c (brackets rest) else brackets rest
  end.

(** The text from its first opening bracket on. *)
Fixpoint from_open (s : string) : string :=
  match s with
  | EmptyString => EmptyString
  | String c rest => if Ascii.eqb c "[" then s else from_open rest
  end.

Definition no_array : exn := ValueError [Lit "No JSON array found in response"].

Definition unbalanced : exn := ValueError [Lit "Unbalanced brackets in JSON array"].

(** The array of one string that holds a closing bracket. *)
Definition bracket_in_string : string :=
  String "[" (String "034" (String "]" (String "034" (String "]" EmptyString)))).

(** *** The opportunity tables *)

(** The primary key of a row of [opportunities]. *)
Definition key (r : opportunity_row) : string * Z := (o_id r, o_run_id r).

(** The rows of a table that carry a given key. *)
Definition rows_with (oid : string) (rid : Z) (table : list opportunity_row)
    : list opportunity_row :=
  List.filter (same_key oid rid) table.

Definition evidence_with (oid : string) (rid : Z) (table : list evidence_row)
    : list evidence_row :=
  List.filter (fun e => String.eqb (e_opportunity_id e) oid && (e_run_id e =? rid)) table.

(** The point a row contributes to the trend of its id. *)
Definition point_of (r : opportunity_row) : data_point :=
  mkDataPoint (o_run_id r) (o_confidence r) (o_generated_at r).

(** The rows of a list that carry a given id, in the order of the list. *)
Definition with_id (oid : string) (rows : list opportunity_row) : list opportunity_row :=
  List.filter (fun r => String.eqb (o_id r) oid) rows.

(** The stored records of an opportunity id. *)
Definition records_of (self : Storage) (oid : string) : list opportunity_row :=
  with_id oid (opportunities self).

(** What one row does to the entry of its id. *)
Definition absorb (row : opportunity_row) (t : trend) : trend :=
  mkTrend (trend_id t) (o_title row) (data_points t ++ [point_of row]).

(** The dict [T] holds what the loop has made of the rows [done]: one entry
    for each id met, with the points of the rows of that id in the order they
    came, and the title of the last of them. *)
Definition tracks (T : trends_dict) (done : list opportunity_row) : Prop :=
  List.NoDup (map fst T)
  /\ (forall oid, In oid (map o_id done) -> In oid (map fst T))
  /\ (forall k t, In (k, t) T ->
        trend_id t = k
        /\ data_points t = map point_of (with_id k done)
        /\ exists before r, with_id k done = before ++ [r] /\ trend_title t = o_title r).

(** An integer that fits in 64 bits. *)
Definition fits (z : Z) : Prop := - 2 ^ 63 <= z < 2 ^ 63.

(** An opportunity the store can write: its confidence and its evidence
    scores fit, and its [competition_notes] can be bound. *)
Definition storable (o : Opportunity) : Prop :=
  (exists v, bind_opportunity (confidence o) (competition_notes o) = Ok v)
  /\ Forall (fun ev => fits (ev_score ev)) (evidence o).

(** The row written for an opportunity. *)
Definition row_of (now : datetime) (rid : Z) (opp : Opportunity) (notes : pyval)
    : opportunity_row :=
  mkOpportunityRow (id opp) rid (opp_title opp) (pain opp) (target_buyer opp)
    (solution_shape opp) (market_type opp) (effort_estimate opp)
    (monetization opp) (moat opp) (confidence opp) notes now.

(** The evidence table and the last id after the evidence [evs] is
    written. *)
Fixpoint written_evidence (oid : string) (rid : Z) (evs : list EvidenceRef)
    (table : list evidence_row) (last : Z) : list evidence_row * Z :=
  match evs with
  | [] => (table, last)
  | ev :: rest =>
      written_evidence oid rid rest
        (table ++ [mkEvidenceRow (last + 1) oid rid (ev_source ev) (item_title ev)
                     (ev_url ev) (ev_score ev)])
        (last + 1)
  end.

(** The store after a run of one opportunity was saved. *)
Definition after_single_run (self : Storage) (now : datetime) (opp : Opportunity)
    (n : Z) (notes : pyval) : Storage :=
  let rid := last_run_id self + 1 in
  let written :=
    written_evidence (id opp) rid (evidence opp)
      (opportunity_evidence self) (last_evidence_id self) in
  mkStorage (items self) (digests self)
    (opportunity_runs self ++ [mkRunRow rid None n 1 now])
    (insert_or_replace (row_of now rid opp notes) (opportunities self))
    written.1 (last_digest_id self) rid written.2.

(** The rows the query of [get_opportunity_trends] returns. *)
Definition trend_rows (self : Storage) : list opportunity_row :=
  sort_by trend_order (opportunities self).

(** *** The parser and the repair loop *)

(** The error [int] raises on the text [high]. *)
Definition invalid_literal_high : exn :=
  ValueError [Lit "invalid literal for int() with base 10: "; Repr (PStr "high")].

Inductive verdict :=
| Accepted (opp : Opportunity)
| Rejected (line : ftext).

(** What the loop does with the element of index [i], when neither
    validation nor conversion raises. *)
Definition judge (i : nat) (item : pyval) : result verdict :=
  match item with
  | PDict d =>
      bind (_validate_opportunity_dict d) (fun errors =>
      match errors with
      | [] => bind (to_opportunity d) (fun opp => Ok (Accepted opp))
      | _ => Ok (Rejected (item_errors_line i d errors))
      end)
  | _ => Ok (Rejected (not_object_line i item))
  end.

Fixpoint judge_all (i : nat) (data : list pyval) : result (list verdict) :=
  match data with
  | [] => Ok []
  | item :: rest =>
      bind (judge i item) (fun v =>
      bind (judge_all (S i) rest) (fun vs => Ok (v :: vs)))
  end.

Definition accepted (vs : list verdict) : list Opportunity :=
  flat_map (fun v => match v with Accepted opp => [opp] | Rejected _ => [] end) vs.

Definition rejected (vs : list verdict) : list ftext :=
  flat_map (fun v => match v with Accepted _ => [] | Rejected line => [line] end) vs.

(** The evidence scores of a list of evidence objects convert. *)
Definition scores_convert (evs : list pyval) : Prop :=
  Forall (fun ev =>
    match ev with
    | PDict e => exists z, py_int (default (PInt 0) (e !! "score")) = Ok z
    | _ => True
    end) evs.

(** A provider that fails on every request. *)
Definition failing_provider : LLMProvider :=
  fun _ _ => Raise (LLMError [Lit "Claude API error: "; Lit "timeout"]).

(** A provider that answers every request with prose. *)
Definition prose_provider : LLMProvider :=
  fun _ _ => Ok (mkLLMResponse "I could not find any opportunity." 1200 9 "m").

(** A loader for the examples in which no text gets as far as [json.loads]. *)
Definition rejecting_loader : string -> result pyval :=
  fun _ => Raise (JSONDecodeError [Lit "Expecting value: line 1 column 1 (char 0)"]).

(** A store that holds the discussion of scenario A, scored. *)
Definition store_with_item : Storage :=
  mkStorage [set_score soc2_discussion 65] [] [] [] [] 0 0 0.

(** The synthesizer after its requests [sent]. *)
Definition after_requests (self : Synthesizer) (sent : list request) : Synthesizer :=
  mkSynthesizer (_llm self) (_storage self) (requests self ++ sent).

End Notions.

(** ** The key of an item ([models.py]) *)

Module Sha256.
Import Py.

(** [hashlib.sha256(data).hexdigest()] of the standard library, as FIPS
    180-4 defines it, on 32-bit words kept as integers. *)

Definition mask : Z := 4294967295.

Definition add (a b : Z) : Z := Z.land (a + b) mask.

Definition rotr (n x : Z) : Z :=
  Z.lor (Z.shiftr x n) (Z.land (Z.shiftl x (32 - n)) mask).

Definition xor3 (a b c : Z) : Z := Z.lxor (Z.lxor a b) c.

Definition ch (x y z : Z) : Z := Z.lxor (Z.land x y) (Z.land (Z.lxor x mask) z).

Definition maj (x y z : Z) : Z := xor3 (Z.land x y) (Z.land x z) (Z.land y z).

Definition bsig0 (x : Z) : Z := xor3 (rotr 2 x) (rotr 13 x) (rotr 22 x).
Definition bsig1 (x : Z) : Z := xor3 (rotr 6 x) (rotr 11 x) (rotr 25 x).
Definition ssig0 (x : Z) : Z := xor3 (rotr 7 x) (rotr 18 x) (Z.shiftr x 3).
Definition ssig1 (x : Z) : Z := xor3 (rotr 17 x) (rotr 19 x) (Z.shiftr x 10).

(** The first 64 primes. *)
Definition is_prime (n : Z) : bool :=
  forallb (fun d => negb (n mod d =? 0)) (List.filter (fun d => d * d <=? n) (seqZ 2 16)).

Definition primes : list Z := List.filter is_prime (seqZ 2 310).

(** The integer cube root of a number below [2 ^ 108], bit by bit. *)
Definition cbrt (n : Z) : Z :=
  fold_left (fun r i => let r' := r + 2 ^ i in if r' ^ 3 <=? n then r' else r)
    (rev (seqZ 0 36)) 0.

(** The round constants: the first 32 bits of the fractional parts of the
    cube roots of the first 64 primes. *)
Definition K : list Z :=
  Eval vm_compute in map (fun p => cbrt (p * 2 ^ 96) mod 2 ^ 32) primes.

(** The initial hash value: the first 32 bits of the fractional parts of
    the square roots of the first 8 primes. *)
Definition H0 : list Z :=
  Eval vm_compute in map (fun p => Z.sqrt (p * 2 ^ 64) mod 2 ^ 32) (firstn 8 primes).

(** The message followed by the bit 1, zeros, and its length in bits on
    eight bytes, to a multiple of 64 bytes. *)
Definition pad (msg : list Z) : list Z :=
  let len := Z.of_nat (length msg) in
  let zeros := Z.to_nat ((55 - len) mod 64) in
  let bits := 8 * len in
  msg ++ [128] ++ repeat 0 zeros
      ++ map (fun i => Z.land (Z.shiftr bits (8 * i)) 255) [7; 6; 5; 4; 3; 2; 1; 0].

(** Big-endian words of four bytes. *)
Fixpoint words (bytes : list Z) : list Z :=
  match bytes with
  | a :: b :: c :: d :: rest => (((a * 256 + b) * 256 + c) * 256 + d) :: words rest
  | _ => []
  end.

(** The message schedule, last word first. *)
Fixpoint extend (n : nat) (w_rev : list Z) : list Z :=
  match n with
  | O => w_rev
  | S n' =>
      let w :=
        add (add (ssig1 (nth 1 w_rev 0)) (nth 6 w_rev 0))
            (add (ssig0 (nth 14 w_rev 0)) (nth 15 w_rev 0)) in
      extend n' (w :: w_rev)
  end.

Definition schedule (block : list Z) : list Z := rev (extend 48 (rev block)).

(** One round on the working variables [a] to [h]. *)
Definition round (s : list Z) (kw : Z * Z) : list Z :=
  match s with
  | [a; b; c; d; e; f; g; h] =>
      let t1 := add (add (add (add h (bsig1 e)) (ch e f g)) kw.1) kw.2 in
      let t2 := add (bsig0 a) (maj a b c) in
      [add t1 t2; a; b; c; add d t1; e; f; g]
  | _ => s
  end.

Fixpoint zip_add (a b : list Z) : list Z :=
  match a, b with
  | x :: a', y :: b' => add x y :: zip_add a' b'
  | _, _ => []
  end.

Definition compress (h : list Z) (block : list Z) : list Z :=
  zip_add h (fold_left round (combine K (schedule block)) h).

(** The blocks of sixteen words. *)
Fixpoint blocks (fuel : nat) (ws : list Z) : list (list Z) :=
  match fuel, ws with
  | S fuel', _ :: _ => firstn 16 ws :: blocks fuel' (skipn 16 ws)
  | _, _ => []
  end.

Definition digest (msg : list Z) : list Z :=
  let ws := words (pad msg) in
  fold_left compress (blocks (length ws) ws) H0.

Definition hex_digit (n : Z) : ascii :=
  ascii_of_N (Z.to_N (if n <? 10 then 48 + n else 87 + n)).

Definition hex_word (w : Z) : string :=
  string_of_list_ascii
    (map (fun i => hex_digit (Z.land (Z.shiftr w (4 * i)) 15)) [7; 6; 5; 4; 3; 2; 1; 0]).

(** [s.encode()]: UTF-8, for code points below 256. *)
Fixpoint encode (s : string) : list Z :=
  match s with
  | EmptyString => []
  | String c rest =>
      let n := Z.of_N (code c) in
      if n <? 128 then n :: encode rest
      else (192 + Z.shiftr n 6) :: (128 + Z.land n 63) :: encode rest
  end.

Definition hexdigest (msg : list Z) : string :=
  fold_right (fun w acc => hex_word w +:+ acc) EmptyString (digest msg).

End Sha256.

Module Hashing.
Import Py Models.

(** [Item.content_hash] *)
Definition content_hash (item : Item) : string :=
  let raw := Source_value (source item) +:+ ":" +:+ source_id item in
  take 16 (Sha256.hexdigest (Sha256.encode raw)).

End Hashing.

(** ** The items of the store ([storage/db.py]) *)

Module ItemStore.
Import Py Models Scorer Db Hashing.

(** The table [items] of the store ([storage/db.py]).  A row is kept as the
    [Item] that [_row_to_item] reads back from it; its primary key is the
    item's [content_hash]. *)

Definition with_items (self : Storage) (rows : list Item) : Storage :=
  mkStorage rows (digests self) (opportunity_runs self) (opportunities self)
    (opportunity_evidence self) (last_digest_id self) (last_run_id self)
    (last_evidence_id self).

(** [json.dumps(v)] returns for every value of the model, except that newer
    interpreters refuse to write an integer of more than 4300 digits. *)
Fixpoint dumpable (v : pyval) : bool :=
  match v with
  | PInt z => Z.abs z <? 10 ^ Z.of_nat int_max_str_digits
  | PList l => forallb dumpable l
  | PDict d => map_fold (fun _ x acc => dumpable x && acc) true d
  | PNone | PBool _ | PFloat _ | PStr _ => true
  end.

(** [except sqlite3.Error] *)
Definition is_sqlite_error (e : exn) : bool :=
  match e with
  | IntegrityError | ProgrammingError => true
  | _ => false
  end.

Definition has_item (self : Storage) (content_hash : string) : bool :=
  existsb (fun row => String.eqb (Hashing.content_hash row) content_hash) (items self).

(** [INSERT OR IGNORE]: a row whose key is taken is not written, and
    [changes()] is then 0.  Of the parameters only the score can be refused,
    when it does not fit in 64 bits. *)
Definition insert_item (self : Storage) (item : Item) : result bool * Storage :=
  if negb (dumpable (PDict (metadata item))) then (Unmodelled, self)
  else
    match sqlite_int (score item) with
    | Ok _ =>
        if has_item self (content_hash item) then (Ok false, self)
        else (Ok true, with_items self (items self ++ [item]))
    | Raise e => if is_sqlite_error e then (Ok false, self) else (Raise e, self)
    | Unmodelled => (Unmodelled, self)
    end.

(** The loop of [insert_items], with its counter. *)
Fixpoint insert_loop (self : Storage) (items : list Item) (new_count : Z)
    : result Z * Storage :=
  match items with
  | [] => (Ok new_count, self)
  | item :: rest =>
      match insert_item self item with
      | (Ok true, self') => insert_loop self' rest (new_count + 1)
      | (Ok false, self') => insert_loop self' rest new_count
      | (Raise e, self') => (Raise e, self')
      | (Unmodelled, self') => (Unmodelled, self')
      end
  end.

Definition insert_items (self : Storage) (items : list Item) : result Z * Storage :=
  insert_loop self items 0.

Definition Source_eqb (a b : Source) : bool :=
  String.eqb (Source_value a) (Source_value b).

(** [get_items_since] with its optional [source].  With a source, SQLite
    answers from the index on [source], and the rows that agree on both
    keys of the order come first inserted first; without one, last inserted
    first. *)
Definition get_items_since (self : Storage) (since : datetime) (min_score : Z)
    (source : option Source) : list Item :=
  let wanted row :=
    (since <=? collected_at row) && (min_score <=? score row)
    && match source with
       | Some s => Source_eqb (Models.source row) s
       | None => true
       end in
  let rows := List.filter wanted (items self) in
  sort_by items_order
    match source with
    | Some _ => rows
    | None => rev rows
    end.

(** [SELECT source, COUNT( * ) FROM items GROUP BY source], read into a dict. *)
Definition count_by_source (rows : list Item) : gmap string Z :=
  fold_right (fun row counts =>
    let key := Source_value (source row) in
    <[key := default 0 (counts !! key) + 1]> counts) ∅ rows.

Record stats := mkStats {
  total_items : Z;
  by_source : gmap string Z
}.

Definition get_stats (self : Storage) : stats :=
  mkStats (Z.of_nat (length (items self))) (count_by_source (items self)).

End ItemStore.

(** ** Reading opportunities back ([storage/db.py]) *)

Module OpportunityStore.
Import Py Models Scorer Db.

(** Reading an opportunity back ([storage/db.py]).  The dicts returned are
    records of their keys. *)

Record stored_evidence := mkStoredEvidence {
  se_source : string;
  se_item_title : string;
  se_url : string;
  se_score : Z
}.

Record stored_opportunity := mkStoredOpportunity {
  so_id : string;
  so_run_id : Z;
  so_title : string;
  so_pain : string;
  so_target_buyer : string;
  so_solution_shape : string;
  so_market_type : string;
  so_effort_estimate : string;
  so_monetization : string;
  so_moat : string;
  so_confidence : Z;
  so_competition_notes : string;
  so_generated_at : datetime;
  so_digest_id : option Z;
  so_evidence : list stored_evidence
}.

(** What [row["competition_notes"]] holds: the text that was bound.  A
    number that was bound is read back as a text of it, which is not
    rendered here. *)
Definition column_text (v : pyval) : result string :=
  match v with
  | PStr s => Ok s
  | _ => Unmodelled
  end.

(** [opportunities o JOIN opportunity_runs r ON o.run_id = r.id] *)
Definition joined (self : Storage) : list (opportunity_row * run_row) :=
  flat_map (fun o =>
    map (fun r => (o, r))
      (List.filter (fun r => run_row_id r =? o_run_id o) (opportunity_runs self)))
    (opportunities self).

(** [ORDER BY o.generated_at DESC]; rows of the same time keep the order of
    the table. *)
Definition latest_first (a b : opportunity_row * run_row) : bool :=
  o_generated_at b.1 <=? o_generated_at a.1.

(** [SELECT source, item_title, url, score FROM opportunity_evidence
     WHERE opportunity_id = ? AND run_id = ?] *)
Definition evidence_of (self : Storage) (oid : string) (rid : Z) : list stored_evidence :=
  map (fun e => mkStoredEvidence (e_source e) (e_item_title e) (e_url e) (e_score e))
    (List.filter (fun e => String.eqb (e_opportunity_id e) oid && (e_run_id e =? rid))
       (opportunity_evidence self)).

Definition get_opportunity_by_id (self : Storage) (opportunity_id : string)
    : result (option stored_opportunity) :=
  let rows :=
    sort_by latest_first
      (List.filter (fun row => String.eqb (o_id row.1) opportunity_id) (joined self)) in
  match rows with
  | [] => Ok None
  | (o, r) :: _ =>
      let ev_rows := evidence_of self (o_id o) (o_run_id o) in
      bind (column_text (o_competition_notes o)) (fun notes =>
      Ok (Some (mkStoredOpportunity (o_id o) (o_run_id o) (o_title o) (o_pain o)
                  (o_target_buyer o) (o_solution_shape o) (o_market_type o)
                  (o_effort_estimate o) (o_monetization o) (o_moat o) (o_confidence o)
                  notes (o_generated_at o) (run_digest_id r) ev_rows)))
  end.

End OpportunityStore.

(** ** Digests and questions ([synthesizer/engine.py], [qa/handler.py]) *)

Module Reports.
Import Py Models Db Engine.

(** The free-text digests and the question answering of the synthesizer
    ([synthesizer/engine.py]), with the two records they return
    ([models.py]). *)

Record Digest := mkDigest {
  digest_type : string;
  content : string;
  item_count : Z;
  generated_at : datetime
}.

Record QAResult := mkQAResult {
  question : string;
  answer : string;
  sources_used : Z;
  qa_generated_at : datetime
}.

(** [DAILY_USER.format(items=items)] *)
Definition DAILY_USER (items : ftext) : ftext :=
  [Lit ("Here are today's collected signals, pre-filtered for enterprise relevance (score 0-100):"
        +:+ nl +:+ nl)]
  ++ items
  ++ [Lit (nl +:+ nl
           +:+ "Write the daily opportunity scan. Max 5 bullets. Each must identify a specific developer"
           +:+ nl
           +:+ "or operations pain point and assess whether an enterprise tool or SaaS product could address it."
           +:+ nl +:+ "If nothing is actionable today, say so." +:+ nl)].

(** [WEEKLY_USER.format(items=items)] *)
Definition WEEKLY_USER (items : ftext) : ftext :=
  [Lit ("Here are this week's enterprise-relevant signals (already filtered and scored):"
        +:+ nl +:+ nl)]
  ++ items
  ++ [Lit (nl +:+ nl +:+ "Synthesize the week into a prioritized opportunity analysis."
           +:+ nl
           +:+ "Be opinionated about what is worth building. Rank by feasibility and market consistency."
           +:+ nl +:+ "Prefer boring, growing markets over hyped, crowded ones."
           +:+ nl +:+ "If the week was quiet, say so briefly." +:+ nl)].

(** [OPPORTUNITY_USER.format(items=items)] *)
Definition OPPORTUNITY_USER (items : ftext) : ftext :=
  [Lit ("Here are the last 14 days of enterprise-relevant signals (scored and filtered):"
        +:+ nl +:+ nl)]
  ++ items
  ++ [Lit (nl +:+ nl +:+ "Produce the opportunity report. Rank validated opportunities by:"
           +:+ nl +:+ "pain severity * audience size * market consistency * feasibility."
           +:+ nl +:+ nl +:+ "Be opinionated. This report drives build-or-skip decisions."
           +:+ nl +:+ "Prefer boring, growing markets over hyped, crowded ones." +:+ nl)].

(** [QA_USER.format(items=items, question=question, days=days)] *)
Definition QA_USER (items : ftext) (question : string) (days : Z) : ftext :=
  [Lit "Recent enterprise signals (last "; Val (PInt days); Lit (" days):" +:+ nl +:+ nl)]
  ++ items
  ++ [Lit (nl +:+ nl +:+ "Question: "); Lit question;
      Lit (nl +:+ nl
           +:+ "Answer based only on the provided data. If the question is about an enterprise"
           +:+ nl +:+ "dev-tool opportunity, assess feasibility and market characteristics."
           +:+ nl)].

(** The three digests take the clock three times: for the item query
    ([t_items]), for the [Digest] they build ([t_digest]) and for the row
    they save ([t_saved]).  The result is [Ok None] for [return None]. *)
Definition daily_digest (self : Synthesizer) (t_items t_digest t_saved : datetime)
    : result (option Digest) * Synthesizer :=
  let items := get_items_last_n_days (_storage self) t_items 1 40 in
  match items with
  | [] => (Ok (Some (mkDigest "daily" "No clear opportunities today." 0 t_digest)), self)
  | _ =>
      let formatted := _format_items_for_prompt items 20 in
      let prompt := DAILY_USER formatted in
      match complete self (mkRequest DAILY_SYSTEM prompt (2 # 10) 1000) with
      | (Ok response, self) =>
          let digest :=
            mkDigest "daily" (text response) (Z.of_nat (length items)) t_digest in
          (Ok (Some digest),
           with_storage self
             (save_digest (_storage self) t_saved "daily" [Lit (content digest)]
                (item_count digest)))
      | (Raise e, self) => if is_LLMError e then (Ok None, self) else (Raise e, self)
      | (Unmodelled, self) => (Unmodelled, self)
      end
  end.

Definition weekly_synthesis (self : Synthesizer) (t_items t_digest t_saved : datetime)
    : result (option Digest) * Synthesizer :=
  let items := get_items_last_n_days (_storage self) t_items 7 30 in
  match items with
  | [] =>
      (Ok (Some (mkDigest "weekly" "Quiet week. No notable marketplace signals." 0
                   t_digest)), self)
  | _ =>
      let formatted := _format_items_for_prompt items 40 in
      let prompt := WEEKLY_USER formatted in
      match complete self (mkRequest WEEKLY_SYSTEM prompt (3 # 10) 1500) with
      | (Ok response, self) =>
          let digest :=
            mkDigest "weekly" (text response) (Z.of_nat (length items)) t_digest in
          (Ok (Some digest),
           with_storage self
             (save_digest (_storage self) t_saved "weekly" [Lit (content digest)]
                (item_count digest)))
      | (Raise e, self) => if is_LLMError e then (Ok None, self) else (Raise e, self)
      | (Unmodelled, self) => (Unmodelled, self)
      end
  end.

Definition opportunity_report (self : Synthesizer) (t_items t_digest t_saved : datetime)
    : result (option Digest) * Synthesizer :=
  let items := get_items_last_n_days (_storage self) t_items 14 35 in
  match items with
  | [] =>
      (Ok (Some (mkDigest "opportunities"
                   ("Not enough data for opportunity analysis. "
                    +:+ "Run 'collect' first and wait for data to accumulate.")
                   0 t_digest)), self)
  | _ =>
      let formatted := _format_items_for_prompt items 50 in
      let prompt := OPPORTUNITY_USER formatted in
      match complete self (mkRequest OPPORTUNITY_SYSTEM prompt (3 # 10) 2000) with
      | (Ok response, self) =>
          let digest :=
            mkDigest "opportunities" (text response) (Z.of_nat (length items)) t_digest in
          (Ok (Some digest),
           with_storage self
             (save_digest (_storage self) t_saved "opportunities" [Lit (content digest)]
                (item_count digest)))
      | (Raise e, self) => if is_LLMError e then (Ok None, self) else (Raise e, self)
      | (Unmodelled, self) => (Unmodelled, self)
      end
  end.

(** Time is counted in microseconds from 1970-01-01T00:00:00 UTC; these are
    [datetime.min] and [datetime.max]. *)
Definition datetime_min : datetime := -62135596800000000.
Definition datetime_max : datetime := 253402300799999999.

(** [datetime.now(timezone.utc) - timedelta(days=days)], which raises when
    [days] has more than nine digits or the date leaves the calendar. *)
Definition days_before (now : datetime) (days : Z) : result datetime :=
  if (-999999999 <=? days) && (days <=? 999999999) then
    let since := now - timedelta_days days in
    if (datetime_min <=? since) && (since <=? datetime_max) then Ok since
    else Raise OverflowError
  else Raise OverflowError.

(** [Storage.get_items_last_n_days] for any number of [days]; with 1, 7 or
    14 days and a clock that is in the calendar it is the query above. *)
Definition items_of_last_n_days (self : Storage) (now : datetime) (days min_score : Z)
    : result (list Item) :=
  bind (days_before now days) (fun since => Ok (get_items_since self since min_score)).

Definition ask (self : Synthesizer) (question : string) (days : Z)
    (t_items t_result : datetime) : result (option QAResult) * Synthesizer :=
  match items_of_last_n_days (_storage self) t_items days 20 with
  | Ok items =>
      let formatted := _format_items_for_prompt items 30 in
      let prompt := QA_USER formatted question days in
      match complete self (mkRequest QA_SYSTEM prompt (4 # 10) 1500) with
      | (Ok response, self) =>
          (Ok (Some (mkQAResult question (text response) (Z.of_nat (length items))
                       t_result)), self)
      | (Raise e, self) => if is_LLMError e then (Ok None, self) else (Raise e, self)
      | (Unmodelled, self) => (Unmodelled, self)
      end
  | Raise e => (Raise e, self)
  | Unmodelled => (Unmodelled, self)
  end.

(** [qa/handler.py] *)
Record QAHandler := mkQAHandler {
  _synthesizer : Synthesizer
}.

(** [QAHandler(llm, storage)] *)
Definition new_QAHandler (llm : LLMProvider) (storage : Storage) : QAHandler :=
  mkQAHandler (mkSynthesizer llm storage []).

(** [QAHandler.ask] *)
Definition handler_ask (self : QAHandler) (question : string) (days : Z)
    (t_items t_result : datetime) : result (option QAResult) * QAHandler :=
  let '(r, synthesizer) := ask (_synthesizer self) question days t_items t_result in
  (r, mkQAHandler synthesizer).

End Reports.

(** ** Collection ([main.py]) *)

Module Collect.
Import Py Models Scorer Db ItemStore.

(** [cmd_collect] of [main.py].  The database as the collection sees it: the
    tables of [Storage] and the table [collector_state], which keeps a text
    for a collector name. *)
Record Database := mkDatabase {
  tables : Storage;
  collector_state : gmap string string
}.

Definition with_tables (db : Database) (st : Storage) : Database :=
  mkDatabase st (collector_state db).

(** A collector holds the store it was built on: it is what its [collect]
    returns or raises on the database it finds, together with the database
    as its calls of the store left it. *)
Definition Collector := Database -> result (list Item) * Database.

(** The loop [for collector in collectors], with its two counters.  The
    handler [except Exception] takes every exception of the body. *)
Fixpoint collect_loop (threshold : Z) (collectors : list Collector)
    (total_raw total_stored : Z) (db : Database) : result (Z * Z) * Database :=
  match collectors with
  | [] => (Ok (total_raw, total_stored), db)
  | collector :: rest =>
      match collector db with
      | (Ok raw_items, db) =>
          let total_raw := total_raw + Z.of_nat (length raw_items) in
          match raw_items with
          | [] => collect_loop threshold rest total_raw total_stored db
          | _ =>
              match filter_items raw_items threshold with
              | Ok filtered =>
                  match insert_items (tables db) filtered with
                  | (Ok new_count, storage) =>
                      collect_loop threshold rest total_raw (total_stored + new_count)
                        (with_tables db storage)
                  | (Raise _, storage) =>
                      collect_loop threshold rest total_raw total_stored
                        (with_tables db storage)
                  | (Unmodelled, storage) => (Unmodelled, with_tables db storage)
                  end
              | Raise _ => collect_loop threshold rest total_raw total_stored db
              | Unmodelled => (Unmodelled, db)
              end
          end
      | (Raise _, db) => collect_loop threshold rest total_raw total_stored db
      | (Unmodelled, db) => (Unmodelled, db)
      end
  end.

(** Returns [total_stored]; [threshold] is [config.score_threshold]. *)
Definition cmd_collect (threshold : Z) (collectors : list Collector) (db : Database)
    : result Z * Database :=
  match collect_loop threshold collectors 0 0 db with
  | (Ok (_, total_stored), db) => (Ok total_stored, db)
  | (Raise e, db) => (Raise e, db)
  | (Unmodelled, db) => (Unmodelled, db)
  end.

End Collect.

(** ** Notions used in the further statements *)

Module ScorerNotions.
Import Py Regex Models Scorer.

(** *** Patterns written with an upper-case letter *)

(** An upper-case ASCII letter, as a code point. *)
Definition upper_code (n : N) : bool := ((65 <=? n) && (n <=? 90))%N.

(** The text holds no upper-case ASCII letter. *)
Fixpoint no_upper (s : string) : bool :=
  match s with
  | EmptyString => true
  | String c rest => negb (upper_code (code c)) && no_upper rest
  end.

(** Every match of the expression takes an upper-case ASCII letter. *)
Fixpoint needs_upper (r : re) : bool :=
  match r with
  | Chr n => upper_code n
  | Class items =>
      forallb (fun i => match i with CChar n => upper_code n | _ => false end) items
  | Cat a b => needs_upper a || needs_upper b
  | Alt a b => needs_upper a && needs_upper b
  | Repeat a lo _ => (0 <? lo)%nat && needs_upper a
  | Empty | Dot | Boundary | Dollar => false
  end.

(** An entry of a pattern table whose pattern needs an upper-case letter. *)
Definition dead (entry : string * Z) : bool :=
  match parse entry.1 with
  | Some r => needs_upper r
  | None => false
  end.

Definition live (patterns : list (string * Z)) : list (string * Z) :=
  List.filter (fun entry => negb (dead entry)) patterns.

(** [_pattern_score] over the entries that are not [dead]. *)
Definition live_pattern_score (text : string) : result Z :=
  let text_lower := lower text in
  bind (apply_patterns (live HIGH_SIGNAL_PATTERNS) text_lower 0) (fun total =>
  bind (apply_patterns (live ENTERPRISE_SIGNAL_PATTERNS) text_lower total) (fun total =>
  apply_patterns (live LOW_SIGNAL_PATTERNS) text_lower total)).

(** *** Bounds of the deltas *)

(** The sum of the positive deltas of a table, and of the negative ones. *)
Definition gain (patterns : list (string * Z)) : Z :=
  fold_right (fun entry acc => Z.max 0 entry.2 + acc) 0 patterns.

Definition loss (patterns : list (string * Z)) : Z :=
  fold_right (fun entry acc => Z.min 0 entry.2 + acc) 0 patterns.

(** The most [_engagement_score] adds for an item of a source. *)
Definition engagement_cap (s : Source) : Z :=
  match s with
  | GITHUB_ISSUE => 50
  | GITHUB_RELEASE => 0
  | GITHUB_DISCUSSION => 65
  | HACKER_NEWS => 30
  | NVD_CVE => 20
  | RSS => 0
  end.

(** The least it adds when no count is negative. *)
Definition engagement_floor (s : Source) : Z :=
  match s with
  | GITHUB_RELEASE => -5
  | _ => 0
  end.

(** The counts among the metadata that are integers are not negative. *)
Definition counts_nonnegative (item : Item) : Prop :=
  forall key z, metadata item !! key = Some (PInt z) -> 0 <= z.

(** *** What the score is computed from *)

Definition same_content (a b : Item) : Prop :=
  source a = source b /\ title a = title b /\ body a = body b
  /\ metadata a = metadata b.

(** The items of a list that carry a given score, in the order of the list. *)
Definition scoring (s : Z) (l : list Item) : list Item :=
  List.filter (fun item => score item =? s) l.

End ScorerNotions.

Module ParserNotions.
Import Py Models Engine.

(** A key that holds a text with something else than whitespace in it. *)
Definition nonblank (v : option pyval) : Prop :=
  exists s, v = Some (PStr s) /\ strip s <> EmptyString.

(** A confidence validation lets through: an [int], a [bool] or a [float]
    from 0 to 100. *)
Definition in_range (v : option pyval) : Prop :=
  match v with
  | Some (PInt z) => 0 <= z <= 100
  | Some (PBool _) => True
  | Some (PFloat (FFin q)) => (0 <= q /\ q <= inject_Z 100)%Q
  | _ => False
  end.

Definition valid_effort (v : option pyval) : Prop :=
  exists s, v = Some (PStr s) /\ In s VALID_EFFORT_ESTIMATES.

Definition valid_evidence_entry (ev : pyval) : Prop :=
  exists e, ev = PDict e /\ Forall (fun field => nonblank (e !! field)) evidence_fields.

(** The objects on which validation finds nothing to report. *)
Definition well_formed (d : gmap string pyval) : Prop :=
  Forall (fun field => nonblank (d !! field)) required_str_fields
  /\ in_range (d !! "confidence")
  /\ valid_effort (d !! "effort_estimate")
  /\ exists ev evs,
       d !! "evidence" = Some (PList (ev :: evs))
       /\ Forall valid_evidence_entry (ev :: evs).

(** The nine texts of an opportunity that validation requires. *)
Definition required_texts (o : Opportunity) : list string :=
  [id o; opp_title o; pain o; target_buyer o; solution_shape o;
   market_type o; effort_estimate o; monetization o; moat o].

(** What holds of an opportunity the parser built. *)
Definition sound (o : Opportunity) : Prop :=
  Forall (fun s => strip s <> EmptyString) (required_texts o)
  /\ 0 <= confidence o <= 100
  /\ In (effort_estimate o) VALID_EFFORT_ESTIMATES
  /\ evidence o <> []
  /\ Forall (fun ev => strip (ev_source ev) <> EmptyString
                       /\ strip (item_title ev) <> EmptyString
                       /\ strip (ev_url ev) <> EmptyString) (evidence o).

End ParserNotions.

Module StoreNotions.
Import Py Models Scorer Db Hashing ItemStore.

(** No two rows of [items] carry the same key. *)
Definition distinct_hashes (self : Storage) : Prop :=
  List.NoDup (map content_hash (items self)).

(** The tables other than [items]. *)
Definition other_tables (self : Storage) :=
  (digests self, opportunity_runs self, opportunities self, opportunity_evidence self,
   last_digest_id self, last_run_id self, last_evidence_id self).

(** The sum of the counts of a dict. *)
Definition total_of (counts : gmap string Z) : Z :=
  map_fold (fun _ n acc => n + acc) 0 counts.

(** The items of a source. *)
Definition from_source (s : Source) (rows : list Item) : list Item :=
  List.filter (fun row => Source_eqb (source row) s) rows.

(** Every character of the text is of a class. *)
Fixpoint every (p : ascii -> bool) (s : string) : bool :=
  match s with
  | EmptyString => true
  | String c rest => p c && every p rest
  end.

(** [ORDER BY score DESC, collected_at DESC], as a relation. *)
Definition before (a b : Item) : Prop :=
  score b < score a \/ (score a = score b /\ collected_at b <= collected_at a).

(** A lower-case hexadecimal digit. *)
Definition is_hex (c : ascii) : bool :=
  let n := code c in ((48 <=? n) && (n <=? 57) || (97 <=? n) && (n <=? 102))%N.

(** The text hashed for an item. *)
Definition hash_input (item : Item) : string :=
  Source_value (source item) +:+ ":" +:+ source_id item.

End StoreNotions.

Module OpportunityNotions.
Import Py Models Scorer Db OpportunityStore.

(** The ids handed out so far bound the ids in the tables. *)
Definition consistent (self : Storage) : Prop :=
  Forall (fun d => digest_id d <= last_digest_id self) (digests self)
  /\ Forall (fun r => run_row_id r <= last_run_id self) (opportunity_runs self)
  /\ Forall (fun o => o_run_id o <= last_run_id self) (opportunities self)
  /\ Forall (fun e => e_run_id e <= last_run_id self) (opportunity_evidence self).

(** What is read back of an opportunity saved at [now] in run [rid], whose
    column [competition_notes] holds the text [notes]. *)
Definition stored_as (o : Opportunity) (rid : Z) (notes : string) (now : datetime)
    (digest : option Z) : stored_opportunity :=
  mkStoredOpportunity (id o) rid (opp_title o) (pain o) (target_buyer o)
    (solution_shape o) (market_type o) (effort_estimate o) (monetization o) (moat o)
    (confidence o) notes now digest
    (map (fun ev => mkStoredEvidence (ev_source ev) (item_title ev) (ev_url ev) (ev_score ev))
       (evidence o)).

(** A row of the evidence table, without its own id. *)
Definition evidence_fact (e : evidence_row) : string * Z * stored_evidence :=
  (e_opportunity_id e, e_run_id e,
   mkStoredEvidence (e_source e) (e_item_title e) (e_url e) (e_score e)).

(** The evidence facts written for the opportunities of a run. *)
Definition facts_of (rid : Z) (opps : list Opportunity) : list (string * Z * stored_evidence) :=
  flat_map (fun o =>
    map (fun ev =>
      (id o, rid,
       mkStoredEvidence (ev_source ev) (item_title ev) (ev_url ev) (ev_score ev)))
      (evidence o)) opps.

(** The row written for an opportunity. *)
Definition written_row (now : datetime) (rid : Z) (o : Opportunity) : opportunity_row :=
  mkOpportunityRow (id o) rid (opp_title o) (pain o) (target_buyer o)
    (solution_shape o) (market_type o) (effort_estimate o) (monetization o) (moat o)
    (confidence o) (stored_notes (competition_notes o)) now.

(** The tables a run does not write. *)
Definition untouched (self self' : Storage) : Prop :=
  items self' = items self /\ digests self' = digests self
  /\ last_digest_id self' = last_digest_id self.

End OpportunityNotions.

Module EngineNotions.
Import Py Models Db Engine.

(** An item with its body cut as the prompt cuts it. *)
Definition capped_body (item : Item) : Item :=
  mkItem (source item) (source_id item) (url item) (title item) (take 500 (body item))
    (metadata item) (collected_at item) (score item).

End EngineNotions.

Module ReportNotions.
Import Py Models Db Engine Reports.

(** The three digests: the type they write, the days and the least score
    of their window, and the method. *)
Definition digest_methods
    : list (string * Z * Z
            * (Synthesizer -> datetime -> datetime -> datetime
               -> result (option Digest) * Synthesizer)) :=
  [("daily", 1, 40, daily_digest); ("weekly", 7, 30, weekly_synthesis);
   ("opportunities", 14, 35, opportunity_report)].

(** A provider that answers every request with the same text. *)
Definition steady_provider (answer : string) : LLMProvider :=
  fun _ _ => Ok (mkLLMResponse answer 1200 90 "m").

End ReportNotions.

Module CollectNotions.
Import Py Models Scorer Db ItemStore Collect Scenarios StoreNotions.

(** A collector that writes no table of [Storage]: it reaches the store
    through [has_item], [get_collector_state] and [set_collector_state]
    only, as the five collectors that [cmd_collect] builds do. *)
Definition keeps_tables (collector : Collector) : Prop :=
  forall db, tables (collector db).2 = tables db.

(** The collector with its failure turned into an empty collection. *)
Definition guarded (collector : Collector) : Collector :=
  fun db =>
    match collector db with
    | (Raise _, db') => (Ok [], db')
    | outcome => outcome
    end.

(** A collector that notes its cursor and returns the batch of scenario A,
    one that notes its cursor and fails, and one that returns a record the
    scorer cannot score. *)
Definition batch_collector : Collector :=
  fun db =>
    (Ok scenario_A_batch,
     mkDatabase (tables db) (<["github" := "{}"]> (collector_state db))).

Definition failing_collector : Collector :=
  fun db =>
    (Raise (ValueError [Lit "feed not reachable"]),
     mkDatabase (tables db) (<["rss" := "{}"]> (collector_state db))).

Definition malformed_collector : Collector := fun db => (Ok [cvss_as_text], db).

Definition empty_database : Database := mkDatabase empty_storage ∅.

(** What the loop leaves: rows added after the rows that were there, each
    scored at or above the threshold, as many as the counter grew by. *)
Definition collected (threshold : Z) (total_stored : Z) (storage : Storage)
    (r : result (Z * Z)) (storage' : Storage) : Prop :=
  exists added,
    items storage' = items storage ++ added
    /\ Forall (fun item => threshold <= score item <= 100) added
    /\ other_tables storage' = other_tables storage
    /\ (distinct_hashes storage -> distinct_hashes storage')
    /\ forall raw stored,
         r = Ok (raw, stored) -> stored = total_stored + Z.of_nat (length added).

End CollectNotions.

(** ** Further inputs used in the examples *)

Module MoreScenarios.
Import Py Models Scorer Db Engine Scenarios Notions.
Import ItemStore Reports ReportNotions OpportunityStore OpportunityNotions Collect.

(** The discussion of scenario A collected again, from another address and
    with a score left from before. *)
Definition soc2_discussion_again : Item :=
  mkItem GITHUB_DISCUSSION "D_1b" "https://github.com/community/community/discussions/1"
    "SOC 2 compliance audit automation" EmptyString
    (<["upvotes" := PInt 80]> (<["has_answer" := PBool false]> ∅)) 86400000000 12.

(** The issue of scenario A collected again, with another title and a score
    left from before. *)
Definition plain_issue_again : Item :=
  mkItem GITHUB_ISSUE "42" "https://github.com/o/r/issues/42"
    "Typo in the readme (edited)" "Two words are misspelled."
    (<["reactions" := PInt 3]> (<["comments" := PInt 2]> ∅)) 86400000000 55.

(** A synthesizer on the store that holds the discussion of scenario A,
    with a provider that always gives the same answer. *)
Definition steady_synthesizer : Synthesizer :=
  mkSynthesizer (steady_provider "- [github_discussion] SOC 2 audits are done by hand.")
    store_with_item [].

(** The store after a run of the first version of the drift detector, at
    time 100, and after a run of its second version, at time 200. *)
Definition after_first_run : Storage :=
  (save_opportunity_run empty_storage 100 [drift_detector] 5 None).2.

Definition after_second_run : Storage :=
  (save_opportunity_run after_first_run 200 [drift_detector_v2] 6 None).2.

(** An object of a response whose [competition_notes] is [null], and the
    opportunity it converts to. *)
Definition unnoted_dict : gmap string pyval :=
  <["competition_notes" := PNone]>
    (opportunity_dict "unnoted-one" (PList [evidence_entry (Some (PInt 65))])).

Definition unnoted : Opportunity :=
  mkOpportunity "unnoted-one" "Terraform Drift Detector"
    "Teams lose track of infrastructure drift." "DevOps lead"
    "CLI + SaaS dashboard." "boring/growing" "1-2 weeks"
    "Per-repo, $50-200/month per team." "Deep integration with Terraform state files."
    75
    [mkEvidenceRef "github_issue" "Terraform drift detection is broken"
       "https://github.com/hashicorp/terraform/issues/12345" 65]
    PNone None.

(** The store after a run, at time 200, of the second version of the drift
    detector and of the opportunity without notes. *)
Definition after_mixed_run : Storage :=
  (save_opportunity_run after_first_run 200 [drift_detector_v2; unnoted] 6 None).2.

(** A provider whose response stands for the array of the two objects
    [good_dict] and [unnoted_dict], and the loader that reads it so. *)
Definition array_provider : LLMProvider :=
  fun _ _ => Ok (mkLLMResponse "[{good-one}, {unnoted-one}]" 1200 300 "m").

Definition array_loader : string -> result pyval :=
  fun text =>
    if String.eqb text "[{good-one}, {unnoted-one}]"
    then Ok (PList [PDict good_dict; PDict unnoted_dict])
    else Raise (JSONDecodeError [Lit "Expecting value: line 1 column 1 (char 0)"]).

Definition array_synthesizer : Synthesizer :=
  mkSynthesizer array_provider store_with_item [].

End MoreScenarios.

(** * Properties *)

(** ** Results and sorting *)

Module Basics.
Import Py Scorer Notions.

#[global] Arguments Regex.parse : simpl never.
#[global] Arguments Regex.re_search : simpl never.
#[global] Arguments Scorer._pattern_score : simpl never.
#[global] Arguments Scorer.score_item : simpl never.

Lemma bind_Ok {A B} (r : result A) (k : A -> result B) (b : B) :
  bind r k = Ok b -> exists a, r = Ok a /\ k a = Ok b.
Proof.
  destruct r as [a|e|]; simpl; intros H; try discriminate.
  exists a; split; [reflexivity | exact H].
Qed.

Lemma Ok_inj {A} (a b : A) : Ok a = Ok b -> a = b.
Proof. congruence. Qed.

Lemma insert_by_Permutation {A} (le : A -> A -> bool) (x : A) (l : list A) :
  Permutation (insert_by le x l) (x :: l).
Proof.
  induction l as [|y l IH]; simpl.
  - reflexivity.
  - destruct (le x y).
    + reflexivity.
    + rewrite IH. apply perm_swap.
Qed.

Lemma sort_by_Permutation {A} (le : A -> A -> bool) (l : list A) :
  Permutation (sort_by le l) l.
Proof.
  induction l as [|x l IH]; simpl.
  - reflexivity.
  - rewrite insert_by_Permutation. constructor. exact IH.
Qed.

Lemma In_sort_by {A} (le : A -> A -> bool) (l : list A) (x : A) :
  In x (sort_by le l) <-> In x l.
Proof.
  split; apply Permutation_in; [| symmetry]; apply sort_by_Permutation.
Qed.

Section Sorted.
Context {A : Type} (le : A -> A -> bool).
Hypothesis le_total : forall a b, le a b = true \/ le b a = true.
Hypothesis le_trans : forall a b c, le a b = true -> le b c = true -> le a c = true.

Lemma insert_by_sorted (x : A) (l : list A) :
  StronglySorted (fun a b => le a b = true) l ->
  StronglySorted (fun a b => le a b = true) (insert_by le x l).
Proof.
  induction 1 as [|y l Hs IH Hy]; simpl.
  - repeat constructor.
  - destruct (le x y) eqn:Hxy.
    + constructor; [constructor; assumption|].
      constructor; [exact Hxy|].
      eapply Forall_impl; [exact Hy|]. intros z Hz. simpl in Hz. eauto.
    + constructor; [exact IH|].
      assert (Hyx : le y x = true) by (destruct (le_total x y); congruence).
      rewrite insert_by_Permutation. constructor; assumption.
  Qed.

Lemma sort_by_sorted (l : list A) :
  StronglySorted (fun a b => le a b = true) (sort_by le l).
Proof.
  induction l as [|x l IH]; simpl; [constructor | apply insert_by_sorted, IH].
Qed.

End Sorted.

End Basics.

(** ** The scorer *)

Module ScorerFacts.
Import Py Regex Models Scorer Basics Notions.

(** Every pattern of the three tables is read by [parse]. *)
Lemma high_signal_parse : forallb parses HIGH_SIGNAL_PATTERNS = true.
Proof. vm_compute. reflexivity. Qed.

Lemma enterprise_signal_parse : forallb parses ENTERPRISE_SIGNAL_PATTERNS = true.
Proof. vm_compute. reflexivity. Qed.

Lemma low_signal_parse : forallb parses LOW_SIGNAL_PATTERNS = true.
Proof. vm_compute. reflexivity. Qed.

Lemma apply_patterns_total patterns text total :
  forallb parses patterns = true ->
  exists z, apply_patterns patterns text total = Ok z.
Proof.
  revert total. induction patterns as [|[p d] rest IH]; simpl; intros total H.
  - eauto.
  - apply andb_prop in H as [Hp Hrest]. unfold parses in Hp. simpl in Hp.
    unfold re_search. destruct (parse p); [|discriminate]. cbn [bind].
    apply IH, Hrest.
Qed.

Lemma three_passes_total high enterprise low text :
  forallb parses high = true ->
  forallb parses enterprise = true ->
  forallb parses low = true ->
  exists p,
    bind (apply_patterns high text 0) (fun total =>
    bind (apply_patterns enterprise text total) (fun total =>
    apply_patterns low text total)) = Ok p.
Proof.
  intros Hh He Hl.
  destruct (apply_patterns_total _ text 0 Hh) as [a ->]. cbn [bind].
  destruct (apply_patterns_total _ text a He) as [b ->]. cbn [bind].
  apply apply_patterns_total, Hl.
Qed.

Lemma _pattern_score_total text : exists p, _pattern_score text = Ok p.
Proof.
  exact (three_passes_total _ _ _ (lower text)
           high_signal_parse enterprise_signal_parse low_signal_parse).
Qed.

(** What [score_item] returns, when it returns. *)
Lemma score_item_Ok item item' :
  score_item item = Ok item' ->
  exists pattern engagement,
    _pattern_score (title item +:+ String "010" (body item)) = Ok pattern
    /\ _engagement_score item = Ok engagement
    /\ item' = set_score item
         (Z.max 0 (Z.min 100 (20 + pattern + engagement + _body_quality_score item))).
Proof.
  unfold score_item. intros H.
  apply bind_Ok in H as (pattern & Hp & H).
  apply bind_Ok in H as (engagement & He & H).
  injection H as <-. exists pattern, engagement.
  split; [exact Hp | split; [exact He | reflexivity]].
Qed.

(** C5. Whenever [score_item] returns, the score it has set lies between 0
    and 100, whatever the pattern, engagement and body-quality deltas are. *)
Theorem score_item_clamped item item' :
  score_item item = Ok item' -> 0 <= score item' <= 100.
Proof.
  intros H. apply score_item_Ok in H as (p & e & _ & _ & ->). simpl. lia.
Qed.

Lemma score_all_In items scored :
  score_all items = Ok scored ->
  forall item, In item items -> exists item', score_item item = Ok item' /\ In item' scored.
Proof.
  revert scored. induction items as [|x items IH]; cbn [score_all In];
    intros scored H item Hin.
  - contradiction.
  - apply bind_Ok in H as (x' & Hx & H).
    apply bind_Ok in H as (rest' & Hrest & H). injection H as <-.
    destruct Hin as [<-|Hin].
    + exists x'. split; [exact Hx | left; reflexivity].
    + destruct (IH _ Hrest _ Hin) as (item' & Hs & Hin'). exists item'.
      split; [exact Hs | right; exact Hin'].
Qed.

Lemma filter_items_Ok items threshold kept :
  filter_items items threshold = Ok kept ->
  exists scored,
    score_all items = Ok scored
    /\ kept = sort_by score_desc (List.filter (fun item => threshold <=? score item) scored).
Proof.
  unfold filter_items. intros H. apply bind_Ok in H as (scored & Hs & H).
  injection H as <-. eauto.
Qed.

(** C6. Raising the threshold only removes items: when [filter_items]
    returns at the higher threshold, it returns at the lower one too, and
    every item of the first result is in the second. *)
Theorem filter_items_monotone items t1 t2 kept2 :
  t1 <= t2 ->
  filter_items items t2 = Ok kept2 ->
  exists kept1,
    filter_items items t1 = Ok kept1
    /\ forall item, In item kept2 -> In item kept1.
Proof.
  intros Ht H. apply filter_items_Ok in H as (scored & Hs & ->).
  exists (sort_by score_desc (List.filter (fun item => t1 <=? score item) scored)).
  split.
  - unfold filter_items. rewrite Hs. reflexivity.
  - intros item Hin. apply In_sort_by. apply In_sort_by in Hin.
    apply filter_In in Hin as [Hin Hge]. apply filter_In. split; [exact Hin|].
    apply Z.leb_le. apply Z.leb_le in Hge. lia.
Qed.

(** *** Totality on metadata of the expected types *)

Lemma capped_bucket_int_like m key n cap :
  int_like (m !! key) -> exists d, capped_bucket (get m key (PInt 0)) n cap = Ok d.
Proof.
  unfold get, int_like. destruct (m !! key) as [[]|]; simpl; intros H;
    try contradiction; eauto.
Qed.

Lemma any_lower_in_strs members l :
  Forall is_str l -> exists b, any_lower_in members l = Ok b.
Proof.
  induction 1 as [|v l Hv _ IH]; simpl; [eauto|].
  destruct v; try contradiction. destruct (str_in _ _); eauto.
Qed.

Lemma any_label_labels_like m members :
  labels_like (m !! "labels") ->
  exists b, any_label members (get m "labels" (PList [])) = Ok b.
Proof.
  unfold get, labels_like, any_label.
  destruct (m !! "labels") as [[]|]; simpl; intros H; try contradiction.
  - apply any_lower_in_strs, H.
  - eauto.
Qed.

Lemma py_ge_const_number_like m key c :
  number_like (m !! key) -> exists b, py_ge_const (get m key (PInt 0)) c = Ok b.
Proof.
  unfold get, number_like, py_ge_const.
  destruct (m !! key) as [[| | |[|[]|]| | |]|]; simpl; intros H;
    try contradiction; eauto.
Qed.

Lemma int_like_number_like v : int_like v -> number_like v.
Proof. destruct v as [[]|]; simpl; tauto. Qed.

Lemma _engagement_score_total item :
  well_typed_metadata item -> exists e, _engagement_score item = Ok e.
Proof.
  unfold well_typed_metadata, _engagement_score.
  destruct (source item).
  - intros _. eauto.
  - intros (Hr & Hc & Hl).
    destruct (capped_bucket_int_like _ _ 5 15 Hr) as [d1 ->].
    destruct (capped_bucket_int_like _ _ 3 10 Hc) as [d2 ->].
    destruct (any_label_labels_like _ high_signal_labels Hl) as [b1 ->].
    destruct (any_label_labels_like _ opportunity_labels Hl) as [b2 ->].
    cbn [bind]. eauto.
  - intros (Hu & Hc & Hcat & Hl).
    destruct (capped_bucket_int_like _ _ 3 20 Hu) as [d1 ->].
    destruct (capped_bucket_int_like _ _ 5 10 Hc) as [d2 ->].
    destruct (py_ge_const_number_like _ _ (inject_Z 10) (int_like_number_like _ Hu))
      as [b0 Hb0].
    destruct (any_label_labels_like _ opportunity_labels Hl) as [b2 ->].
    cbn [bind].
    assert (Hcat' : exists c, py_lower (get (metadata item) "category" (PStr EmptyString)) = Ok c).
    { unfold get, str_like in *. destruct (metadata item !! "category") as [[]|];
        simpl; try contradiction; eauto. }
    destruct Hcat' as [c ->].
    destruct (truthy _); [|rewrite Hb0]; cbn [bind]; eauto.
  - intros (Hs & Hc).
    destruct (capped_bucket_int_like _ _ 50 15 Hs) as [d1 ->].
    destruct (capped_bucket_int_like _ _ 30 10 Hc) as [d2 ->].
    cbn [bind]. eauto.
  - intros _. eauto.
  - intros Hn.
    destruct (py_ge_const_number_like _ _ (inject_Z 9) Hn) as [b1 ->].
    destruct (py_ge_const_number_like _ _ (inject_Z 7) Hn) as [b2 ->].
    destruct (py_ge_const_number_like _ _ (inject_Z 4) Hn) as [b3 ->].
    cbn [bind]. destruct b1, b2, b3; eauto.
Qed.

Lemma _engagement_score_unknown_key item key v :
  ~ In key engagement_keys ->
  _engagement_score (set_metadata item (<[key := v]> (metadata item)))
  = _engagement_score item.
Proof.
  intros Hk. unfold engagement_keys in Hk. cbn [In] in Hk.
  unfold _engagement_score, get. cbn [metadata source set_metadata].
  rewrite !lookup_insert_ne by (intros ->; tauto). reflexivity.
Qed.

Lemma _engagement_score_no_metadata item :
  _engagement_score (set_metadata item ∅) = Ok 0.
Proof.
  unfold _engagement_score, get. cbn [metadata source set_metadata].
  rewrite !lookup_empty. destruct (source item); reflexivity.
Qed.

(** C4, as amended.  On an item whose metadata holds values of the expected
    types under the keys it has, [score_item] returns.  A key the scorer does
    not read changes nothing, and with no metadata at all the engagement delta
    is zero. *)
Theorem score_item_total_on_typed_metadata item :
  well_typed_metadata item ->
  (exists item', score_item item = Ok item')
  /\ (forall key v, ~ In key engagement_keys ->
        _engagement_score (set_metadata item (<[key := v]> (metadata item)))
        = _engagement_score item)
  /\ _engagement_score (set_metadata item ∅) = Ok 0.
Proof.
  intros Hw. split; [|split].
  - destruct (_pattern_score_total (title item +:+ String "010" (body item))) as [p Hp].
    destruct (_engagement_score_total item Hw) as [e He].
    unfold score_item. rewrite Hp. cbn [bind]. rewrite He. cbn [bind]. eauto.
  - intros key v. apply _engagement_score_unknown_key.
  - apply _engagement_score_no_metadata.
Qed.

(** *** The unanswered discussion of scenario A *)

Lemma unanswered_discussion_engagement item e :
  source item = GITHUB_DISCUSSION ->
  metadata item !! "upvotes" = Some (PInt 80) ->
  metadata item !! "has_answer" = Some (PBool false) ->
  comments_nonnegative item ->
  _engagement_score item = Ok e ->
  35 <= e.
Proof.
  unfold _engagement_score, comments_nonnegative, get.
  intros -> -> -> Hc H.
  change (capped_bucket (default (PInt 0) (Some (PInt 80))) 3 20) with (@Ok Z 20) in H.
  cbn [bind] in H.
  apply bind_Ok in H as (d & Hd & H).
  assert (Hd0 : 0 <= d).
  { destruct (metadata item !! "comments") as [[| [|] | c | | | |]|];
      cbn [default from_option Datatypes.id capped_bucket] in Hd;
      try discriminate; injection Hd as <-; try (vm_compute; discriminate).
    assert (0 <= c / 5) by (apply Z.div_pos; lia). lia. }
  change (truthy (default (PBool true) (Some (PBool false)))) with false in H.
  change (py_ge_const (default (PInt 0) (Some (PInt 80))) (inject_Z 10))
    with (@Ok bool true) in H.
  cbn [bind] in H.
  apply bind_Ok in H as (category & _ & H).
  apply bind_Ok in H as (hit & _ & H).
  destruct (str_in category high_signal_categories), hit; injection H as <-; lia.
Qed.

(** C9, as amended.  In a batch that [filter_items] scores at the default
    threshold, a discussion with 80 upvotes and no accepted answer, whose
    comment count is not negative and whose text has a pattern delta of at
    least -4, gets a score above 40 and is among the items kept. *)
Theorem unanswered_discussion_survives items item kept p :
  In item items ->
  source item = GITHUB_DISCUSSION ->
  metadata item !! "upvotes" = Some (PInt 80) ->
  metadata item !! "has_answer" = Some (PBool false) ->
  comments_nonnegative item ->
  _pattern_score (title item +:+ String "010" (body item)) = Ok p ->
  -4 <= p ->
  filter_items items default_threshold = Ok kept ->
  exists item',
    score_item item = Ok item' /\ default_threshold < score item' /\ In item' kept.
Proof.
  intros Hin Hsrc Hup Hans Hc Hp Hp4 Hf.
  apply filter_items_Ok in Hf as (scored & Hs & ->).
  destruct (score_all_In _ _ Hs _ Hin) as (item' & Hi & Hin').
  exists item'. split; [exact Hi|].
  apply score_item_Ok in Hi as (p' & e & Hp' & He & ->).
  rewrite Hp in Hp'. injection Hp' as <-.
  pose proof (unanswered_discussion_engagement _ _ Hsrc Hup Hans Hc He) as Hge.
  assert (Hq : -10 <= _body_quality_score item).
  { unfold _body_quality_score. repeat destruct (_ <? _); lia. }
  assert (Hscore : default_threshold
                   < Z.max 0 (Z.min 100 (20 + p + e + _body_quality_score item))).
  { unfold default_threshold. lia. }
  split; [exact Hscore|].
  apply In_sort_by, filter_In. split; [exact Hin'|].
  apply Z.leb_le. cbn [score set_score]. lia.
Qed.

End ScorerFacts.

(** ** The scorer on the example inputs *)

Module ScorerExamples.
Import Py Regex Models Scorer Scenarios ScorerFacts Notions.

(** The item of scenario A scores 65: the base 20, the compliance pattern
    20, 20 for the upvotes, 15 for being unanswered, and -10 for the empty
    body.  The pattern written [SOC] is upper case and the text is lower-cased
    before matching, so it adds nothing. *)
Lemma soc2_discussion_score :
  score_item soc2_discussion = Ok (set_score soc2_discussion 65).
Proof. vm_compute. reflexivity. Qed.

Lemma soc2_pattern_only_compliance :
  Regex.re_search "\bSOC\s*2\b" (lower (title soc2_discussion)) = Ok false
  /\ _pattern_score (title soc2_discussion +:+ String "010" (body soc2_discussion))
     = Ok 20.
Proof. vm_compute. split; reflexivity. Qed.

(** The clamp works at both ends: the deltas of [loud_issue] add up to well
    over 100, those of [hype_release] to less than 0. *)
Lemma score_item_at_the_bounds :
  score_item loud_issue = Ok (set_score loud_issue 100)
  /\ score_item hype_release = Ok (set_score hype_release 0).
Proof. vm_compute. split; reflexivity. Qed.

Lemma score_item_clamped_witness :
  score_item soc2_discussion = Ok (set_score soc2_discussion 65)
  /\ 0 <= score (set_score soc2_discussion 65) <= 100.
Proof.
  assert (H : score_item soc2_discussion = Ok (set_score soc2_discussion 65))
    by (vm_compute; reflexivity).
  split; [exact H | exact (score_item_clamped _ _ H)].
Defined.

Lemma filter_items_monotone_witness :
  30 <= 40
  /\ filter_items scenario_A_batch 40
     = Ok [set_score soc2_discussion 65; set_score release_note 45]
  /\ exists kept1,
       filter_items scenario_A_batch 30 = Ok kept1
       /\ forall item,
            In item [set_score soc2_discussion 65; set_score release_note 45] ->
            In item kept1.
Proof.
  assert (Ht : 30 <= 40) by lia.
  assert (H : filter_items scenario_A_batch 40
              = Ok [set_score soc2_discussion 65; set_score release_note 45])
    by (vm_compute; reflexivity).
  split; [exact Ht|]. split; [exact H|].
  exact (filter_items_monotone scenario_A_batch 30 40 _ Ht H).
Defined.

(** C4, the claim as written fails: a CVSS score that is a text makes the
    comparison with 9.0, and so [score_item], raise [TypeError]. *)
Lemma score_item_raises_on_text_cvss :
  metadata cvss_as_text !! "cvss_score" = Some (PStr "9.8")
  /\ score_item cvss_as_text = Raise TypeError.
Proof. vm_compute. split; reflexivity. Qed.

Lemma score_item_total_on_typed_metadata_witness :
  well_typed_metadata soc2_discussion
  /\ ((exists item', score_item soc2_discussion = Ok item')
      /\ (forall key v, ~ In key engagement_keys ->
            _engagement_score
              (set_metadata soc2_discussion (<[key := v]> (metadata soc2_discussion)))
            = _engagement_score soc2_discussion)
      /\ _engagement_score (set_metadata soc2_discussion ∅) = Ok 0).
Proof.
  assert (H : well_typed_metadata soc2_discussion) by (vm_compute; tauto).
  split; [exact H | exact (score_item_total_on_typed_metadata soc2_discussion H)].
Defined.

(** C9, the claim as written fails: the announcement carries the phrase, 80
    upvotes and no answer, and three low-signal patterns bring its score to
    20, so [filter_items] drops it at the default threshold. *)
Lemma soc2_announcement_dropped :
  source soc2_announcement = GITHUB_DISCUSSION
  /\ title soc2_announcement = "SOC 2 compliance audit automation"
  /\ metadata soc2_announcement !! "upvotes" = Some (PInt 80)
  /\ metadata soc2_announcement !! "has_answer" = Some (PBool false)
  /\ score_item soc2_announcement = Ok (set_score soc2_announcement 20)
  /\ filter_items [soc2_announcement] default_threshold = Ok [].
Proof. vm_compute. repeat (split; [reflexivity|]). reflexivity. Qed.

Lemma unanswered_discussion_survives_witness :
  In soc2_discussion scenario_A_batch
  /\ _pattern_score (title soc2_discussion +:+ String "010" (body soc2_discussion))
     = Ok 20
  /\ filter_items scenario_A_batch default_threshold
     = Ok [set_score soc2_discussion 65; set_score release_note 45]
  /\ exists item',
       score_item soc2_discussion = Ok item'
       /\ default_threshold < score item'
       /\ In item' [set_score soc2_discussion 65; set_score release_note 45].
Proof.
  assert (Hin : In soc2_discussion scenario_A_batch) by (right; right; left; reflexivity).
  assert (Hp : _pattern_score (title soc2_discussion +:+ String "010" (body soc2_discussion))
               = Ok 20) by (vm_compute; reflexivity).
  assert (Hf : filter_items scenario_A_batch default_threshold
               = Ok [set_score soc2_discussion 65; set_score release_note 45])
    by (vm_compute; reflexivity).
  split; [exact Hin|]. split; [exact Hp|]. split; [exact Hf|].
  refine (unanswered_discussion_survives scenario_A_batch soc2_discussion _ 20
            Hin eq_refl _ _ _ Hp _ Hf).
  - vm_compute; reflexivity.
  - vm_compute; reflexivity.
  - vm_compute; exact I.
  - lia.
Defined.

End ScorerExamples.

(** ** Array extraction *)

Module ExtractFacts.
Import Py Engine Basics Notions.

Lemma append_nil (b : string) : EmptyString +:+ b = b.
Proof. reflexivity. Qed.

Lemma append_cons (x : ascii) (a b : string) : String x a +:+ b = String x (a +:+ b).
Proof. reflexivity. Qed.

Ltac push_append := rewrite ?append_cons, ?append_nil.

Lemma append_assoc (a b c : string) : (a +:+ b) +:+ c = a +:+ (b +:+ c).
Proof. induction a as [|x a IH]; push_append; congruence. Qed.

Lemma append_empty_r (a : string) : a +:+ EmptyString = a.
Proof. induction a as [|x a IH]; push_append; congruence. Qed.

Lemma take_append (a b : string) : take (String.length a) (a +:+ b) = a.
Proof.
  induction a as [|x a IH]; push_append; simpl; [destruct b | rewrite IH]; reflexivity.
Qed.

Lemma drop_append (a b : string) : drop (String.length a) (a +:+ b) = b.
Proof.
  induction a as [|x a IH]; push_append; simpl; [destruct b; reflexivity | exact IH].
Qed.

Lemma find_occurs_None c s : find c s = None <-> occurs c s = false.
Proof.
  induction s as [|x s IH]; simpl; [tauto|].
  destruct (Ascii.eqb x c); simpl; [split; discriminate|].
  destruct (find c s); simpl in *; [split; [discriminate | intros H; apply IH in H; discriminate] | tauto].
Qed.

Lemma find_append c p r :
  find c p = None -> find c (p +:+ String c r) = Some (String.length p).
Proof.
  induction p as [|x p IH]; push_append; simpl.
  - rewrite Ascii.eqb_refl. reflexivity.
  - destruct (Ascii.eqb x c); [discriminate|].
    destruct (find c p); [discriminate|]. intros _. rewrite IH; reflexivity.
Qed.

(** *** Prefixes *)

Lemma startswith_length f s : startswith f s = true -> (String.length f <= String.length s)%nat.
Proof.
  revert s. induction f as [|a f IH]; intros [|b s]; simpl; try lia; try discriminate.
  intros H. apply andb_prop in H as [_ H]. apply IH in H. lia.
Qed.

(** A character that is not in [f] ends every attempt to read [f]. *)
Lemma startswith_append_other f p c r :
  occurs c f = false ->
  startswith f (p +:+ String c r) = startswith f p.
Proof.
  revert p. induction f as [|a f IH]; intros p Hc; [destruct p; reflexivity|].
  simpl in Hc. apply orb_false_elim in Hc as [Hac Hf].
  destruct p as [|b p]; push_append; simpl.
  - rewrite Hac. reflexivity.
  - rewrite IH by exact Hf. reflexivity.
Qed.

Lemma startswith_json_fence s : startswith "```json" s = true -> startswith "```" s = true.
Proof.
  destruct s as [|a [|b [|c s]]]; simpl; try discriminate;
    try (intros H; apply andb_prop in H as [Ha H]; rewrite ?Ha; simpl;
         try discriminate;
         try (apply andb_prop in H as [Hb H]; rewrite ?Hb; simpl; try discriminate;
              try (apply andb_prop in H as [Hc H]; rewrite ?Hc; reflexivity))).
Qed.

(** *** Removing the fences *)

Lemma sub_fences_append_bracket p r :
  forall skip in_space,
    (skip <= String.length p)%nat ->
    sub_fences skip in_space (p +:+ String "[" r)
    = sub_fences skip in_space p +:+ String "[" (sub_fences 0 false r).
Proof.
  induction p as [|c p IH]; intros skip in_space Hskip.
  - simpl in Hskip. assert (skip = 0%nat) as -> by lia. push_append. simpl.
    rewrite andb_false_r. reflexivity.
  - push_append. destruct skip as [|n].
    + cbn [sub_fences]. rewrite <- !append_cons.
      rewrite !startswith_append_other by reflexivity.
      destruct (in_space && isspace c).
      * apply IH. lia.
      * destruct (startswith "```json" (String c p)) eqn:Hj.
        { apply IH. apply startswith_length in Hj. simpl in Hj. lia. }
        destruct (startswith "```" (String c p)) eqn:Hf.
        { apply IH. apply startswith_length in Hf. simpl in Hf. lia. }
        push_append. rewrite IH by lia. reflexivity.
    + cbn [sub_fences]. apply IH. simpl in Hskip. lia.
Qed.

Lemma sub_fences_fence_free b s :
  has_fence (b +:+ "]") = false ->
  sub_fences 0 false (b +:+ String "]" s) = b +:+ String "]" (sub_fences 0 false s).
Proof.
  induction b as [|c b IH]; intros H.
  - reflexivity.
  - rewrite append_cons in H. cbn [has_fence] in H.
    apply orb_false_elim in H as [H0 H].
    rewrite append_cons. cbn [sub_fences andb]. rewrite <- !append_cons in *.
    rewrite startswith_append_other in H0 by reflexivity.
    assert (Hj : startswith "```json" (String c b) = false).
    { destruct (startswith "```json" (String c b)) eqn:Hj; [|reflexivity].
      apply startswith_json_fence in Hj. congruence. }
    rewrite !startswith_append_other by reflexivity.
    rewrite Hj, H0. rewrite IH by exact H. reflexivity.
Qed.

Lemma sub_fences_no_occurrence c s :
  occurs c s = false ->
  forall skip in_space, occurs c (sub_fences skip in_space s) = false.
Proof.
  induction s as [|x s IH]; intros H skip in_space; [reflexivity|].
  simpl in H. apply orb_false_elim in H as [Hx H].
  cbn [sub_fences]. destruct skip; [|apply IH, H].
  destruct (in_space && isspace x); [apply IH, H|].
  destruct (startswith "```json" (String x s)); [apply IH, H|].
  destruct (startswith "```" (String x s)); [apply IH, H|].
  simpl. rewrite Hx. apply IH, H.
Qed.

(** *** Stripping *)

Lemma lstrip_no_occurrence c s : occurs c s = false -> occurs c (lstrip s) = false.
Proof.
  unfold lstrip. induction s as [|x s IH]; simpl; [reflexivity|]. intros H.
  destruct (isspace x); [|exact H]. apply orb_false_elim in H as [_ H]. apply IH, H.
Qed.

Lemma rstrip_no_occurrence c s : occurs c s = false -> occurs c (rstrip s) = false.
Proof.
  unfold rstrip. induction s as [|x s IH]; simpl; [reflexivity|]. intros H.
  apply orb_false_elim in H as [Hx H]. specialize (IH H).
  destruct (rstrip_by isspace s).
  - destruct (isspace x); simpl; [reflexivity | rewrite Hx; reflexivity].
  - simpl in *. rewrite Hx. exact IH.
Qed.

Lemma lstrip_append p c r :
  isspace c = false -> lstrip (p +:+ String c r) = lstrip p +:+ String c r.
Proof.
  intros Hc. unfold lstrip. induction p as [|x p IH]; push_append; simpl.
  - rewrite Hc. reflexivity.
  - destruct (isspace x); [exact IH | reflexivity].
Qed.

Lemma rstrip_append y c z :
  isspace c = false -> rstrip (y +:+ String c z) = y +:+ String c (rstrip z).
Proof.
  intros Hc. unfold rstrip. induction y as [|x y IH]; push_append; simpl.
  - rewrite Hc. destruct (rstrip_by isspace z); reflexivity.
  - rewrite IH. destruct y; reflexivity.
Qed.

(** *** The bracket scan *)

Lemma bracket_end_append a s :
  forall depth n, bracket_end a depth = Some n -> bracket_end (a +:+ s) depth = Some n.
Proof.
  induction a as [|c a IH]; intros depth n; push_append; simpl; [discriminate|].
  destruct (Ascii.eqb c "[").
  - destruct (bracket_end a (depth + 1)) eqn:E; [|discriminate].
    rewrite (IH _ _ E). tauto.
  - destruct (Ascii.eqb c "]").
    + destruct (depth - 1 =? 0); [tauto|].
      destruct (bracket_end a (depth - 1)) eqn:E; [|discriminate].
      rewrite (IH _ _ E). tauto.
    + destruct (bracket_end a depth) eqn:E; [|discriminate].
      rewrite (IH _ _ E). tauto.
Qed.

(** A scan that ends on the last character ends on a closing bracket. *)
Lemma bracket_end_whole a :
  forall depth, bracket_end a depth = Some (String.length a) ->
  exists b, a = b +:+ "]".
Proof.
  induction a as [|c a IH]; intros depth; simpl; [discriminate|].
  assert (Hrec : forall d, option_map S (bracket_end a d) = Some (S (String.length a)) ->
                           exists b, String c a = b +:+ "]").
  { intros d H. destruct (bracket_end a d) eqn:E; [|discriminate].
    injection H as ->. destruct (IH _ E) as [b ->]. exists (String c b). reflexivity. }
  destruct (Ascii.eqb c "[") eqn:Ho; [apply Hrec|].
  destruct (Ascii.eqb c "]") eqn:Hc; [|apply Hrec].
  destruct (depth - 1 =? 0); [|apply Hrec].
  intros [= H]. destruct a; [|discriminate]. apply Ascii.eqb_eq in Hc as ->.
  exists EmptyString. reflexivity.
Qed.

(** *** The round trip *)

Lemma extract_no_bracket text :
  occurs "[" text = false -> _extract_json_array text = Raise no_array.
Proof.
  intros H. unfold _extract_json_array, strip.
  assert (Hf : find "[" (rstrip (lstrip (sub_fences 0 false text))) = None).
  { apply find_occurs_None, rstrip_no_occurrence, lstrip_no_occurrence,
      sub_fences_no_occurrence, H. }
  rewrite Hf. reflexivity.
Qed.

Lemma extract_in_context prefix a suffix :
  startswith "[" a = true ->
  bracket_end a 0 = Some (String.length a) ->
  has_fence a = false ->
  occurs "[" prefix = false ->
  _extract_json_array (prefix +:+ a +:+ suffix) = Ok a.
Proof.
  intros Hopen Hend Hfence Hprefix.
  destruct (bracket_end_whole _ _ Hend) as [b Hb].
  destruct a as [|c a']; [discriminate|].
  cbn [startswith] in Hopen. rewrite andb_true_r in Hopen.
  apply Ascii.eqb_eq in Hopen as <-.
  destruct b as [|c b']; [discriminate|].
  rewrite append_cons in Hb. injection Hb as <- Ha'.
  assert (Hfence' : has_fence (b' +:+ "]") = false).
  { rewrite Ha' in Hfence. cbn [has_fence] in Hfence.
    apply orb_false_elim in Hfence as [_ H]. exact H. }
  set (q := lstrip (sub_fences 0 false prefix)).
  set (t := rstrip (sub_fences 0 false suffix)).
  assert (Hq : occurs "[" q = false)
    by apply lstrip_no_occurrence, sub_fences_no_occurrence, Hprefix.
  assert (Hstrip : strip (sub_fences 0 false (prefix +:+ String "[" a' +:+ suffix))
                   = q +:+ String "[" a' +:+ t).
  { rewrite append_cons, sub_fences_append_bracket by lia.
    rewrite Ha', append_assoc, append_cons, append_nil.
    rewrite sub_fences_fence_free by exact Hfence'.
    unfold strip. rewrite lstrip_append by reflexivity. fold q.
    rewrite <- append_cons, <- append_assoc.
    rewrite rstrip_append by reflexivity. fold t.
    rewrite !append_assoc, !append_cons, append_assoc, append_cons, append_nil.
    reflexivity. }
  unfold _extract_json_array. rewrite Hstrip, append_cons.
  rewrite find_append by (apply find_occurs_None, Hq).
  rewrite drop_append, <- append_cons.
  rewrite (bracket_end_append _ t _ _ Hend), take_append. reflexivity.
Qed.

(** *** Texts that are refused *)

Lemma find_from_open s start : find "[" s = Some start -> drop start s = from_open s.
Proof.
  revert start. induction s as [|c s IH]; intros start; simpl; [discriminate|].
  destruct (Ascii.eqb c "[").
  - intros [= <-]. reflexivity.
  - destruct (find "[" s) as [n|]; [|discriminate]. intros [= <-]. simpl. apply IH. reflexivity.
Qed.

Lemma find_open_brackets s : find "[" s = None <-> find "[" (brackets s) = None.
Proof.
  induction s as [|c s IH]; simpl; [tauto|]. unfold is_bracket.
  destruct (Ascii.eqb c "[") eqn:Ho; simpl.
  - rewrite Ho. split; discriminate.
  - destruct (Ascii.eqb c "]") eqn:Hc; simpl.
    + rewrite Ho. destruct (find "[" s), (find "[" (brackets s)); simpl in *;
        intuition discriminate.
    + destruct (find "[" s); simpl in *; [|tauto]. split; [discriminate|].
      intros H. apply IH in H. discriminate.
Qed.

Lemma brackets_from_open s : brackets (from_open s) = from_open (brackets s).
Proof.
  induction s as [|c s IH]; [reflexivity|]. cbn [from_open brackets]. unfold is_bracket.
  destruct (Ascii.eqb c "[") eqn:Ho; cbn [orb].
  - cbn [brackets from_open]. unfold is_bracket. rewrite Ho. reflexivity.
  - destruct (Ascii.eqb c "]") eqn:Hc; cbn [from_open]; [rewrite Ho|]; exact IH.
Qed.

Lemma bracket_end_brackets s :
  forall depth, bracket_end s depth = None <-> bracket_end (brackets s) depth = None.
Proof.
  induction s as [|c s IH]; intros depth; [tauto|]. cbn [bracket_end brackets].
  unfold is_bracket.
  destruct (Ascii.eqb c "[") eqn:Ho; cbn [orb].
  - cbn [bracket_end]. rewrite Ho. specialize (IH (depth + 1)).
    destruct (bracket_end s (depth + 1)), (bracket_end (brackets s) (depth + 1));
      simpl in *; intuition discriminate.
  - destruct (Ascii.eqb c "]") eqn:Hc.
    + cbn [bracket_end]. rewrite Ho, Hc. destruct (depth - 1 =? 0); [tauto|].
      specialize (IH (depth - 1)).
      destruct (bracket_end s (depth - 1)), (bracket_end (brackets s) (depth - 1));
        simpl in *; intuition discriminate.
    + specialize (IH depth).
      destruct (bracket_end s depth), (bracket_end (brackets s) depth);
        simpl in *; intuition discriminate.
Qed.

Lemma isspace_not_bracket c : isspace c = true -> is_bracket c = false.
Proof.
  unfold is_bracket. destruct (Ascii.eqb_spec c "[") as [->|_]; [discriminate|].
  destruct (Ascii.eqb_spec c "]") as [->|_]; [discriminate|]. reflexivity.
Qed.

Lemma brackets_lstrip s : brackets (lstrip s) = brackets s.
Proof.
  unfold lstrip. induction s as [|c s IH]; [reflexivity|]. cbn [lstrip_by].
  destruct (isspace c) eqn:Hc; [|reflexivity].
  cbn [brackets]. rewrite (isspace_not_bracket _ Hc). exact IH.
Qed.

Lemma brackets_rstrip s : brackets (rstrip s) = brackets s.
Proof.
  unfold rstrip. induction s as [|c s IH]; [reflexivity|]. cbn [rstrip_by brackets].
  destruct (rstrip_by isspace s) as [|d r] eqn:E.
  - rewrite <- IH. cbn [brackets]. destruct (isspace c) eqn:Hc.
    + rewrite (isspace_not_bracket _ Hc). reflexivity.
    + cbn [brackets]. reflexivity.
  - cbn [brackets]. rewrite <- IH. reflexivity.
Qed.

Lemma startswith_take_prefix p s :
  startswith p s = true -> take (String.length p) s = p.
Proof.
  revert s. induction p as [|a p IH]; intros s; [destruct s; reflexivity|].
  destruct s as [|b s]; simpl; [discriminate|]. intros H.
  apply andb_prop in H as [Hab H]. apply Ascii.eqb_eq in Hab as ->.
  rewrite (IH _ H). reflexivity.
Qed.

Lemma startswith_cons a p c s :
  startswith (String a p) (String c s) = Ascii.eqb a c && startswith p s.
Proof. reflexivity. Qed.

Lemma brackets_sub_fences s :
  forall skip in_space,
    brackets (take skip s) = EmptyString ->
    brackets (sub_fences skip in_space s) = brackets s.
Proof.
  induction s as [|c s IH]; intros skip in_space Hskip; [reflexivity|].
  destruct skip as [|n].
  - cbn [sub_fences]. destruct (in_space && isspace c) eqn:Hsp.
    + apply andb_prop in Hsp as [_ Hsp]. cbn [brackets].
      rewrite (isspace_not_bracket _ Hsp). apply IH. reflexivity.
    + destruct (startswith "```json" (String c s)) eqn:Hj.
      * rewrite startswith_cons in Hj. apply andb_prop in Hj as [Hc Hj].
        apply Ascii.eqb_eq in Hc as <-.
        change (brackets (String "`" s)) with (brackets s).
        apply IH. apply startswith_take_prefix in Hj. cbn [String.length] in Hj.
        rewrite Hj. reflexivity.
      * destruct (startswith "```" (String c s)) eqn:Hf.
        -- rewrite startswith_cons in Hf. apply andb_prop in Hf as [Hc Hf].
           apply Ascii.eqb_eq in Hc as <-.
           change (brackets (String "`" s)) with (brackets s).
           apply IH. apply startswith_take_prefix in Hf. cbn [String.length] in Hf.
           rewrite Hf. reflexivity.
        -- cbn [brackets]. rewrite (IH 0%nat false eq_refl). reflexivity.
  - cbn [sub_fences]. cbn [take brackets] in Hskip.
    destruct (is_bracket c) eqn:Hb; [discriminate|].
    cbn [brackets]. rewrite Hb. apply IH, Hskip.
Qed.

Lemma brackets_cleaned text : brackets (strip (sub_fences 0 false text)) = brackets text.
Proof.
  unfold strip. rewrite brackets_rstrip, brackets_lstrip.
  apply brackets_sub_fences. reflexivity.
Qed.

(** Fences and surrounding whitespace do not count: a text whose first
    opening bracket is never closed is refused as unbalanced. *)
Lemma extract_never_closed text start :
  find "[" text = Some start ->
  bracket_end (drop start text) 0 = None ->
  _extract_json_array text = Raise unbalanced.
Proof.
  intros Hfind Hend. unfold _extract_json_array.
  set (cleaned := strip (sub_fences 0 false text)).
  assert (Hb : brackets cleaned = brackets text) by apply brackets_cleaned.
  destruct (find "[" cleaned) as [start'|] eqn:Hfind'.
  - assert (Hnone : bracket_end (drop start' cleaned) 0 = None).
    { rewrite (find_from_open _ _ Hfind'). apply (proj2 (bracket_end_brackets _ _)).
      rewrite brackets_from_open, Hb, <- brackets_from_open.
      apply (proj1 (bracket_end_brackets _ _)).
      rewrite <- (find_from_open _ _ Hfind). exact Hend. }
    rewrite Hnone. reflexivity.
  - apply (proj1 (find_open_brackets _)) in Hfind'. rewrite Hb in Hfind'.
    apply (proj2 (find_open_brackets _)) in Hfind'. congruence.
Qed.

(** C2, as amended.  Let [a] start with an opening bracket which its last
    character closes (every bracket counted, also inside string literals) and
    hold no run of three backticks.  Then extraction returns [a] from [a]
    wrapped in a code fence and from [a] between a prefix without opening
    bracket and any suffix.  A text without opening bracket fails with the
    no-array error.  A text whose first opening bracket is never closed,
    every bracket from it on being counted, fails with the unbalanced error;
    "[{incomplete" is such a text. *)
Theorem extract_round_trip a prefix suffix :
  startswith "[" a = true ->
  bracket_end a 0 = Some (String.length a) ->
  has_fence a = false ->
  occurs "[" prefix = false ->
  _extract_json_array (fence_wrap a) = Ok a
  /\ _extract_json_array (prefix +:+ a +:+ suffix) = Ok a
  /\ (forall text, occurs "[" text = false -> _extract_json_array text = Raise no_array)
  /\ (forall text start,
        find "[" text = Some start ->
        bracket_end (drop start text) 0 = None ->
        _extract_json_array text = Raise unbalanced).
Proof.
  intros Hopen Hend Hfence Hprefix. split; [|split; [|split]].
  - change (fence_wrap a) with (("```json" +:+ nl) +:+ a +:+ (nl +:+ "```")).
    apply extract_in_context; [assumption | assumption | assumption | reflexivity].
  - apply extract_in_context; assumption.
  - apply extract_no_bracket.
  - apply extract_never_closed.
Qed.

Lemma extract_round_trip_witness :
  startswith "[" "[[1, 2], [3]]" = true
  /\ bracket_end "[[1, 2], [3]]" 0 = Some (String.length "[[1, 2], [3]]")
  /\ has_fence "[[1, 2], [3]]" = false
  /\ occurs "[" ("Here are the results:" +:+ nl) = false
  /\ _extract_json_array (fence_wrap "[[1, 2], [3]]") = Ok "[[1, 2], [3]]"
  /\ _extract_json_array
       (("Here are the results:" +:+ nl) +:+ "[[1, 2], [3]]" +:+ (nl +:+ "Done."))
     = Ok "[[1, 2], [3]]"
  /\ _extract_json_array "no array here" = Raise no_array
  /\ _extract_json_array "[{incomplete" = Raise unbalanced
  /\ _extract_json_array ("```json" +:+ nl +:+ "[[1, 2], [3]" +:+ nl +:+ "```")
     = Raise unbalanced.
Proof.
  pose proof (extract_round_trip "[[1, 2], [3]]" ("Here are the results:" +:+ nl)
                (nl +:+ "Done.") eq_refl eq_refl eq_refl eq_refl) as (H1 & H2 & H3 & H4).
  do 4 (split; [reflexivity|]). split; [exact H1|]. split; [exact H2|].
  split; [exact (H3 "no array here" eq_refl)|].
  split; [exact (H4 "[{incomplete" 0%nat eq_refl eq_refl)|].
  exact (H4 ("```json" +:+ nl +:+ "[[1, 2], [3]" +:+ nl +:+ "```") 8%nat eq_refl eq_refl).
Defined.

(** C2, the claim as written fails.  With an opening bracket in the prose
    before it, the array [[1]] is not what extraction returns; and from the
    fenced array of one string that holds a closing bracket, extraction
    returns the text up to that bracket. *)
Lemma extract_not_round_trip :
  _extract_json_array ("Results [2 found]: " +:+ "[1]" +:+ EmptyString) = Ok "[2 found]"
  /\ _extract_json_array (fence_wrap bracket_in_string)
     = Ok (String "[" (String "034" (String "]" EmptyString)))
  /\ _extract_json_array (fence_wrap bracket_in_string) <> Ok bracket_in_string.
Proof. vm_compute. repeat split. discriminate. Qed.

End ExtractFacts.

(** ** The opportunity tables *)

Module DbFacts.
Import Py Models Scorer Db Basics Scenarios Notions.

Lemma same_key_spec oid rid r : same_key oid rid r = true <-> key r = (oid, rid).
Proof.
  unfold same_key, key. rewrite andb_true_iff, String.eqb_eq, Z.eqb_eq.
  split; [intros [-> ->]; reflexivity | intros [= -> ->]; auto].
Qed.

Lemma insert_or_replace_NoDup row table :
  NoDup (map key table) -> NoDup (map key (insert_or_replace row table)).
Proof.
  intros Hnd. unfold insert_or_replace. rewrite map_app. simpl.
  apply NoDup_app. split; [|split].
  - induction table as [|r table IH]; simpl; [constructor|].
    apply NoDup_cons in Hnd as [Hr Hnd].
    destruct (negb (same_key _ _ r)); [|apply IH, Hnd].
    simpl. apply NoDup_cons. split; [|apply IH, Hnd].
    intros Hin. apply Hr. apply list_elem_of_In. apply list_elem_of_In in Hin.
    apply in_map_iff in Hin as (x & Hx & Hin). apply in_map_iff.
    exists x. split; [exact Hx|]. apply filter_In in Hin. tauto.
  - intros k Hk Hk'. apply list_elem_of_In in Hk. apply list_elem_of_In in Hk'.
    destruct Hk' as [<-|[]]. apply in_map_iff in Hk as (x & Hx & Hin).
    apply filter_In in Hin as [_ Hneg]. apply negb_true_iff in Hneg.
    assert (same_key (o_id row) (o_run_id row) x = true) by (apply same_key_spec; exact Hx).
    congruence.
  - apply NoDup_singleton.
Qed.

Lemma save_opportunities_NoDup now rid opps :
  forall self r self',
    save_opportunities now rid opps self = (r, self') ->
    NoDup (map key (opportunities self)) ->
    NoDup (map key (opportunities self')).
Proof.
  induction opps as [|opp opps IH]; intros self r self'; simpl.
  - intros [= _ <-]. auto.
  - unfold save_opportunity.
    destruct (bind_opportunity (confidence opp) (competition_notes opp)).
    + destruct (insert_evidence _ _ _ _ _) as [[u|e|] [ev last]].
      * intros H Hnd. eapply IH; [exact H|]. simpl. apply insert_or_replace_NoDup, Hnd.
      * intros [= _ <-] Hnd. simpl. apply insert_or_replace_NoDup, Hnd.
      * intros [= _ <-] Hnd. simpl. apply insert_or_replace_NoDup, Hnd.
    + intros [= _ <-]. auto.
    + intros [= _ <-]. auto.
Qed.

(** Whatever is saved, no two rows of [opportunities] share a primary key. *)
Lemma save_opportunity_run_NoDup self now opps n digest r self' :
  save_opportunity_run self now opps n digest = (r, self') ->
  NoDup (map key (opportunities self)) ->
  NoDup (map key (opportunities self')).
Proof.
  unfold save_opportunity_run. destruct (bind_run self digest n) as [u|e|].
  - destruct (save_opportunities _ _ _ _) as [[u'|e|] self2] eqn:E;
      intros [= _ <-] Hnd; eapply save_opportunities_NoDup; eauto.
  - intros [= _ <-]. auto.
  - intros [= _ <-]. auto.
Qed.

(** *** Trends *)

Lemma compare_refl s : String.compare s s = Eq.
Proof.
  pose proof (String.compare_antisym s s) as H.
  destruct (String.compare s s); simpl in H; congruence.
Qed.

Lemma compare_lt_trans a b c :
  String.compare a b = Lt -> String.compare b c = Lt -> String.compare a c = Lt.
Proof.
  intros H1 H2. apply (proj2 (String_as_OT.cmp_lt a c)).
  eapply String_as_OT.lt_trans; apply String_as_OT.cmp_lt; eassumption.
Qed.

Lemma trend_order_total a b : trend_order a b = true \/ trend_order b a = true.
Proof.
  unfold trend_order. rewrite (String.compare_antisym (o_id a) (o_id b)).
  destruct (String.compare (o_id b) (o_id a)); simpl; auto.
  destruct (Z.leb_spec (o_generated_at a) (o_generated_at b)); [auto|].
  right. apply Z.leb_le. lia.
Qed.

Lemma trend_order_trans a b c :
  trend_order a b = true -> trend_order b c = true -> trend_order a c = true.
Proof.
  unfold trend_order.
  destruct (String.compare (o_id a) (o_id b)) eqn:Hab; try discriminate;
    destruct (String.compare (o_id b) (o_id c)) eqn:Hbc; try discriminate;
    intros H1 H2.
  - apply String.compare_eq_iff in Hab, Hbc. rewrite Hab, Hbc, compare_refl.
    apply Z.leb_le. apply Z.leb_le in H1, H2. lia.
  - apply String.compare_eq_iff in Hab. rewrite Hab, Hbc. reflexivity.
  - apply String.compare_eq_iff in Hbc. rewrite <- Hbc, Hab. reflexivity.
  - rewrite (compare_lt_trans _ _ _ Hab Hbc). reflexivity.
Qed.

Lemma trend_order_same_id a b :
  o_id a = o_id b -> trend_order a b = true -> o_generated_at a <= o_generated_at b.
Proof.
  unfold trend_order. intros ->. rewrite compare_refl. apply Z.leb_le.
Qed.

Lemma filter_Permutation {A} (f : A -> bool) (l l' : list A) :
  Permutation l l' -> Permutation (List.filter f l) (List.filter f l').
Proof.
  induction 1 as [|x l l' _ IH|x y l|l l' l'' _ IH1 _ IH2]; simpl.
  - constructor.
  - destruct (f x); [constructor|]; exact IH.
  - destruct (f x), (f y); try reflexivity. apply perm_swap.
  - etransitivity; eassumption.
Qed.

Lemma filter_StronglySorted {A} (R : A -> A -> Prop) (f : A -> bool) (l : list A) :
  StronglySorted R l -> StronglySorted R (List.filter f l).
Proof.
  induction 1 as [|x l Hs IH Hx]; simpl; [constructor|].
  destruct (f x); [|exact IH]. constructor; [exact IH|].
  apply List.Forall_forall. intros y Hy. apply filter_In in Hy as [Hy _].
  rewrite List.Forall_forall in Hx. apply Hx, Hy.
Qed.

Lemma with_id_app oid rows row :
  with_id oid (rows ++ [row])
  = with_id oid rows ++ (if String.eqb (o_id row) oid then [row] else []).
Proof.
  unfold with_id. rewrite List.filter_app. simpl. destruct (String.eqb _ _); reflexivity.
Qed.

(** *** The dict of the loop *)

Lemma contains_spec oid (T : trends_dict) : contains oid T = true <-> In oid (map fst T).
Proof.
  unfold contains. rewrite existsb_exists, in_map_iff. split.
  - intros (kv & Hin & He). apply String.eqb_eq in He. eauto.
  - intros (kv & He & Hin). exists kv. split; [exact Hin|]. apply String.eqb_eq, He.
Qed.

Lemma update_keys oid f (T : trends_dict) : map fst (update oid f T) = map fst T.
Proof.
  induction T as [|[k t] T IH]; simpl; [reflexivity|].
  destruct (String.eqb k oid); simpl; [reflexivity | rewrite IH; reflexivity].
Qed.

Lemma update_update oid f g (T : trends_dict) :
  update oid g (update oid f T) = update oid (fun t => g (f t)) T.
Proof.
  induction T as [|[k t] T IH]; simpl; [reflexivity|].
  destruct (String.eqb k oid) eqn:E; simpl; rewrite E; [reflexivity|].
  rewrite IH. reflexivity.
Qed.

(** With distinct keys, [update] changes the entry of [oid] and no other. *)
Lemma In_update oid f (T : trends_dict) k t' :
  List.NoDup (map fst T) ->
  In (k, t') (update oid f T) ->
  if String.eqb k oid then exists t, In (k, t) T /\ t' = f t else In (k, t') T.
Proof.
  induction T as [|[k0 t0] T IH]; simpl; [contradiction|].
  intros Hnd. apply List.NoDup_cons_iff in Hnd as [Hk0 Hnd].
  destruct (String.eqb k0 oid) eqn:E0; simpl.
  - apply String.eqb_eq in E0 as ->. intros [[= <- <-]|Hin].
    + rewrite String.eqb_refl. eauto.
    + destruct (String.eqb k oid) eqn:E; [|auto].
      apply String.eqb_eq in E as ->. exfalso. apply Hk0.
      apply in_map_iff. exists (oid, t'). auto.
  - intros [[= <- <-]|Hin].
    + rewrite E0. auto.
    + specialize (IH Hnd Hin). destruct (String.eqb k oid); [|auto].
      destruct IH as (t & Ht & ->). eauto.
Qed.

Lemma trends_step_absorb T row :
  trends_step T row
  = update (o_id row) (absorb row)
      (if contains (o_id row) T then T
       else T ++ [(o_id row, mkTrend (o_id row) (o_title row) [])]).
Proof.
  unfold trends_step. rewrite update_update.
  destruct (contains (o_id row) T); reflexivity.
Qed.

Lemma tracks_nil : tracks [] [].
Proof.
  split; [constructor|]. split; intros; contradiction.
Qed.

Lemma tracks_absent T done oid :
  tracks T done -> ~ In oid (map fst T) -> with_id oid done = [].
Proof.
  intros (_ & Hids & _) Hno. unfold with_id.
  induction done as [|r done IH]; simpl; [reflexivity|].
  destruct (String.eqb (o_id r) oid) eqn:E.
  - exfalso. apply Hno, Hids. apply String.eqb_eq in E. left. exact E.
  - apply IH. intros o Ho. apply Hids. right. exact Ho.
Qed.

Lemma tracks_step T done row :
  tracks T done -> tracks (trends_step T row) (done ++ [row]).
Proof.
  intros HT. pose proof HT as (Hnd & Hids & Hent).
  rewrite trends_step_absorb.
  set (oid := o_id row).
  set (T' := if contains oid T then T else T ++ [(oid, mkTrend oid (o_title row) [])]).
  assert (Hnd' : List.NoDup (map fst T')).
  { unfold T'. destruct (contains oid T) eqn:Hc; [exact Hnd|].
    rewrite map_app. simpl. apply NoDup_ListNoDup, NoDup_app.
    split; [apply NoDup_ListNoDup, Hnd|]. split; [|apply NoDup_singleton].
    intros k Hk Hk'. apply list_elem_of_In in Hk. apply list_elem_of_In in Hk'.
    destruct Hk' as [<-|[]]. apply contains_spec in Hk. congruence. }
  assert (Hin' : In oid (map fst T')).
  { unfold T'. destruct (contains oid T) eqn:Hc; [apply contains_spec, Hc|].
    rewrite map_app. apply in_or_app. right. left. reflexivity. }
  split; [rewrite update_keys; exact Hnd'|]. split.
  - intros o Ho. rewrite update_keys. rewrite map_app in Ho.
    apply in_app_or in Ho as [Ho|[<-|[]]]; [|exact Hin'].
    unfold T'. destruct (contains oid T); [apply Hids, Ho|].
    rewrite map_app. apply in_or_app. left. apply Hids, Ho.
  - intros k t' Hin. apply In_update in Hin; [|exact Hnd'].
    rewrite with_id_app. fold oid. rewrite (String.eqb_sym oid k).
    destruct (String.eqb k oid) eqn:E.
    + apply String.eqb_eq in E as ->. destruct Hin as (t & Ht & ->).
      unfold absorb. cbn [trend_id trend_title data_points].
      assert (Hold : trend_id t = oid /\ data_points t = map point_of (with_id oid done)).
      { unfold T' in Ht. destruct (contains oid T) eqn:Hc.
        - destruct (Hent _ _ Ht) as (H1 & H2 & _). auto.
        - apply in_app_or in Ht as [Ht|[[= <-]|[]]].
          + exfalso.
            assert (In oid (map fst T)) by (apply in_map_iff; exists (oid, t); auto).
            apply contains_spec in H. congruence.
          + split; [reflexivity|]. rewrite (tracks_absent _ _ oid HT); [reflexivity|].
            intros H. apply contains_spec in H. congruence. }
      destruct Hold as [H1 H2]. split; [exact H1|]. split.
      * rewrite H2, map_app. reflexivity.
      * exists (with_id oid done), row. auto.
    + rewrite app_nil_r. unfold T' in Hin. destruct (contains oid T).
      * apply Hent, Hin.
      * apply in_app_or in Hin as [Hin|[[= -> _]|[]]]; [apply Hent, Hin|].
        rewrite String.eqb_refl in E. discriminate.
Qed.

Lemma tracks_fold rows :
  forall T done, tracks T done -> tracks (fold_left trends_step rows T) (done ++ rows).
Proof.
  induction rows as [|row rows IH]; intros T done HT; simpl.
  - rewrite app_nil_r. exact HT.
  - replace (done ++ row :: rows) with ((done ++ [row]) ++ rows)
      by (rewrite <- app_assoc; reflexivity).
    apply IH, tracks_step, HT.
Qed.

Lemma tracks_ids T done :
  tracks T done -> map trend_id (map snd T) = map fst T.
Proof.
  intros (_ & _ & Hent). induction T as [|[k t] T IH]; simpl; [reflexivity|].
  destruct (Hent k t) as (-> & _); [left; reflexivity|].
  rewrite IH; [reflexivity|]. intros k' t' H. apply Hent. right. exact H.
Qed.

Lemma StronglySorted_last {A} (R : A -> A -> Prop) (l : list A) (x : A) :
  StronglySorted R (l ++ [x]) -> forall y, In y l -> R y x.
Proof.
  induction l as [|a l IH]; simpl; [contradiction|].
  intros Hs y [<-|Hy].
  - apply StronglySorted_inv in Hs as [_ Ha]. rewrite List.Forall_forall in Ha.
    apply Ha, in_or_app. right. left. reflexivity.
  - apply StronglySorted_inv in Hs as [Hs _]. apply IH; assumption.
Qed.

Lemma with_id_sorted oid rows :
  StronglySorted (fun a b => trend_order a b = true) rows ->
  StronglySorted (fun a b => o_generated_at a <= o_generated_at b) (with_id oid rows).
Proof.
  induction 1 as [|x l Hs IH Hx]; simpl; [constructor|].
  destruct (String.eqb (o_id x) oid) eqn:E; [|exact IH].
  constructor; [exact IH|]. apply List.Forall_forall. intros y Hy.
  apply filter_In in Hy as [Hy Ey]. rewrite List.Forall_forall in Hx.
  apply trend_order_same_id; [|apply Hx, Hy].
  apply String.eqb_eq in E, Ey. congruence.
Qed.

Lemma sqlite_int_fits z : fits z -> sqlite_int z = Ok z.
Proof.
  unfold fits, sqlite_int. intros [H1 H2].
  apply Z.leb_le in H1. apply Z.ltb_lt in H2. rewrite H1, H2. reflexivity.
Qed.

Lemma insert_evidence_fits oid rid evs :
  Forall (fun ev => fits (ev_score ev)) evs ->
  forall table last,
    insert_evidence oid rid evs table last
    = (Ok tt, written_evidence oid rid evs table last).
Proof.
  induction 1 as [|ev evs Hev _ IH]; intros table last; cbn [insert_evidence written_evidence].
  - reflexivity.
  - rewrite (sqlite_int_fits _ Hev). apply IH.
Qed.

Lemma save_single_run self now opp n notes :
  fits n ->
  bind_opportunity (confidence opp) (competition_notes opp) = Ok notes ->
  Forall (fun ev => fits (ev_score ev)) (evidence opp) ->
  save_opportunity_run self now [opp] n None
  = (Ok (last_run_id self + 1), after_single_run self now opp n notes).
Proof.
  intros Hn Hv Hev. unfold save_opportunity_run, after_single_run, bind_run.
  rewrite (sqlite_int_fits _ Hn). cbn [bind save_opportunities].
  unfold save_opportunity. rewrite Hv.
  cbn [opportunity_evidence last_evidence_id opportunities items digests
       opportunity_runs last_digest_id last_run_id].
  rewrite (insert_evidence_fits _ _ _ Hev).
  destruct (written_evidence _ _ _ _ _) as [ev last]. reflexivity.
Qed.

Lemma trends_of_two r1 r2 :
  o_id r1 = o_id r2 ->
  map snd (fold_left trends_step [r1; r2] [])
  = [mkTrend (o_id r1) (o_title r2) [point_of r1; point_of r2]].
Proof.
  intros H. cbn [fold_left]. rewrite (trends_step_absorb [] r1).
  cbn [contains existsb app update]. rewrite String.eqb_refl.
  rewrite trends_step_absorb. rewrite <- H.
  cbn [contains existsb fst orb]. rewrite String.eqb_refl.
  cbn [orb update]. rewrite String.eqb_refl. reflexivity.
Qed.

Lemma trend_rows_tracked self :
  tracks (fold_left trends_step (trend_rows self) []) (trend_rows self).
Proof. apply (tracks_fold (trend_rows self) [] []), tracks_nil. Qed.

(** C8. [get_opportunity_trends] returns one entry for each opportunity id
    that is stored and no other.  The points of an entry are those of the
    stored records of its id, one for each, in ascending order of
    [generated_at], and its title is the title of a record of that id that no
    other is more recent than.  Saving the same id in two runs, with
    confidence 82 and then 90, gives one entry whose two points show 82 then
    90. *)
Theorem get_opportunity_trends_spec self :
  let trends := get_opportunity_trends self in
  List.NoDup (map trend_id trends)
  /\ (forall oid, In oid (map trend_id trends) <-> In oid (map o_id (opportunities self)))
  /\ (forall t, In t trends ->
        exists rows latest,
          Permutation rows (records_of self (trend_id t))
          /\ StronglySorted (fun a b => o_generated_at a <= o_generated_at b) rows
          /\ data_points t = map point_of rows
          /\ In latest (records_of self (trend_id t))
          /\ (forall r, In r (records_of self (trend_id t)) ->
                o_generated_at r <= o_generated_at latest)
          /\ trend_title t = o_title latest)
  /\ (forall o1 o2 t1 t2 n1 n2,
        id o1 = id o2 -> confidence o1 = 82 -> confidence o2 = 90 -> t1 < t2 ->
        storable o1 -> storable o2 -> fits n1 -> fits n2 ->
        exists st1 st2,
          save_opportunity_run empty_storage t1 [o1] n1 None = (Ok 1, st1)
          /\ save_opportunity_run st1 t2 [o2] n2 None = (Ok 2, st2)
          /\ get_opportunity_trends st2
             = [mkTrend (id o1) (opp_title o2)
                  [mkDataPoint 1 82 t1; mkDataPoint 2 90 t2]]).
Proof.
  cbv zeta. unfold get_opportunity_trends. fold (trend_rows self).
  pose proof (trend_rows_tracked self) as HT.
  set (T := fold_left trends_step (trend_rows self) []) in *.
  pose proof HT as (Hnd & Hids & Hent).
  assert (Hperm : Permutation (trend_rows self) (opportunities self))
    by apply sort_by_Permutation.
  split; [|split; [|split]].
  - rewrite (tracks_ids _ _ HT). exact Hnd.
  - intros oid. rewrite (tracks_ids _ _ HT). split.
    + intros Hin. apply in_map_iff in Hin as ([k t] & <- & Hin).
      destruct (Hent _ _ Hin) as (_ & _ & before & r & Hr & _).
      assert (Hrin : In r (with_id k (trend_rows self)))
        by (rewrite Hr; apply in_or_app; right; left; reflexivity).
      apply filter_In in Hrin as [Hrin Hk]. apply String.eqb_eq in Hk. simpl.
      apply in_map_iff. exists r. split; [exact Hk|].
      eapply Permutation_in; eassumption.
    + intros Hin. apply Hids. apply in_map_iff in Hin as (r & <- & Hin).
      apply in_map_iff. exists r. split; [reflexivity|].
      eapply Permutation_in; [symmetry|]; eassumption.
  - intros t Hin. apply in_map_iff in Hin as ([k t0] & Ht & Hin). simpl in Ht. subst t0.
    destruct (Hent _ _ Hin) as (Hk & Hpts & before & r & Hr & Htitle). rewrite Hk.
    assert (Hp : Permutation (with_id k (trend_rows self)) (records_of self k))
      by apply filter_Permutation, Hperm.
    assert (Hs : StronglySorted (fun a b => o_generated_at a <= o_generated_at b)
                   (with_id k (trend_rows self))).
    { apply with_id_sorted, sort_by_sorted;
        [apply trend_order_total | apply trend_order_trans]. }
    exists (with_id k (trend_rows self)), r.
    split; [exact Hp|]. split; [exact Hs|]. split; [exact Hpts|].
    assert (Hrin : In r (with_id k (trend_rows self)))
      by (rewrite Hr; apply in_or_app; right; left; reflexivity).
    split; [eapply Permutation_in; eassumption|]. split; [|exact Htitle].
    intros r' Hr'. apply (Permutation_in _ (Permutation_sym Hp)) in Hr'.
    rewrite Hr in Hr', Hs. apply in_app_or in Hr' as [Hr'|[<-|[]]]; [|lia].
    exact (StronglySorted_last _ _ _ Hs _ Hr').
  - intros o1 o2 t1 t2 n1 n2 Hid Hc1 Hc2 Hlt [[v1 Hv1] He1] [[v2 Hv2] He2] Hn1 Hn2.
    exists (after_single_run empty_storage t1 o1 n1 v1).
    exists (after_single_run (after_single_run empty_storage t1 o1 n1 v1) t2 o2 n2 v2).
    split; [exact (save_single_run empty_storage t1 o1 n1 v1 Hn1 Hv1 He1)|].
    split; [exact (save_single_run _ t2 o2 n2 v2 Hn2 Hv2 He2)|].
    unfold get_opportunity_trends, after_single_run, insert_or_replace, same_key, row_of.
    cbn [opportunities last_run_id empty_storage List.filter app o_id o_run_id].
    rewrite <- Hid, String.eqb_refl. change (0 + 1 =? 0 + 1 + 1) with false.
    cbn [andb negb app sort_by insert_by].
    unfold trend_order. cbn [o_id o_generated_at]. rewrite compare_refl.
    assert (Hle : (t1 <=? t2) = true) by (apply Z.leb_le; lia). rewrite Hle.
    rewrite trends_of_two by reflexivity.
    unfold point_of. cbn [o_id o_title o_run_id o_confidence o_generated_at].
    rewrite Hc1, Hc2. reflexivity.
Qed.

Lemma get_opportunity_trends_spec_witness :
  exists st1 st2,
    save_opportunity_run empty_storage 100 [drift_detector] 5 None = (Ok 1, st1)
    /\ save_opportunity_run st1 200 [drift_detector_v2] 3 None = (Ok 2, st2)
    /\ get_opportunity_trends st2
       = [mkTrend "terraform-drift-detector" "Terraform Drift Detector v2"
            [mkDataPoint 1 82 100; mkDataPoint 2 90 200]].
Proof.
  destruct (get_opportunity_trends_spec empty_storage) as (_ & _ & _ & H).
  assert (Hfits : forall z, - 100 <= z <= 100 -> fits z) by (unfold fits; lia).
  assert (H1 : storable drift_detector).
  { split; [eexists; reflexivity|]. repeat constructor; apply Hfits; simpl; lia. }
  assert (H2 : storable drift_detector_v2).
  { split; [eexists; reflexivity|]. repeat constructor; apply Hfits; simpl; lia. }
  exact (H drift_detector drift_detector_v2 100 200 5 3 eq_refl eq_refl eq_refl eq_refl
           H1 H2 (Hfits 5 ltac:(lia)) (Hfits 3 ltac:(lia))).
Defined.

(** C7, on the code.  Saving one run that lists the same opportunity twice
    leaves one row for its key, as claimed, and two evidence rows for it,
    though the opportunity has one evidence entry: the row is replaced, its
    evidence is inserted again. *)
Theorem repeated_key_doubles_evidence :
  let saved := save_opportunity_run empty_storage 100 [drift_detector; drift_detector] 5 None in
  saved.1 = Ok 1
  /\ length (rows_with "terraform-drift-detector" 1 (opportunities saved.2)) = 1%nat
  /\ length (evidence drift_detector) = 1%nat
  /\ map (fun e => (e_source e, e_item_title e, e_url e, e_score e))
       (evidence_with "terraform-drift-detector" 1 (opportunity_evidence saved.2))
     = [("github_issue", "Drift detection broken",
         "https://github.com/hashicorp/terraform/issues/123", 70);
        ("github_issue", "Drift detection broken",
         "https://github.com/hashicorp/terraform/issues/123", 70)].
Proof. vm_compute. repeat split. Qed.

End DbFacts.

(** ** The response parser *)

Module ParserFacts.
Import Py Models Engine Basics Scenarios Notions.

Lemma parse_opportunities_json_loaded json_loads raw_text json_str data :
  _extract_json_array raw_text = Ok json_str ->
  json_loads json_str = Ok data ->
  parse_opportunities_json json_loads raw_text = parse_loaded data.
Proof.
  intros He Hl. unfold parse_opportunities_json. rewrite He. cbn [bind].
  rewrite Hl. reflexivity.
Qed.

(** *** The loop as a verdict on each element *)

Lemma parse_loop_judged data :
  forall i vs opportunities all_errors,
    judge_all i data = Ok vs ->
    parse_loop i data opportunities all_errors
    = Ok (opportunities ++ accepted vs, all_errors ++ rejected vs).
Proof.
  induction data as [|item data IH]; intros i vs opps errs; cbn [judge_all parse_loop].
  - intros [= <-]. simpl. rewrite !app_nil_r. reflexivity.
  - intros H. apply bind_Ok in H as (v & Hv & H).
    apply bind_Ok in H as (vs' & Hvs & H). injection H as <-.
    assert (Hrej : forall line, v = Rejected line ->
              parse_loop (S i) data opps (errs ++ [line])
              = Ok (opps ++ accepted (v :: vs'), errs ++ rejected (v :: vs'))).
    { intros line ->. rewrite (IH _ _ _ _ Hvs). simpl. rewrite <- app_assoc. reflexivity. }
    destruct item as [| | | | | |d]; cbn [judge] in Hv;
      try (injection Hv as <-; apply Hrej; reflexivity).
    apply bind_Ok in Hv as (errors & He & Hv). rewrite He. cbn [bind].
    destruct errors as [|e errors].
    + apply bind_Ok in Hv as (opp & Ho & Hv). injection Hv as <-. rewrite Ho. cbn [bind].
      rewrite (IH _ _ _ _ Hvs). simpl. rewrite <- app_assoc. reflexivity.
    + injection Hv as <-. apply Hrej. reflexivity.
Qed.

Lemma judge_all_length data : forall i vs, judge_all i data = Ok vs -> length vs = length data.
Proof.
  induction data as [|item data IH]; intros i vs; cbn [judge_all].
  - intros [= <-]. reflexivity.
  - intros H. apply bind_Ok in H as (v & _ & H).
    apply bind_Ok in H as (vs' & Hvs & H). injection H as <-. simpl.
    rewrite (IH _ _ Hvs). reflexivity.
Qed.

(** The partial-acceptance policy, where validation and conversion raise on
    no element: the parser raises, listing a line for every element, exactly
    when the array is not empty and no element is accepted; otherwise it
    returns the accepted elements, converted, in order. *)
Lemma parse_loaded_partial_acceptance data vs :
  judge_all 0 data = Ok vs ->
  parse_loaded (PList data)
  = match accepted vs, rejected vs with
    | [], _ :: _ => Raise (all_failed (length data) (rejected vs))
    | opportunities, _ => Ok opportunities
    end
  /\ (accepted vs = [] -> length (rejected vs) = length data).
Proof.
  intros H. split.
  - unfold parse_loaded. rewrite (parse_loop_judged _ _ _ [] [] H). cbn [bind app].
    destruct (rejected vs), (accepted vs); reflexivity.
  - intros Ha. rewrite <- (judge_all_length _ _ _ H).
    clear H. induction vs as [|[opp|line] vs IH]; simpl in *; [reflexivity|discriminate|].
    rewrite IH; [reflexivity | exact Ha].
Qed.

(** *** What validation guarantees *)

Lemma filter_none {A} (f : A -> bool) (l : list A) x :
  List.filter f l = [] -> In x l -> f x = false.
Proof.
  induction l as [|y l IH]; simpl; [contradiction|].
  destruct (f y) eqn:E; [discriminate|]. intros H [<-|Hin]; auto.
Qed.

Lemma str_field_present d field :
  missing_or_empty d field = false -> exists s, str_field d field = Ok s.
Proof.
  unfold missing_or_empty, str_field.
  destruct (d !! field) as [[]|]; try discriminate. eauto.
Qed.

Lemma confidence_converts d :
  confidence_errors d = [] ->
  exists v z, d !! "confidence" = Some v /\ py_int v = Ok z.
Proof.
  unfold confidence_errors. destruct (d !! "confidence") as [v|]; [|discriminate].
  destruct v as [|b|z|[| [|] |q]|s|l|m]; simpl; try discriminate; intros H.
  - exists (PBool b). eexists. split; reflexivity.
  - exists (PInt z). eexists. split; reflexivity.
  - exists (PFloat (FFin q)). eexists. split; reflexivity.
Qed.

Lemma evidence_entry_converts i ev :
  evidence_entry_errors i ev = [] ->
  exists e source item_title url,
    ev = PDict e
    /\ str_field e "source" = Ok source
    /\ str_field e "item_title" = Ok item_title
    /\ str_field e "url" = Ok url.
Proof.
  destruct ev as [| | | | | |e]; try discriminate. cbn [evidence_entry_errors].
  intros H. apply map_eq_nil in H.
  destruct (str_field_present e "source") as [s1 H1];
    [apply (filter_none _ _ _ H); simpl; auto|].
  destruct (str_field_present e "item_title") as [s2 H2];
    [apply (filter_none _ _ _ H); simpl; auto|].
  destruct (str_field_present e "url") as [s3 H3];
    [apply (filter_none _ _ _ H); simpl; auto|].
  exists e, s1, s2, s3. auto.
Qed.

Lemma evidence_converts evs :
  forall i, evidence_entries_errors i evs = [] ->
  scores_convert evs ->
  exists evidence, to_evidence evs = Ok evidence.
Proof.
  induction evs as [|ev evs IH]; intros i; cbn [evidence_entries_errors to_evidence].
  - eauto.
  - intros H Hs. apply app_eq_nil in H as [Hev Hrest].
    apply Forall_cons in Hs as [Hz Hs].
    destruct (evidence_entry_converts _ _ Hev) as (e & s1 & s2 & s3 & -> & H1 & H2 & H3).
    destruct Hz as [z Hz]. destruct (IH _ Hrest Hs) as [evidence ->].
    cbn [to_evidence_ref]. rewrite H1, H2, H3. cbn [bind]. rewrite Hz. cbn [bind]. eauto.
Qed.

(** An object that passes validation becomes an [Opportunity] as soon as
    its evidence scores convert to integers: the scores are the one thing
    the conversion needs and validation does not check. *)
Lemma validated_converts d :
  _validate_opportunity_dict d = Ok [] ->
  exists evs,
    d !! "evidence" = Some (PList evs)
    /\ (scores_convert evs -> exists opp, to_opportunity d = Ok opp).
Proof.
  unfold _validate_opportunity_dict. intros H.
  apply bind_Ok in H as (effort & _ & H). apply Ok_inj in H.
  apply app_eq_nil in H as [H Hev]. apply app_eq_nil in H as [H _].
  apply app_eq_nil in H as [Hstr Hconf]. apply map_eq_nil in Hstr.
  unfold evidence_errors in Hev.
  destruct (d !! "evidence") as [[| | | | |evs|]|] eqn:Hd; try discriminate.
  destruct evs as [|ev evs]; [discriminate|].
  exists (ev :: evs). split; [reflexivity|]. intros Hs.
  destruct (evidence_converts _ _ Hev Hs) as [evidence Hevidence].
  destruct (confidence_converts _ Hconf) as (v & z & Hv & Hz).
  assert (Hf : forall field, In field required_str_fields ->
                 exists s, str_field d field = Ok s).
  { intros field Hin. apply str_field_present, (filter_none _ _ _ Hstr), Hin. }
  unfold to_opportunity. rewrite Hd. cbn [default from_option Datatypes.id].
  rewrite Hevidence. cbn [bind].
  destruct (Hf "id") as [? ->]; [simpl; tauto|]. cbn [bind].
  destruct (Hf "title") as [? ->]; [simpl; tauto|]. cbn [bind].
  destruct (Hf "pain") as [? ->]; [simpl; tauto|]. cbn [bind].
  destruct (Hf "target_buyer") as [? ->]; [simpl; tauto|]. cbn [bind].
  destruct (Hf "solution_shape") as [? ->]; [simpl; tauto|]. cbn [bind].
  destruct (Hf "market_type") as [? ->]; [simpl; tauto|]. cbn [bind].
  destruct (Hf "effort_estimate") as [? ->]; [simpl; tauto|]. cbn [bind].
  destruct (Hf "monetization") as [? ->]; [simpl; tauto|]. cbn [bind].
  destruct (Hf "moat") as [? ->]; [simpl; tauto|]. cbn [bind].
  rewrite Hv, Hz. cbn [bind]. eauto.
Qed.

(** C10. There is an array of two objects, the first valid in every respect,
    the second passing validation with an evidence [score] that is the text
    [high], on which the parser raises the error of [int] for the whole batch;
    on the first object alone it returns its opportunity. *)
Theorem unconvertible_score_fails_batch :
  exists (good bad ev : gmap string pyval) (opp : Opportunity),
    _validate_opportunity_dict good = Ok []
    /\ to_opportunity good = Ok opp
    /\ parse_loaded (PList [PDict good]) = Ok [opp]
    /\ _validate_opportunity_dict bad = Ok []
    /\ bad !! "evidence" = Some (PList [PDict ev])
    /\ ev !! "score" = Some (PStr "high")
    /\ py_int (PStr "high") = Raise invalid_literal_high
    /\ parse_loaded (PList [PDict good; PDict bad]) = Raise invalid_literal_high.
Proof.
  exists good_dict, bad_score_dict.
  eexists. exists good_opportunity.
  vm_compute. repeat split.
Qed.

(** C3, on the code.  Of three objects, the first valid, the second without
    its required fields, the third passing validation with an evidence score
    that is the text [high], the parser returns nothing: it raises the error
    of [int], although the first two alone give the first one's
    opportunity. *)
Theorem partial_acceptance_lost :
  _validate_opportunity_dict good_dict = Ok []
  /\ (exists reason reasons, _validate_opportunity_dict incomplete_dict = Ok (reason :: reasons))
  /\ _validate_opportunity_dict bad_score_dict = Ok []
  /\ parse_loaded (PList [PDict good_dict; PDict incomplete_dict]) = Ok [good_opportunity]
  /\ parse_loaded (PList [PDict good_dict; PDict incomplete_dict; PDict bad_score_dict])
     = Raise invalid_literal_high.
Proof.
  split; [vm_compute; reflexivity|].
  split; [eexists; eexists; vm_compute; reflexivity|].
  vm_compute. repeat split.
Qed.

End ParserFacts.

(** ** The repair loop *)

Module RepairFacts.
Import Py Models Db Engine Basics Scenarios Notions.

Section Protocol.

Variable json_loads : string -> result pyval.

Lemma store_opportunities_requests self t_digest t_run items opportunities :
  requests (store_opportunities self t_digest t_run items opportunities).2 = requests self.
Proof.
  unfold store_opportunities. destruct opportunities; [reflexivity|].
  destruct (save_opportunity_run _ _ _ _ _) as [[|e|] st]; reflexivity.
Qed.

(** C1, as amended.  In a cycle that has items, at most two completion calls
    are made, the first with the first request.  When the first call raises
    [LLMError] the cycle returns no result and sends no repair request.  When
    the first response does not parse (a [ValueError], which includes the
    decoding error), exactly one repair request follows, at temperature 0.1
    instead of 0.2, whose content holds the text of the error and the first
    500 characters of the first response; the parser is run on its response;
    when that call or that parse fails with an [LLMError] or a [ValueError],
    the cycle returns no result. *)
Theorem repair_protocol self t_items t_digest t_run items :
  get_items_last_n_days (_storage self) t_items 14 35 = items ->
  items <> [] ->
  let run := structured_opportunity_report json_loads self t_items t_digest t_run in
  let req1 := first_request items in
  (exists more, requests run.2 = requests self ++ req1 :: more /\ (length more <= 1)%nat)
  /\ (forall msg,
        _llm self (requests self) req1 = Raise (LLMError msg) ->
        run = (Ok None, after_requests self [req1]))
  /\ (forall response first_error,
        _llm self (requests self) req1 = Ok response ->
        parse_opportunities_json json_loads (text response) = Raise first_error ->
        is_ValueError first_error = true ->
        let req2 := repair_request first_error (text response) in
        requests run.2 = requests self ++ [req1; req2]
        /\ user_prompt req2
           = STRUCTURED_OPPORTUNITY_REPAIR (exn_str first_error) (take 500 (text response))
        /\ (temperature req2 < temperature req1)%Q
        /\ (forall second_error,
              _llm self (requests self ++ [req1]) req2 = Raise second_error ->
              caught_by_retry second_error = true ->
              run = (Ok None, after_requests self [req1; req2]))
        /\ (forall repair_response,
              _llm self (requests self ++ [req1]) req2 = Ok repair_response ->
              match parse_opportunities_json json_loads (text repair_response) with
              | Ok opportunities =>
                  run = store_opportunities (after_requests self [req1; req2])
                          t_digest t_run items opportunities
              | Raise second_error =>
                  caught_by_retry second_error = true ->
                  run = (Ok None, after_requests self [req1; req2])
              | Unmodelled => run = (Unmodelled, after_requests self [req1; req2])
              end)).
Proof.
  intros Hitems Hne. cbv zeta.
  unfold structured_opportunity_report. rewrite Hitems.
  destruct items as [|item items']; [contradiction|].
  set (items := item :: items') in *. clearbody items.
  unfold complete. cbn [_llm _storage requests fst snd].
  set (req1 := first_request items).
  assert (Hassoc : forall req2, (requests self ++ [req1]) ++ [req2]
                                = requests self ++ [req1; req2])
    by (intros; rewrite <- app_assoc; reflexivity).
  split; [|split].
  - destruct (_llm self (requests self) req1) as [response|e|].
    + destruct (parse_opportunities_json json_loads (text response)) as [opps|e1|].
      * exists []. rewrite store_opportunities_requests. auto.
      * destruct (is_ValueError e1).
        -- exists [repair_request e1 (text response)]. split; [|simpl; lia].
           cbn [_llm _storage requests].
           destruct (_llm self _ _) as [r2|e2|].
           ++ destruct (parse_opportunities_json json_loads (text r2)) as [opps|e2|].
              ** rewrite store_opportunities_requests. apply Hassoc.
              ** destruct (caught_by_retry e2); apply Hassoc.
              ** apply Hassoc.
           ++ destruct (caught_by_retry e2); apply Hassoc.
           ++ apply Hassoc.
        -- exists []. auto.
      * exists []. auto.
    + exists []. destruct (is_LLMError e); auto.
    + exists []. auto.
  - intros msg ->. reflexivity.
  - intros response e1 -> -> ->. cbv zeta. cbn [_llm _storage requests].
    set (req2 := repair_request e1 (text response)).
    split; [|split; [reflexivity|split; [reflexivity|split]]].
    + destruct (_llm self _ _) as [r2|e2|].
      * destruct (parse_opportunities_json json_loads (text r2)) as [opps|e2|].
        -- rewrite store_opportunities_requests. apply Hassoc.
        -- destruct (caught_by_retry e2); apply Hassoc.
        -- apply Hassoc.
      * destruct (caught_by_retry e2); apply Hassoc.
      * apply Hassoc.
    + intros e2 -> ->. unfold after_requests. rewrite Hassoc. reflexivity.
    + intros r2 ->. unfold after_requests. rewrite <- Hassoc.
      destruct (parse_opportunities_json json_loads (text r2)) as [opps|e2|].
      * reflexivity.
      * intros ->. reflexivity.
      * reflexivity.
Qed.

End Protocol.

(** The cycle on a provider that answers twice with prose: the first
    request, one repair request, and no result. *)
Lemma repair_protocol_witness :
  get_items_last_n_days store_with_item 0 14 35 = [set_score soc2_discussion 65]
  /\ [set_score soc2_discussion 65] <> []
  /\ let self := mkSynthesizer prose_provider store_with_item [] in
     let run := structured_opportunity_report rejecting_loader self 0 0 0 in
     run.1 = Ok None
     /\ requests run.2
        = [first_request [set_score soc2_discussion 65];
           repair_request
             (ValueError [Lit "No JSON array found in response"])
             "I could not find any opportunity."].
Proof.
  assert (Hitems : get_items_last_n_days store_with_item 0 14 35
                   = [set_score soc2_discussion 65]) by reflexivity.
  assert (Hne : [set_score soc2_discussion 65] <> []) by discriminate.
  split; [exact Hitems|]. split; [exact Hne|].
  pose (self := mkSynthesizer prose_provider store_with_item []).
  destruct (repair_protocol rejecting_loader self 0 0 0 _ Hitems Hne) as (_ & _ & H).
  destruct (H (mkLLMResponse "I could not find any opportunity." 1200 9 "m")
              (ValueError [Lit "No JSON array found in response"])
              eq_refl eq_refl eq_refl) as (Hreq & _ & _ & _ & Hsecond).
  specialize (Hsecond (mkLLMResponse "I could not find any opportunity." 1200 9 "m") eq_refl).
  cbv zeta. split.
  - change (parse_opportunities_json rejecting_loader
              (text (mkLLMResponse "I could not find any opportunity." 1200 9 "m")))
      with (@Raise (list Opportunity) (ValueError [Lit "No JSON array found in response"]))
      in Hsecond.
    exact (f_equal fst (Hsecond eq_refl)).
  - exact Hreq.
Defined.

(** C1, the claim as written fails: when the first completion call raises
    [LLMError], the cycle returns no result after that one request; no
    repair request is sent. *)
Lemma no_repair_after_completion_error :
  let self := mkSynthesizer failing_provider store_with_item [] in
  let run := structured_opportunity_report rejecting_loader self 0 0 0 in
  _llm self [] (first_request [set_score soc2_discussion 65])
  = Raise (LLMError [Lit "Claude API error: "; Lit "timeout"])
  /\ run.1 = Ok None
  /\ requests run.2 = [first_request [set_score soc2_discussion 65]].
Proof. cbv zeta. split; [reflexivity|]. split; reflexivity. Qed.

End RepairFacts.

(** * Further properties *)

(** ** The scorer: dead patterns, bounds, the filter *)

Module ScorerMore.
Import Py Regex Models Scorer Scenarios Notions Basics ScorerFacts ScorerNotions.

(** *** Patterns that cannot match *)

Lemma lower_char_not_upper c : upper_code (code (lower_char c)) = false.
Proof. destruct c as [[] [] [] [] [] [] [] []]; vm_compute; reflexivity. Qed.

Lemma lower_no_upper s : no_upper (lower s) = true.
Proof.
  induction s as [|c s IH]; simpl; [reflexivity|].
  rewrite lower_char_not_upper, IH. reflexivity.
Qed.

Lemma no_upper_drop n s : no_upper s = true -> no_upper (drop n s) = true.
Proof.
  revert s. induction n as [|n IH]; intros [|c s]; simpl; auto.
  intros H. apply andb_prop in H as [_ H]. apply IH, H.
Qed.

(** The continuation of a match is called on what is left of the text. *)
Lemma matches_continues r :
  forall prev s k, matches r prev s k = true ->
  exists p' n, k p' (drop n s) = true.
Proof.
  induction r as [|c| |items| | |a IHa b IHb|a IHa b IHb|a IHa lo hi];
    intros prev s k H; cbn [matches] in H.
  - exists prev, 0%nat. exact H.
  - destruct s as [|x rest]; [discriminate|].
    destruct (code x =? c)%N; [|discriminate]. exists (Some x), 1%nat. exact H.
  - destruct s as [|x rest]; [discriminate|].
    destruct (code x =? 10)%N; [discriminate|]. exists (Some x), 1%nat. exact H.
  - destruct s as [|x rest]; [discriminate|].
    destruct (existsb _ _); [|discriminate]. exists (Some x), 1%nat. exact H.
  - destruct (xorb _ _); [|discriminate]. exists prev, 0%nat. exact H.
  - destruct s as [|x [|y rest]].
    + exists prev, 0%nat. exact H.
    + destruct (code x =? 10)%N; [|discriminate]. exists prev, 0%nat. exact H.
    + discriminate.
  - apply IHa in H as (p1 & n1 & H). apply IHb in H as (p2 & n2 & H).
    exists p2, (n1 + n2)%nat.
    replace (drop (n1 + n2) s) with (drop n2 (drop n1 s)); [exact H|].
    clear. revert s. induction n1 as [|n1 IH]; intros s; simpl.
    + reflexivity.
    + destruct s as [|c s]; simpl; [destruct n2; reflexivity | apply IH].
  - destruct (matches a prev s k) eqn:Ha.
    + apply IHa in Ha. exact Ha.
    + apply IHb in H. exact H.
  - revert H. generalize (String.length s + lo)%nat as fuel.
    generalize 0%nat as done. intros done fuel. revert done prev s.
    induction fuel as [|fuel IH]; intros done prev s H.
    + destruct (lo <=? done)%nat; [|discriminate].
      destruct (k prev s) eqn:Hk; [|discriminate]. exists prev, 0%nat. exact Hk.
    + destruct (if (lo <=? done)%nat then k prev s else false) eqn:Hk.
      * destruct (lo <=? done)%nat; [|discriminate]. exists prev, 0%nat. exact Hk.
      * destruct (may_repeat done hi); [|discriminate].
        apply IHa in H as (p1 & n1 & H).
        destruct (_ || _); [|discriminate].
        apply IH in H as (p2 & n2 & H). exists p2, (n1 + n2)%nat.
        replace (drop (n1 + n2) s) with (drop n2 (drop n1 s)); [exact H|].
        clear. revert s. induction n1 as [|n1 IH]; intros s; simpl.
        -- reflexivity.
        -- destruct s as [|c s]; simpl; [destruct n2; reflexivity | apply IH].
Qed.

Lemma needs_upper_no_match r :
  needs_upper r = true ->
  forall prev s k, no_upper s = true -> matches r prev s k = false.
Proof.
  induction r as [|c| |items| | |a IHa b IHb|a IHa b IHb|a IHa lo hi];
    cbn [needs_upper]; intros Hr prev s k Hs; try discriminate; cbn [matches].
  - destruct s as [|x rest]; [reflexivity|]. simpl in Hs.
    destruct (code x =? c)%N eqn:E; [|reflexivity].
    apply N.eqb_eq in E. subst c. rewrite Hr in Hs. discriminate.
  - destruct s as [|x rest]; [reflexivity|]. simpl in Hs.
    apply andb_prop in Hs as [Hx _].
    replace (existsb (class_item_matches x) items) with false; [reflexivity|].
    symmetry. clear -Hr Hx. induction items as [|i items IH]; simpl; [reflexivity|].
    simpl in Hr. apply andb_prop in Hr as [Hi Hr]. rewrite (IH Hr), orb_false_r.
    destruct i; try discriminate. simpl.
    destruct (code x =? c)%N eqn:E; [|reflexivity].
    apply N.eqb_eq in E. subst c. rewrite Hi in Hx. discriminate.
  - apply orb_prop in Hr as [Hr|Hr].
    + apply IHa; assumption.
    + destruct (matches a prev s _) eqn:H; [|reflexivity].
      apply matches_continues in H as (p1 & n1 & H).
      rewrite (IHb Hr) in H; [discriminate|]. apply no_upper_drop, Hs.
  - apply andb_prop in Hr as [Ha Hb].
    rewrite (IHa Ha), (IHb Hb) by assumption. reflexivity.
  - apply andb_prop in Hr as [Hlo Ha]. apply Nat.ltb_lt in Hlo.
    assert (Hfuel : (String.length s + lo)%nat = S (String.length s + lo - 1)) by lia.
    rewrite Hfuel.
    replace (lo <=? 0)%nat with false by (symmetry; apply Nat.leb_gt; lia).
    destruct (may_repeat 0 hi); [|reflexivity].
    apply IHa; assumption.
Qed.

Lemma needs_upper_no_search r s :
  needs_upper r = true -> no_upper s = true -> forall prev, search_from r prev s = false.
Proof.
  intros Hr. induction s as [|c s IH]; intros Hs prev; cbn [search_from];
    rewrite (needs_upper_no_match r Hr) by exact Hs.
  - reflexivity.
  - simpl in Hs. apply andb_prop in Hs as [_ Hs]. apply IH, Hs.
Qed.

Lemma dead_never_matches entry text :
  dead entry = true -> re_search entry.1 (lower text) = Ok false.
Proof.
  unfold dead, re_search. destruct (parse entry.1) as [r|]; [|discriminate].
  intros Hr. unfold search. rewrite needs_upper_no_search; auto using lower_no_upper.
Qed.

Lemma apply_patterns_live patterns text total :
  apply_patterns patterns (lower text) total
  = apply_patterns (live patterns) (lower text) total.
Proof.
  revert total. induction patterns as [|[p d] rest IH]; intros total;
    cbn [apply_patterns live List.filter]; [reflexivity|].
  fold (live rest). destruct (dead (p, d)) eqn:Hd; cbn [negb].
  - pose proof (dead_never_matches (p, d) text Hd) as E. cbn [fst] in E.
    rewrite E. cbn [bind]. apply IH.
  - cbn [apply_patterns]. destruct (re_search p (lower text)) as [hit| |]; cbn [bind];
      [apply IH | reflexivity | reflexivity].
Qed.


Lemma three_passes_live high enterprise low text :
  bind (apply_patterns high (lower text) 0) (fun total =>
  bind (apply_patterns enterprise (lower text) total) (fun total =>
  apply_patterns low (lower text) total))
  = bind (apply_patterns (live high) (lower text) 0) (fun total =>
    bind (apply_patterns (live enterprise) (lower text) total) (fun total =>
    apply_patterns (live low) (lower text) total)).
Proof.
  rewrite (apply_patterns_live high).
  destruct (apply_patterns (live high) (lower text) 0) as [a| |];
    cbn [bind]; [|reflexivity|reflexivity].
  rewrite (apply_patterns_live enterprise).
  destruct (apply_patterns (live enterprise) (lower text) a) as [b| |];
    cbn [bind]; [|reflexivity|reflexivity].
  apply apply_patterns_live.
Qed.

Lemma _pattern_score_live text : _pattern_score text = live_pattern_score text.
Proof. exact (three_passes_live _ _ _ text). Qed.

Lemma dead_entries_never_match patterns text :
  Forall (fun entry => re_search entry.1 (lower text) = Ok false)
    (List.filter dead patterns).
Proof.
  apply List.Forall_forall. intros entry Hin. apply filter_In in Hin as [_ Hd].
  apply dead_never_matches, Hd.
Qed.

(** X1.  All 31 patterns written with an upper-case letter are dead: the text
    they are searched in was lower-cased and the search is case-sensitive.
    The pattern delta is the one of the tables without them. *)
Theorem upper_case_patterns_never_score text :
  (length (List.filter dead HIGH_SIGNAL_PATTERNS),
   length (List.filter dead ENTERPRISE_SIGNAL_PATTERNS),
   length (List.filter dead LOW_SIGNAL_PATTERNS)) = (1, 29, 1)%nat
  /\ Forall (fun entry => re_search entry.1 (lower text) = Ok false)
       (List.filter dead
          (HIGH_SIGNAL_PATTERNS ++ ENTERPRISE_SIGNAL_PATTERNS ++ LOW_SIGNAL_PATTERNS))
  /\ _pattern_score text = live_pattern_score text.
Proof.
  split; [vm_compute; reflexivity|]. split.
  - apply dead_entries_never_match.
  - apply _pattern_score_live.
Qed.

(** *** Bounds of the three deltas *)

Lemma apply_patterns_bounds patterns text total r :
  apply_patterns patterns text total = Ok r ->
  total + loss patterns <= r <= total + gain patterns.
Proof.
  revert total. induction patterns as [|[p d] rest IH]; intros total H;
    cbn [apply_patterns gain loss fold_right snd] in *.
  - injection H as <-. lia.
  - apply bind_Ok in H as (hit & _ & H). apply IH in H.
    fold (gain rest) (loss rest). destruct hit; lia.
Qed.

Lemma three_passes_bounds high enterprise low text lo hi :
  loss high + loss enterprise + loss low = lo ->
  gain high + gain enterprise + gain low = hi ->
  forall p,
    bind (apply_patterns high text 0) (fun total =>
    bind (apply_patterns enterprise text total) (fun total =>
    apply_patterns low text total)) = Ok p ->
    lo <= p <= hi.
Proof.
  intros <- <- p H.
  apply bind_Ok in H as (a & Ha & H). apply bind_Ok in H as (b & Hb & H).
  apply apply_patterns_bounds in Ha, Hb, H. lia.
Qed.

Lemma live_deltas :
  loss (live HIGH_SIGNAL_PATTERNS) + loss (live ENTERPRISE_SIGNAL_PATTERNS)
    + loss (live LOW_SIGNAL_PATTERNS) = -315
  /\ gain (live HIGH_SIGNAL_PATTERNS) + gain (live ENTERPRISE_SIGNAL_PATTERNS)
    + gain (live LOW_SIGNAL_PATTERNS) = 2064.
Proof. vm_compute. split; reflexivity. Qed.

Lemma live_pattern_score_bounds text :
  forall p, live_pattern_score text = Ok p -> -315 <= p <= 2064.
Proof.
  exact (three_passes_bounds (live HIGH_SIGNAL_PATTERNS)
           (live ENTERPRISE_SIGNAL_PATTERNS) (live LOW_SIGNAL_PATTERNS)
           (lower text) _ _ (proj1 live_deltas) (proj2 live_deltas)).
Qed.

(** X2.  The pattern delta of a text lies between the sum of the negative deltas
    and the sum of the positive deltas of the patterns that can match. *)
Theorem _pattern_score_bounds text p :
  _pattern_score text = Ok p -> -315 <= p <= 2064.
Proof.
  intros H. rewrite _pattern_score_live in H.
  exact (live_pattern_score_bounds text p H).
Qed.

Lemma capped_bucket_le v n cap d : capped_bucket v n cap = Ok d -> d <= cap.
Proof.
  destruct v as [|b|z|f|s|l|m]; simpl; intros H; try discriminate;
    injection H as <-; lia.
Qed.

Lemma capped_bucket_ge (m : gmap string pyval) key n cap d :
  (forall z, m !! key = Some (PInt z) -> 0 <= z) ->
  0 < n -> 0 <= cap ->
  capped_bucket (get m key (PInt 0)) n cap = Ok d -> 0 <= d.
Proof.
  unfold get. intros Hm Hn Hcap.
  destruct (m !! key) as [[|b|z|f|s|l|m']|] eqn:E; simpl; intros H;
    try discriminate; injection H as <-.
  - assert (0 <= (if b then 1 else 0) / n) by (apply Z.div_pos; destruct b; lia). lia.
  - assert (0 <= z / n) by (apply Z.div_pos; [apply Hm; reflexivity | lia]). lia.
  - assert (0 <= 0 / n) by (apply Z.div_pos; lia). lia.
Qed.

(** X3.  The engagement delta never exceeds the cap of the item's source, and
    when no integer of the metadata is negative it is not below zero (minus
    five for a release). *)
Theorem _engagement_score_bounds item e :
  _engagement_score item = Ok e ->
  e <= engagement_cap (source item)
  /\ (counts_nonnegative item -> engagement_floor (source item) <= e).
Proof.
  unfold _engagement_score, counts_nonnegative.
  destruct (source item); cbn [engagement_cap engagement_floor]; intros H.
  - destruct (truthy _); injection H as <-; lia.
  - apply bind_Ok in H as (d1 & H1 & H). apply bind_Ok in H as (d2 & H2 & H).
    apply bind_Ok in H as (b1 & _ & H). apply bind_Ok in H as (b2 & _ & H).
    pose proof (capped_bucket_le _ _ _ _ H1). pose proof (capped_bucket_le _ _ _ _ H2).
    split.
    + destruct b1, b2; injection H as <-; lia.
    + intros Hm.
      assert (0 <= d1) by (eapply capped_bucket_ge; [| | |exact H1]; eauto; lia).
      assert (0 <= d2) by (eapply capped_bucket_ge; [| | |exact H2]; eauto; lia).
      destruct b1, b2; injection H as <-; lia.
  - apply bind_Ok in H as (d1 & H1 & H). apply bind_Ok in H as (d2 & H2 & H).
    apply bind_Ok in H as (b0 & _ & H). apply bind_Ok in H as (c & _ & H).
    apply bind_Ok in H as (b2 & _ & H).
    pose proof (capped_bucket_le _ _ _ _ H1). pose proof (capped_bucket_le _ _ _ _ H2).
    split.
    + destruct b0, (str_in c high_signal_categories), b2; injection H as <-; lia.
    + intros Hm.
      assert (0 <= d1) by (eapply capped_bucket_ge; [| | |exact H1]; eauto; lia).
      assert (0 <= d2) by (eapply capped_bucket_ge; [| | |exact H2]; eauto; lia).
      destruct b0, (str_in c high_signal_categories), b2; injection H as <-; lia.
  - apply bind_Ok in H as (d1 & H1 & H). apply bind_Ok in H as (d2 & H2 & H).
    pose proof (capped_bucket_le _ _ _ _ H1). pose proof (capped_bucket_le _ _ _ _ H2).
    split.
    + destruct (truthy _); injection H as <-; lia.
    + intros Hm.
      assert (0 <= d1) by (eapply capped_bucket_ge; [| | |exact H1]; eauto; lia).
      assert (0 <= d2) by (eapply capped_bucket_ge; [| | |exact H2]; eauto; lia).
      destruct (truthy _); injection H as <-; lia.
  - injection H as <-. lia.
  - apply bind_Ok in H as ([] & _ & H); [injection H as <-; lia|].
    apply bind_Ok in H as ([] & _ & H); [injection H as <-; lia|].
    apply bind_Ok in H as ([] & _ & H); injection H as <-; lia.
Qed.

(** *** What the score is computed from *)

Lemma set_score_score item : set_score item (score item) = item.
Proof. destruct item; reflexivity. Qed.

Lemma score_item_of_content a b a' :
  same_content a b ->
  score_item a = Ok a' ->
  score_item b = Ok (set_score b (score a')).
Proof.
  intros (Hs & Ht & Hb & Hm) H.
  apply score_item_Ok in H as (p & e & Hp & He & ->).
  unfold score_item. rewrite <- Ht, <- Hb, Hp. cbn [bind].
  replace (_engagement_score b) with (_engagement_score a)
    by (unfold _engagement_score; rewrite Hs, Hm; reflexivity).
  rewrite He. cbn [bind]. unfold _body_quality_score. rewrite Hb. reflexivity.
Qed.

(** X4.  The score is computed from the source, the title, the body and the
    metadata only: an item that agrees with a scored one on these gets the
    same score, and all its other fields are kept. *)
Theorem score_item_reads_content a b a' :
  same_content a b ->
  score_item a = Ok a' ->
  score_item b = Ok (set_score b (score a')).
Proof. apply score_item_of_content. Qed.

Lemma score_item_again item item' : score_item item = Ok item' -> score_item item' = Ok item'.
Proof.
  intros H.
  assert (Hc : same_content item item').
  { apply score_item_Ok in H as (p & e & _ & _ & ->). repeat split. }
  rewrite (score_item_of_content _ _ _ Hc H). rewrite set_score_score. reflexivity.
Qed.

(** *** The filter *)

Lemma score_all_Forall2 items scored :
  score_all items = Ok scored ->
  Forall2 (fun item item' => score_item item = Ok item') items scored.
Proof.
  revert scored. induction items as [|x items IH]; cbn [score_all]; intros scored H.
  - injection H as <-. constructor.
  - apply bind_Ok in H as (x' & Hx & H). apply bind_Ok in H as (rest & Hrest & H).
    injection H as <-. constructor; [exact Hx | apply IH, Hrest].
Qed.

Lemma Forall2_score_all items scored :
  Forall2 (fun item item' => score_item item = Ok item') items scored ->
  score_all items = Ok scored.
Proof.
  induction 1 as [|x x' items scored Hx _ IH]; cbn [score_all]; [reflexivity|].
  rewrite Hx. cbn [bind]. rewrite IH. reflexivity.
Qed.

Lemma score_desc_total a b : score_desc a b = true \/ score_desc b a = true.
Proof. unfold score_desc. destruct (Z.leb_spec (score b) (score a)); [left|right]; [reflexivity|]. apply Z.leb_le. lia. Qed.

Lemma score_desc_trans a b c :
  score_desc a b = true -> score_desc b c = true -> score_desc a c = true.
Proof. unfold score_desc. rewrite !Z.leb_le. lia. Qed.

Lemma filter_length_le {A} (f : A -> bool) (l : list A) :
  (length (List.filter f l) <= length l)%nat.
Proof. induction l as [|x l IH]; simpl; [lia|]. destruct (f x); simpl; lia. Qed.

(** X5.  What [filter_items] returns is in descending order of score, holds only
    items whose score is at least the threshold and at most 100, and is no
    longer than its input. *)
Theorem filter_items_sorted items threshold kept :
  filter_items items threshold = Ok kept ->
  StronglySorted (fun a b => score b <= score a) kept
  /\ Forall (fun item => threshold <= score item <= 100) kept
  /\ (length kept <= length items)%nat.
Proof.
  intros H. apply filter_items_Ok in H as (scored & Hs & ->).
  pose proof (score_all_Forall2 _ _ Hs) as H2.
  split; [|split].
  - pose proof (sort_by_sorted score_desc score_desc_total score_desc_trans
                  (List.filter (fun item => threshold <=? score item) scored)) as Hsorted.
    induction Hsorted as [|x l Hl IH Hx]; constructor; [exact IH|].
    eapply List.Forall_impl; [|exact Hx]. intros y Hy. apply Z.leb_le, Hy.
  - apply List.Forall_forall. intros item Hin. apply In_sort_by in Hin.
    apply filter_In in Hin as [Hin Hge]. apply Z.leb_le in Hge. split; [exact Hge|].
    clear -H2 Hin. induction H2 as [|x x' items scored Hx _ IH]; [contradiction|].
    destruct Hin as [<-|Hin]; [|apply IH, Hin].
    apply score_item_Ok in Hx as (p & e & _ & _ & ->). simpl. lia.
  - rewrite (Permutation_length (sort_by_Permutation _ _)).
    apply Forall2_length in H2. rewrite H2. apply filter_length_le.
Qed.

Lemma scoring_insert_by s x l :
  scoring s (insert_by score_desc x l) = scoring s (x :: l).
Proof.
  induction l as [|y l IH]; [reflexivity|].
  cbn [insert_by]. destruct (score_desc x y) eqn:Hxy; [reflexivity|].
  unfold scoring in *. cbn [List.filter] in *. rewrite IH.
  unfold score_desc in Hxy. apply Z.leb_gt in Hxy.
  destruct (score y =? s) eqn:Hy, (score x =? s) eqn:Hx; try reflexivity.
  apply Z.eqb_eq in Hy, Hx. lia.
Qed.

Lemma scoring_sort_by s l : scoring s (sort_by score_desc l) = scoring s l.
Proof.
  induction l as [|x l IH]; [reflexivity|].
  cbn [sort_by]. rewrite scoring_insert_by. unfold scoring in *.
  cbn [List.filter]. rewrite IH. reflexivity.
Qed.

Lemma scoring_above threshold s l :
  scoring s (List.filter (fun item => threshold <=? score item) l)
  = if threshold <=? s then scoring s l else [].
Proof.
  unfold scoring. induction l as [|x l IH]; cbn [List.filter].
  - destruct (threshold <=? s); reflexivity.
  - destruct (threshold <=? score x) eqn:Hx; cbn [List.filter]; rewrite IH;
      destruct (score x =? s) eqn:Hs; try reflexivity.
    + apply Z.eqb_eq in Hs. subst s. rewrite Hx. reflexivity.
    + apply Z.eqb_eq in Hs. subst s. rewrite Hx. reflexivity.
Qed.

(** X6.  The sort of [filter_items] is stable, and nothing is lost or made up:
    for each score that reaches the threshold, the kept items of that score
    are the scored input items of that score, in the order of the input. *)
Theorem filter_items_stable items threshold kept :
  filter_items items threshold = Ok kept ->
  exists scored,
    Forall2 (fun item item' => score_item item = Ok item') items scored
    /\ forall s, scoring s kept = if threshold <=? s then scoring s scored else [].
Proof.
  intros H. apply filter_items_Ok in H as (scored & Hs & ->).
  exists scored. split; [apply score_all_Forall2, Hs|].
  intros s. rewrite scoring_sort_by. apply scoring_above.
Qed.

Lemma sort_by_sorted_id {A} (le : A -> A -> bool) (l : list A) :
  StronglySorted (fun a b => le a b = true) l -> sort_by le l = l.
Proof.
  induction 1 as [|x l Hl IH Hx]; [reflexivity|].
  cbn [sort_by]. rewrite IH. destruct Hx as [|y l' Hy _]; [reflexivity|].
  cbn [insert_by]. rewrite Hy. reflexivity.
Qed.

Lemma filter_all {A} (f : A -> bool) (l : list A) :
  Forall (fun x => f x = true) l -> List.filter f l = l.
Proof.
  induction 1 as [|x l Hx _ IH]; cbn [List.filter]; [reflexivity|].
  rewrite Hx, IH. reflexivity.
Qed.

Lemma score_all_again items scored :
  score_all items = Ok scored -> Forall (fun item => score_item item = Ok item) scored.
Proof.
  intros H. apply score_all_Forall2 in H.
  induction H as [|x x' items scored Hx _ IH]; constructor; [|exact IH].
  apply score_item_again in Hx. exact Hx.
Qed.

Lemma score_all_fixed l :
  Forall (fun item => score_item item = Ok item) l -> score_all l = Ok l.
Proof.
  induction 1 as [|x l Hx _ IH]; cbn [score_all]; [reflexivity|].
  rewrite Hx. cbn [bind]. rewrite IH. reflexivity.
Qed.

(** X7.  Filtering what [filter_items] returned, at the same threshold, returns
    it unchanged. *)
Theorem filter_items_idempotent items threshold kept :
  filter_items items threshold = Ok kept ->
  filter_items kept threshold = Ok kept.
Proof.
  intros H. apply filter_items_Ok in H as (scored & Hs & ->).
  set (filtered := List.filter (fun item => threshold <=? score item) scored).
  assert (Hfix : Forall (fun item => score_item item = Ok item) (sort_by score_desc filtered)).
  { apply List.Forall_forall. intros item Hin. apply In_sort_by in Hin.
    apply filter_In in Hin as [Hin _].
    pose proof (score_all_again _ _ Hs) as Hall.
    rewrite List.Forall_forall in Hall. apply Hall, Hin. }
  unfold filter_items. rewrite (score_all_fixed _ Hfix). cbn [bind]. f_equal.
  rewrite filter_all.
  - apply sort_by_sorted_id. apply sort_by_sorted.
    + apply score_desc_total.
    + apply score_desc_trans.
  - apply List.Forall_forall. intros item Hin. apply In_sort_by in Hin.
    apply filter_In in Hin as [_ Hge]. exact Hge.
Qed.

End ScorerMore.

Module ScorerMoreExamples.
Import Py Regex Models Scorer Scenarios Notions ScorerNotions ScorerMore MoreScenarios.

(** The one dead pattern of the first table and the one of the last. *)
Lemma dead_patterns_listed :
  map fst (List.filter dead HIGH_SIGNAL_PATTERNS) = ["\bCVE-\d{4}"]
  /\ map fst (List.filter dead LOW_SIGNAL_PATTERNS) = ["\bshow\s+HN\b"]
  /\ _pattern_score "CVE-2024-0001 HIPAA GDPR SOC 2 RBAC SBOM" = Ok 0.
Proof. vm_compute. repeat split; reflexivity. Qed.

Lemma _pattern_score_bounds_witness :
  _pattern_score "post-mortem of the outage" = Ok 50 /\ -315 <= 50 <= 2064.
Proof.
  assert (H : _pattern_score "post-mortem of the outage" = Ok 50)
    by (vm_compute; reflexivity).
  split; [exact H | exact (_pattern_score_bounds _ _ H)].
Defined.

Lemma _engagement_score_bounds_witness :
  _engagement_score loud_issue = Ok 50
  /\ 50 <= engagement_cap (source loud_issue)
  /\ engagement_floor (source loud_issue) <= 50.
Proof.
  assert (H : _engagement_score loud_issue = Ok 50) by (vm_compute; reflexivity).
  split; [exact H|].
  destruct (_engagement_score_bounds _ _ H) as [Hcap Hfloor].
  split; [exact Hcap|]. apply Hfloor.
  intros key z. unfold loud_issue. cbn [metadata].
  destruct (decide (key = "reactions")) as [->|?];
    [rewrite lookup_insert; intros [= <-]; lia | rewrite lookup_insert_ne by congruence].
  destruct (decide (key = "comments")) as [->|?];
    [rewrite lookup_insert; intros [= <-]; lia | rewrite lookup_insert_ne by congruence].
  destruct (decide (key = "labels")) as [->|?];
    [rewrite lookup_insert; discriminate | rewrite lookup_insert_ne by congruence].
  rewrite lookup_empty. discriminate.
Defined.

Lemma score_item_reads_content_witness :
  same_content soc2_discussion soc2_discussion_again
  /\ score_item soc2_discussion = Ok (set_score soc2_discussion 65)
  /\ score_item soc2_discussion_again = Ok (set_score soc2_discussion_again 65).
Proof.
  assert (Hc : same_content soc2_discussion soc2_discussion_again)
    by (repeat split).
  assert (H : score_item soc2_discussion = Ok (set_score soc2_discussion 65))
    by (vm_compute; reflexivity).
  split; [exact Hc|]. split; [exact H|].
  exact (score_item_reads_content _ _ _ Hc H).
Defined.

Lemma filter_items_sorted_witness :
  filter_items scenario_A_batch 40
  = Ok [set_score soc2_discussion 65; set_score release_note 45]
  /\ StronglySorted (fun a b => score b <= score a)
       [set_score soc2_discussion 65; set_score release_note 45]
  /\ Forall (fun item => 40 <= score item <= 100)
       [set_score soc2_discussion 65; set_score release_note 45]
  /\ (length [set_score soc2_discussion 65; set_score release_note 45]
      <= length scenario_A_batch)%nat.
Proof.
  assert (H : filter_items scenario_A_batch 40
              = Ok [set_score soc2_discussion 65; set_score release_note 45])
    by (vm_compute; reflexivity).
  split; [exact H | exact (filter_items_sorted _ _ _ H)].
Defined.

Lemma filter_items_stable_witness :
  filter_items [plain_issue; feed_entry] 0
  = Ok [set_score plain_issue 10; set_score feed_entry 10]
  /\ exists scored,
       Forall2 (fun item item' => score_item item = Ok item')
         [plain_issue; feed_entry] scored
       /\ forall s,
            scoring s [set_score plain_issue 10; set_score feed_entry 10]
            = if 0 <=? s then scoring s scored else [].
Proof.
  assert (H : filter_items [plain_issue; feed_entry] 0
              = Ok [set_score plain_issue 10; set_score feed_entry 10])
    by (vm_compute; reflexivity).
  split; [exact H | exact (filter_items_stable _ _ _ H)].
Defined.

Lemma filter_items_idempotent_witness :
  filter_items scenario_A_batch 40
  = Ok [set_score soc2_discussion 65; set_score release_note 45]
  /\ filter_items [set_score soc2_discussion 65; set_score release_note 45] 40
     = Ok [set_score soc2_discussion 65; set_score release_note 45].
Proof.
  assert (H : filter_items scenario_A_batch 40
              = Ok [set_score soc2_discussion 65; set_score release_note 45])
    by (vm_compute; reflexivity).
  split; [exact H | exact (filter_items_idempotent _ _ _ H)].
Defined.

End ScorerMoreExamples.

(** ** What extraction returns *)

Module ExtractMore.
Import Py Engine Basics Notions ExtractFacts.

(** *** Parts of a text without fence *)

Lemma startswith_take p n s : startswith p (take n s) = true -> startswith p s = true.
Proof.
  revert n s. induction p as [|a p IH]; intros n s; [reflexivity|].
  destruct n as [|n], s as [|b s]; simpl; try discriminate.
  intros H. apply andb_prop in H as [-> H]. apply (IH n s H).
Qed.

Lemma has_fence_take n s : has_fence s = false -> has_fence (take n s) = false.
Proof.
  revert n. induction s as [|c s IH]; intros [|n] H; try reflexivity.
  cbn [has_fence] in H. apply orb_false_elim in H as [H0 H].
  cbn [take has_fence]. rewrite (IH n H), orb_false_r.
  destruct (startswith "```" (String c (take n s))) eqn:E; [|reflexivity].
  apply (startswith_take "```" (S n) (String c s)) in E. congruence.
Qed.

Lemma has_fence_drop n s : has_fence s = false -> has_fence (drop n s) = false.
Proof.
  revert s. induction n as [|n IH]; intros s H; [destruct s; exact H|].
  destruct s as [|c s]; [exact H|]. cbn [has_fence] in H.
  apply orb_false_elim in H as [_ H]. apply IH, H.
Qed.

Lemma lstrip_by_drop space s : exists n, lstrip_by space s = drop n s.
Proof.
  induction s as [|c s [n IH]]; [exists 0%nat; reflexivity|].
  simpl. destruct (space c); [exists (S n); exact IH | exists 0%nat; reflexivity].
Qed.

Lemma rstrip_by_take space s : exists n, rstrip_by space s = take n s.
Proof.
  induction s as [|c s [n IH]]; [exists 0%nat; reflexivity|].
  simpl. rewrite IH. destruct (take n s) eqn:E.
  - destruct (space c); [exists 0%nat; reflexivity | exists 1%nat; destruct s; reflexivity].
  - exists (S n). simpl. rewrite E. reflexivity.
Qed.

Lemma has_fence_strip s : has_fence s = false -> has_fence (strip s) = false.
Proof.
  intros H. unfold strip, lstrip, rstrip.
  destruct (lstrip_by_drop isspace s) as [n ->].
  destruct (rstrip_by_take isspace (drop n s)) as [m ->].
  apply has_fence_take, has_fence_drop, H.
Qed.

(** *** What is left after the fences are removed *)

(** A backtick that does not open a fence is not followed by two backticks
    in the output either. *)
Lemma sub_fences_no_new_fence c rest :
  startswith "```" (String c rest) = false ->
  startswith "```" (String c (sub_fences 0 false rest)) = false.
Proof.
  destruct (Ascii.eqb_spec "`" c) as [<-|Hc];
    [|intros _; cbn [startswith]; rewrite (proj2 (Ascii.eqb_neq _ _) Hc); reflexivity].
  destruct rest as [|d r2]; [reflexivity|].
  destruct (Ascii.eqb_spec "`" d) as [<-|Hd].
  - destruct r2 as [|e r3]; [reflexivity|].
    destruct (Ascii.eqb_spec "`" e) as [<-|He]; [discriminate|]. intros _.
    apply Ascii.eqb_neq in He.
    cbn [sub_fences startswith andb]. rewrite !Ascii.eqb_refl, !He. cbn [andb].
    destruct r3 as [|f r4]; cbn [sub_fences startswith andb];
      rewrite ?Ascii.eqb_refl, ?He; cbn [andb]; rewrite ?He; reflexivity.
  - intros _. apply Ascii.eqb_neq in Hd.
    cbn [sub_fences startswith andb]. rewrite !Ascii.eqb_refl, !Hd. cbn [andb].
    rewrite ?Hd. reflexivity.
Qed.

Lemma sub_fences_has_no_fence s :
  forall skip in_space, has_fence (sub_fences skip in_space s) = false.
Proof.
  induction s as [|c s IH]; intros skip in_space; [reflexivity|].
  cbn [sub_fences]. destruct skip; [|apply IH].
  destruct (in_space && isspace c); [apply IH|].
  destruct (startswith "```json" (String c s)); [apply IH|].
  destruct (startswith "```" (String c s)) eqn:Hf; [apply IH|].
  cbn [has_fence]. rewrite IH, orb_false_r.
  apply sub_fences_no_new_fence, Hf.
Qed.

(** *** The bracket scan *)

Lemma find_drop c s n : find c s = Some n -> exists rest, drop n s = String c rest.
Proof.
  revert n. induction s as [|x s IH]; intros n; simpl; [discriminate|].
  destruct (Ascii.eqb x c) eqn:E.
  - intros [= <-]. apply Ascii.eqb_eq in E as ->. eauto.
  - destruct (find c s) as [m|]; [|discriminate]. intros [= <-]. simpl. apply IH. reflexivity.
Qed.

Lemma bracket_end_take u :
  forall depth n, bracket_end u depth = Some n ->
  bracket_end (take n u) depth = Some n /\ String.length (take n u) = n.
Proof.
  induction u as [|c u IH]; intros depth n; simpl; [discriminate|].
  assert (Hrec : forall d, option_map S (bracket_end u d) = Some n ->
            exists m, n = S m /\ bracket_end (take m u) d = Some m
                      /\ String.length (take m u) = m).
  { intros d H. destruct (bracket_end u d) as [m|] eqn:E; [|discriminate].
    injection H as <-. exists m. split; [reflexivity | apply IH, E]. }
  destruct (Ascii.eqb c "[") eqn:Ho.
  - intros H. apply Hrec in H as (m & -> & Hm & Hl). simpl. rewrite Ho, Hm, Hl. tauto.
  - destruct (Ascii.eqb c "]") eqn:Hc.
    + destruct (depth - 1 =? 0) eqn:Hd.
      * intros [= <-]. simpl. rewrite Ho, Hc, Hd. destruct u; tauto.
      * intros H. apply Hrec in H as (m & -> & Hm & Hl). simpl.
        rewrite Ho, Hc, Hd, Hm, Hl. tauto.
    + intros H. apply Hrec in H as (m & -> & Hm & Hl). simpl.
      rewrite Ho, Hc, Hm, Hl. tauto.
Qed.

Lemma extract_Ok text a :
  _extract_json_array text = Ok a ->
  startswith "[" a = true
  /\ bracket_end a 0 = Some (String.length a)
  /\ has_fence a = false.
Proof.
  unfold _extract_json_array.
  set (t := strip (sub_fences 0 false text)).
  assert (Ht : has_fence t = false) by apply has_fence_strip, sub_fences_has_no_fence.
  destruct (find "[" t) as [start|] eqn:Hfind; [|discriminate].
  destruct (bracket_end (drop start t) 0) as [len|] eqn:Hend; [|discriminate].
  intros [= <-].
  destruct (find_drop _ _ _ Hfind) as [rest Hrest].
  destruct (bracket_end_take _ _ _ Hend) as [Hb Hl].
  split; [|split].
  - rewrite Hrest in *. destruct len; [|reflexivity].
    simpl in Hend. destruct (bracket_end rest 1); discriminate.
  - rewrite Hl. exact Hb.
  - apply has_fence_take, has_fence_drop, Ht.
Qed.

(** X8.  What extraction returns starts with an opening bracket, which its last
    character, a closing bracket, closes, and holds no fence. *)
Theorem extract_shape text a :
  _extract_json_array text = Ok a ->
  startswith "[" a = true
  /\ bracket_end a 0 = Some (String.length a)
  /\ (exists b, a = b +:+ "]")
  /\ has_fence a = false.
Proof.
  intros H. apply extract_Ok in H as (Ho & Hb & Hf).
  split; [exact Ho|]. split; [exact Hb|]. split; [|exact Hf].
  apply (bracket_end_whole _ _ Hb).
Qed.

(** X9.  Extraction is idempotent: from the text it returned it returns the
    same text. *)
Theorem extract_idempotent text a :
  _extract_json_array text = Ok a -> _extract_json_array a = Ok a.
Proof.
  intros H. apply extract_Ok in H as (Ho & Hb & Hf).
  pose proof (extract_in_context EmptyString a EmptyString Ho Hb Hf eq_refl) as E.
  rewrite append_nil, append_empty_r in E. exact E.
Qed.

Lemma extract_shape_witness :
  _extract_json_array (fence_wrap "[[1, 2], [3]]") = Ok "[[1, 2], [3]]"
  /\ startswith "[" "[[1, 2], [3]]" = true
  /\ bracket_end "[[1, 2], [3]]" 0 = Some (String.length "[[1, 2], [3]]")
  /\ (exists b, "[[1, 2], [3]]" = b +:+ "]")
  /\ has_fence "[[1, 2], [3]]" = false.
Proof.
  assert (H : _extract_json_array (fence_wrap "[[1, 2], [3]]") = Ok "[[1, 2], [3]]")
    by (vm_compute; reflexivity).
  split; [exact H | exact (extract_shape _ _ H)].
Defined.

Lemma extract_idempotent_witness :
  _extract_json_array ("Results [2 found]: " +:+ "[1]") = Ok "[2 found]"
  /\ _extract_json_array "[2 found]" = Ok "[2 found]".
Proof.
  assert (H : _extract_json_array ("Results [2 found]: " +:+ "[1]") = Ok "[2 found]")
    by (vm_compute; reflexivity).
  split; [exact H | exact (extract_idempotent _ _ H)].
Defined.

End ExtractMore.

(** ** What validation accepts and the parser builds *)

Module ParserMore.
Import Py Models Engine Basics Scenarios Notions ParserFacts ParserNotions.

(** *** The objects validation accepts *)

Lemma missing_or_empty_nonblank d field :
  missing_or_empty d field = false <-> nonblank (d !! field).
Proof.
  unfold missing_or_empty, nonblank. split.
  - destruct (d !! field) as [[| | | |s| |]|]; try discriminate.
    intros H. exists s. split; [reflexivity|]. intros E. rewrite E in H. discriminate.
  - intros (s & -> & Hs). destruct (String.eqb_spec (strip s) EmptyString); congruence.
Qed.

Lemma filter_nil_Forall {A} (f : A -> bool) (l : list A) :
  List.filter f l = [] <-> Forall (fun x => f x = false) l.
Proof.
  induction l as [|x l IH]; simpl; [split; [constructor | reflexivity]|].
  destruct (f x) eqn:E; split.
  - discriminate.
  - intros H. apply Forall_cons in H as [H _]. congruence.
  - intros H. constructor; [exact E | apply IH, H].
  - intros H. apply Forall_cons in H as [_ H]. apply IH, H.
Qed.

Lemma no_missing_fields d fields :
  List.filter (missing_or_empty d) fields = []
  <-> Forall (fun field => nonblank (d !! field)) fields.
Proof.
  rewrite filter_nil_Forall. split; intros H; eapply List.Forall_impl; try exact H;
    intros field; apply missing_or_empty_nonblank.
Qed.

Lemma confidence_errors_in_range d :
  confidence_errors d = [] <-> in_range (d !! "confidence").
Proof.
  unfold confidence_errors, in_range.
  destruct (d !! "confidence") as [v|]; [|split; [discriminate | contradiction]].
  destruct v as [|b|z|[| [|] |q]|s|l|m]; cbn;
    try (split; [discriminate | contradiction]).
  - destruct b; cbn; split; auto.
  - unfold Qle_bool. cbn. rewrite !Z.mul_1_r.
    destruct (Z.leb_spec 0 z), (Z.leb_spec z 100); cbn; split;
      try discriminate; try lia; auto.
  - destruct (Qle_bool 0 q) eqn:E1, (Qle_bool q (inject_Z 100)) eqn:E2; cbn; split;
      try discriminate; try reflexivity;
      try (intros [H1 H2]; apply Qle_bool_iff in H1, H2; congruence).
    intros _. split; apply Qle_bool_iff; assumption.
Qed.

Lemma effort_errors_valid d :
  nonblank (d !! "effort_estimate") ->
  effort_errors d = Ok [] <-> valid_effort (d !! "effort_estimate").
Proof.
  unfold effort_errors, valid_effort. intros (s & -> & _).
  assert (Hin : str_in s VALID_EFFORT_ESTIMATES = true <-> In s VALID_EFFORT_ESTIMATES).
  { unfold str_in. rewrite existsb_exists. split.
    - intros (x & Hx & E). apply String.eqb_eq in E. subst x. exact Hx.
    - intros Hx. exists s. split; [exact Hx | apply String.eqb_refl]. }
  destruct (str_in s VALID_EFFORT_ESTIMATES); split.
  - intros _. exists s. split; [reflexivity | apply Hin; reflexivity].
  - reflexivity.
  - discriminate.
  - intros (s' & [= <-] & Hs). apply Hin in Hs. discriminate.
Qed.

Lemma evidence_entry_errors_valid i ev :
  evidence_entry_errors i ev = [] <-> valid_evidence_entry ev.
Proof.
  unfold valid_evidence_entry. destruct ev as [| | | | | |e]; cbn [evidence_entry_errors];
    try (split; [discriminate | intros (e & [=] & _)]).
  split.
  - intros H. apply map_eq_nil in H. exists e. split; [reflexivity|].
    apply no_missing_fields, H.
  - intros (e' & [= <-] & H). apply no_missing_fields in H. rewrite H. reflexivity.
Qed.

Lemma evidence_entries_errors_valid evs :
  forall i, evidence_entries_errors i evs = [] <-> Forall valid_evidence_entry evs.
Proof.
  induction evs as [|ev evs IH]; intros i; cbn [evidence_entries_errors].
  - split; [constructor | reflexivity].
  - split.
    + intros H. apply app_eq_nil in H as [H1 H2]. constructor.
      * apply (evidence_entry_errors_valid i), H1.
      * apply (IH (S i)), H2.
    + intros H. apply Forall_cons in H as [H1 H2].
      apply (evidence_entry_errors_valid i) in H1. apply (IH (S i)) in H2.
      rewrite H1, H2. reflexivity.
Qed.

Lemma evidence_errors_valid d :
  evidence_errors d = []
  <-> exists ev evs,
        d !! "evidence" = Some (PList (ev :: evs))
        /\ Forall valid_evidence_entry (ev :: evs).
Proof.
  unfold evidence_errors.
  destruct (d !! "evidence") as [[| | | | |[|ev evs]|]|];
    try (split; [discriminate | intros (? & ? & [=] & _)]).
  split.
  - intros H. exists ev, evs. split; [reflexivity|].
    apply (evidence_entries_errors_valid _ 0%nat), H.
  - intros (ev' & evs' & [= <- <-] & H).
    apply (evidence_entries_errors_valid _ 0%nat), H.
Qed.

Lemma validated_well_formed d : _validate_opportunity_dict d = Ok [] -> well_formed d.
Proof.
  unfold _validate_opportunity_dict, well_formed.
  intros H. apply bind_Ok in H as (effort & Heffort & H). apply Ok_inj in H.
  apply app_eq_nil in H as [H Hev]. apply app_eq_nil in H as [H ->].
  apply app_eq_nil in H as [Hstr Hconf]. apply map_eq_nil in Hstr.
  apply no_missing_fields in Hstr.
  assert (Hne : nonblank (d !! "effort_estimate")).
  { rewrite List.Forall_forall in Hstr. apply Hstr. simpl. tauto. }
  split; [exact Hstr|]. split; [apply confidence_errors_in_range, Hconf|].
  split; [apply effort_errors_valid; assumption | apply evidence_errors_valid, Hev].
Qed.

(** X10.  Validation reports nothing exactly on the objects that are
    [well_formed]: nine texts that are not blank, a confidence that is a
    number from 0 to 100 (a [bool] counts as one), one of the three effort
    estimates, and at least one evidence object, each with its three texts.
    The score of an evidence object is not looked at. *)
Theorem validation_accepts_well_formed d :
  _validate_opportunity_dict d = Ok [] <-> well_formed d.
Proof.
  split; [apply validated_well_formed|].
  unfold _validate_opportunity_dict, well_formed.
  - intros (Hstr & Hconf & Heffort & Hev).
    assert (Hne : nonblank (d !! "effort_estimate")).
    { rewrite List.Forall_forall in Hstr. apply Hstr. simpl. tauto. }
    apply no_missing_fields in Hstr. apply confidence_errors_in_range in Hconf.
    apply (effort_errors_valid _ Hne) in Heffort. apply evidence_errors_valid in Hev.
    rewrite Hstr, Hconf, Heffort, Hev. reflexivity.
Qed.

(** *** The opportunities the parser builds *)

Lemma str_field_nonblank d field s :
  nonblank (d !! field) -> str_field d field = Ok s -> strip s <> EmptyString.
Proof. unfold nonblank, str_field. intros (s' & -> & H) [= <-]. exact H. Qed.

Lemma py_int_in_range v z : in_range (Some v) -> py_int v = Ok z -> 0 <= z <= 100.
Proof.
  destruct v as [|b|z'|[| |q]|s|l|m]; cbn; try contradiction.
  - intros _ [= <-]. destruct b; lia.
  - intros H [= <-]. exact H.
  - intros [H1 H2] [= <-]. unfold Qle in H1, H2. cbn in H1, H2.
    rewrite Z.quot_div_nonneg by lia.
    split; [apply Z.div_pos; lia | apply Z.div_le_upper_bound; lia].
Qed.

Lemma to_evidence_sound evs evidence :
  Forall valid_evidence_entry evs ->
  to_evidence evs = Ok evidence ->
  length evidence = length evs
  /\ Forall (fun ev => strip (ev_source ev) <> EmptyString
                       /\ strip (item_title ev) <> EmptyString
                       /\ strip (ev_url ev) <> EmptyString) evidence.
Proof.
  intros Hv. revert evidence.
  induction Hv as [|ev evs (e & -> & He) _ IH]; intros evidence; cbn [to_evidence].
  - intros [= <-]. split; [reflexivity | constructor].
  - intros H. apply bind_Ok in H as (r & Hr & H).
    apply bind_Ok in H as (rs & Hrs & H). injection H as <-.
    destruct (IH _ Hrs) as [Hl Hs]. split; [simpl; congruence|].
    constructor; [|exact Hs].
    cbn [to_evidence_ref] in Hr.
    apply bind_Ok in Hr as (s1 & H1 & Hr). apply bind_Ok in Hr as (s2 & H2 & Hr).
    apply bind_Ok in Hr as (s3 & H3 & Hr). apply bind_Ok in Hr as (z & _ & Hr).
    injection Hr as <-. cbn [ev_source item_title ev_url].
    rewrite List.Forall_forall in He.
    split; [|split]; eapply str_field_nonblank; try eassumption;
      apply He; simpl; tauto.
Qed.

Lemma to_opportunity_sound d o :
  well_formed d -> to_opportunity d = Ok o -> sound o.
Proof.
  intros (Hstr & Hconf & (effort & Heffort & Hvalid) & ev & evs & Hev & Hevs) H.
  unfold to_opportunity in H. rewrite Hev in H.
  cbn [default from_option Datatypes.id] in H.
  apply bind_Ok in H as (refs & Hrefs & H).
  apply bind_Ok in H as (s1 & H1 & H). apply bind_Ok in H as (s2 & H2 & H).
  apply bind_Ok in H as (s3 & H3 & H). apply bind_Ok in H as (s4 & H4 & H).
  apply bind_Ok in H as (s5 & H5 & H). apply bind_Ok in H as (s6 & H6 & H).
  apply bind_Ok in H as (s7 & H7 & H). apply bind_Ok in H as (s8 & H8 & H).
  apply bind_Ok in H as (s9 & H9 & H). apply bind_Ok in H as (z & Hz & H).
  injection H as <-.
  rewrite List.Forall_forall in Hstr.
  destruct (to_evidence_sound _ _ Hevs Hrefs) as [Hl Hs].
  unfold sound, required_texts.
  cbn [id opp_title pain target_buyer solution_shape market_type effort_estimate
       monetization moat confidence evidence].
  split; [|split; [|split; [|split]]].
  - repeat constructor; eapply str_field_nonblank; try eassumption;
      apply Hstr; simpl; tauto.
  - destruct (d !! "confidence") as [v|]; [|contradiction].
    apply (py_int_in_range v z Hconf Hz).
  - unfold str_field in H7. rewrite Heffort in H7. injection H7 as <-. exact Hvalid.
  - destruct refs; [discriminate | discriminate].
  - exact Hs.
Qed.

Lemma parse_loop_sound data :
  forall i opportunities all_errors opportunities' all_errors',
    parse_loop i data opportunities all_errors = Ok (opportunities', all_errors') ->
    (length opportunities' + length all_errors'
     = length opportunities + length all_errors + length data)%nat
    /\ (Forall sound opportunities -> Forall sound opportunities').
Proof.
  induction data as [|item data IH]; intros i opps errs opps' errs'; cbn [parse_loop].
  - intros [= <- <-]. split; [simpl; lia | auto].
  - assert (Hrej : forall line,
              parse_loop (S i) data opps (errs ++ [line]) = Ok (opps', errs') ->
              (length opps' + length errs'
               = length opps + length errs + length (item :: data))%nat
              /\ (Forall sound opps -> Forall sound opps')).
    { intros line H. apply IH in H as [Hl Hs]. rewrite length_app in Hl. simpl in *.
      split; [lia | exact Hs]. }
    destruct item as [| | | | | |d]; try apply Hrej.
    intros H. apply bind_Ok in H as (errors & He & H).
    destruct errors as [|e errors]; [|apply Hrej in H; exact H].
    apply bind_Ok in H as (opp & Ho & H). apply IH in H as [Hl Hs].
    rewrite length_app in Hl. simpl in *. split; [lia|].
    intros Hopps. apply Hs. apply Forall_app. split; [exact Hopps|].
    constructor; [|constructor].
    apply (to_opportunity_sound d); [apply validated_well_formed, He | exact Ho].
Qed.

Lemma parse_loaded_sound data opportunities :
  parse_loaded data = Ok opportunities -> Forall sound opportunities.
Proof.
  unfold parse_loaded. destruct data as [| | | | |elements|]; try discriminate.
  intros H. apply bind_Ok in H as ([opps errs] & Hloop & H).
  apply parse_loop_sound in Hloop as [_ Hs].
  destruct errs as [|e errs], opps as [|o opps]; try discriminate;
    injection H as <-; apply Hs; constructor.
Qed.

(** X11.  Every opportunity the parser returns has its nine texts and the three
    texts of each evidence entry not blank, a confidence from 0 to 100, one
    of the three effort estimates and at least one evidence entry. *)
Theorem parsed_opportunities_sound data opportunities :
  parse_loaded data = Ok opportunities -> Forall sound opportunities.
Proof. apply parse_loaded_sound. Qed.

(** X12.  The parser returns no more opportunities than the array has elements,
    and the empty list only for the empty array: an array of which every
    element is refused makes it raise. *)
Theorem parse_loaded_empty_only_for_empty data opportunities :
  parse_loaded data = Ok opportunities ->
  exists elements,
    data = PList elements
    /\ (length opportunities <= length elements)%nat
    /\ (opportunities = [] -> elements = []).
Proof.
  unfold parse_loaded. destruct data as [| | | | |elements|]; try discriminate.
  intros H. exists elements. split; [reflexivity|].
  apply bind_Ok in H as ([opps errs] & Hloop & H).
  apply parse_loop_sound in Hloop as [Hl _]. simpl in Hl.
  destruct errs as [|e errs], opps as [|o opps]; try discriminate;
    injection H as <-; simpl in *.
  - split; [lia|]. intros _. destruct elements; [reflexivity | simpl in Hl; lia].
  - split; [lia | discriminate].
  - split; [lia | discriminate].
Qed.

Lemma validation_accepts_well_formed_witness :
  _validate_opportunity_dict good_dict = Ok [] /\ well_formed good_dict.
Proof.
  assert (H : _validate_opportunity_dict good_dict = Ok []) by (vm_compute; reflexivity).
  split; [exact H | exact (proj1 (validation_accepts_well_formed good_dict) H)].
Defined.

Lemma parsed_opportunities_sound_witness :
  parse_loaded (PList [PDict good_dict; PDict incomplete_dict]) = Ok [good_opportunity]
  /\ Forall sound [good_opportunity].
Proof.
  assert (H : parse_loaded (PList [PDict good_dict; PDict incomplete_dict])
              = Ok [good_opportunity]) by (vm_compute; reflexivity).
  split; [exact H | exact (parsed_opportunities_sound _ _ H)].
Defined.

Lemma parse_loaded_empty_only_for_empty_witness :
  parse_loaded (PList [PDict good_dict; PDict incomplete_dict]) = Ok [good_opportunity]
  /\ exists elements,
       PList [PDict good_dict; PDict incomplete_dict] = PList elements
       /\ (length [good_opportunity] <= length elements)%nat
       /\ ([good_opportunity] = [] -> elements = []).
Proof.
  assert (H : parse_loaded (PList [PDict good_dict; PDict incomplete_dict])
              = Ok [good_opportunity]) by (vm_compute; reflexivity).
  split; [exact H | exact (parse_loaded_empty_only_for_empty _ _ H)].
Defined.

End ParserMore.

(** ** The items of the store *)

Module StoreFacts.
Import Py Models Scorer Db Hashing ItemStore Basics Scenarios Notions StoreNotions.
Import ExtractFacts DbFacts.

(** *** The key of an item *)

Lemma sha256_vectors :
  Sha256.hexdigest (Sha256.encode EmptyString)
  = "e3b0c44298fc1c149afbf4c8996fb92427ae41e4649b934ca495991b7852b855"
  /\ Sha256.hexdigest (Sha256.encode "abc")
     = "ba7816bf8f01cfea414140de5dae2223b00361a396177a9cb410ff61f20015ad"
  /\ Sha256.hexdigest (repeat 97 56)
     = "b35439a4ac6f0948b6d6f9e3c6af0f5f590ce20f1bde7090ef7970686ec6738a"
  /\ Sha256.hexdigest (repeat 97 200)
     = "c2a908d98f5df987ade41b5fce213067efbcc21ef2240212a41e54b5e7c28ae5"
  /\ content_hash plain_issue = "dac06cddfeb96b49".
Proof. vm_compute. repeat split; reflexivity. Qed.

Lemma round_length s kw : length (Sha256.round s kw) = length s.
Proof.
  unfold Sha256.round.
  destruct s as [|a [|b [|c [|d [|e [|f [|g [|h [|i s]]]]]]]]]; reflexivity.
Qed.

Lemma rounds_length kws : forall s, length (fold_left Sha256.round kws s) = length s.
Proof.
  induction kws as [|kw kws IH]; intros s; simpl; [reflexivity|].
  rewrite IH. apply round_length.
Qed.

Lemma zip_add_length a : forall b, length a = length b -> length (Sha256.zip_add a b) = length a.
Proof.
  induction a as [|x a IH]; intros [|y b]; simpl; try discriminate; [reflexivity|].
  intros [= H]. rewrite (IH _ H). reflexivity.
Qed.

Lemma compress_length h block : length (Sha256.compress h block) = length h.
Proof.
  unfold Sha256.compress. apply zip_add_length. symmetry. apply rounds_length.
Qed.

Lemma digest_length msg : length (Sha256.digest msg) = 8%nat.
Proof.
  unfold Sha256.digest. cbv zeta.
  generalize (Sha256.blocks (length (Sha256.words (Sha256.pad msg)))
                (Sha256.words (Sha256.pad msg))).
  intros bs. change 8%nat with (length Sha256.H0). generalize Sha256.H0.
  induction bs as [|b bs IH]; intros h; simpl; [reflexivity|].
  rewrite IH. apply compress_length.
Qed.

Lemma hex_digit_is_hex n : 0 <= n < 16 -> is_hex (Sha256.hex_digit n) = true.
Proof.
  intros H.
  assert (E : In n [0; 1; 2; 3; 4; 5; 6; 7; 8; 9; 10; 11; 12; 13; 14; 15])
    by (simpl; lia).
  simpl in E. repeat (destruct E as [<-|E]; [reflexivity|]). contradiction.
Qed.

Lemma nibble_range w i : 0 <= Z.land (Z.shiftr w (4 * i)) 15 < 16.
Proof.
  change 15 with (Z.ones 4). rewrite Z.land_ones by lia.
  apply Z.mod_pos_bound. lia.
Qed.

Lemma hex_word_format w :
  String.length (Sha256.hex_word w) = 8%nat /\ every is_hex (Sha256.hex_word w) = true.
Proof.
  unfold Sha256.hex_word. cbn [map string_of_list_ascii String.length every].
  split; [reflexivity|].
  rewrite !hex_digit_is_hex by apply nibble_range. reflexivity.
Qed.

Lemma length_append a b : String.length (a +:+ b) = (String.length a + String.length b)%nat.
Proof. induction a as [|x a IH]; push_append; simpl; congruence. Qed.

Lemma every_append p a b : every p (a +:+ b) = every p a && every p b.
Proof.
  induction a as [|x a IH]; push_append; simpl; [reflexivity|].
  rewrite IH, andb_assoc. reflexivity.
Qed.

Lemma hexdigest_format msg :
  String.length (Sha256.hexdigest msg) = 64%nat
  /\ every is_hex (Sha256.hexdigest msg) = true.
Proof.
  unfold Sha256.hexdigest. pose proof (digest_length msg) as Hl.
  assert (G : forall ws,
            String.length (fold_right (fun w acc => Sha256.hex_word w +:+ acc) EmptyString ws)
            = (8 * length ws)%nat
            /\ every is_hex (fold_right (fun w acc => Sha256.hex_word w +:+ acc) EmptyString ws)
               = true).
  { induction ws as [|w ws [IH1 IH2]]; [split; reflexivity|].
    cbn [fold_right]. destruct (hex_word_format w) as [H1 H2].
    rewrite length_append, every_append, H1, H2, IH1, IH2. simpl. split; [lia | reflexivity]. }
  destruct (G (Sha256.digest msg)) as [G1 G2]. rewrite Hl in G1. split; assumption.
Qed.

Lemma length_take n s : String.length (take n s) = Nat.min n (String.length s).
Proof.
  revert s. induction n as [|n IH]; intros [|c s]; simpl; try reflexivity.
  rewrite IH. reflexivity.
Qed.

Lemma every_take p n s : every p s = true -> every p (take n s) = true.
Proof.
  revert s. induction n as [|n IH]; intros [|c s]; simpl; try reflexivity.
  intros H. apply andb_prop in H as [-> H]. apply IH, H.
Qed.

(** X13.  The key of an item is a text of 16 lower-case hexadecimal digits. *)
Theorem content_hash_format item :
  String.length (content_hash item) = 16%nat
  /\ every is_hex (content_hash item) = true.
Proof.
  unfold content_hash. cbv zeta.
  destruct (hexdigest_format
              (Sha256.encode (Source_value (source item) +:+ ":" +:+ source_id item)))
    as [Hl He].
  split; [rewrite length_take, Hl; reflexivity | apply every_take, He].
Qed.

Lemma Source_value_inj a b : Source_value a = Source_value b -> a = b.
Proof. destruct a, b; simpl; intros H; try reflexivity; discriminate. Qed.

(** X14.  The text that is hashed tells the source and the source id apart: two
    items are given the same text only if they agree on both, and then they
    have the same key, whatever their other fields. *)
Theorem hash_input_injective a b :
  hash_input a = hash_input b ->
  source a = source b /\ source_id a = source_id b /\ content_hash a = content_hash b.
Proof.
  intros H.
  assert (E : source a = source b /\ source_id a = source_id b).
  { unfold hash_input in H.
    destruct (source a), (source b); cbn [Source_value] in H;
      rewrite ?append_cons, ?append_nil in H; try discriminate;
      (split; [reflexivity|]); injection H; auto. }
  destruct E as [E1 E2]. split; [exact E1|]. split; [exact E2|].
  unfold content_hash. rewrite E1, E2. reflexivity.
Qed.

(** *** Inserting items *)

Lemma NoDup_app_swap_single_aux {A} (l : list A) (x : A) :
  List.NoDup l -> ~ In x l -> List.NoDup (l ++ [x]).
Proof.
  intros Hl Hx. induction Hl as [|y l Hy Hl IH]; simpl.
  - constructor; [tauto | constructor].
  - constructor.
    + rewrite in_app_iff. simpl. intros [H|[H|[]]]; [tauto|]. subst. apply Hx. left. reflexivity.
    + apply IH. intros H. apply Hx. right. exact H.
Qed.

Lemma sqlite_int_Raise z e : sqlite_int z = Raise e -> e = OverflowError.
Proof. unfold sqlite_int. destruct (_ && _); [discriminate|]. intros [= <-]. reflexivity. Qed.

Lemma insert_item_Ok self item b self' :
  insert_item self item = (Ok b, self') ->
  dumpable (PDict (metadata item)) = true
  /\ sqlite_int (score item) = Ok (score item)
  /\ b = negb (has_item self (content_hash item))
  /\ self' = if b then with_items self (items self ++ [item]) else self.
Proof.
  unfold insert_item. destruct (dumpable (PDict (metadata item))); [|discriminate].
  cbn [negb]. destruct (sqlite_int (score item)) as [z|e|] eqn:Hz; [| |discriminate].
  - assert (z = score item) as ->.
    { unfold sqlite_int in Hz. destruct (_ && _); [|discriminate]. congruence. }
    destruct (has_item self (content_hash item)); intros [= <- <-]; auto.
  - rewrite (sqlite_int_Raise _ _ Hz). discriminate.
Qed.

Lemma has_item_app self rows h :
  has_item (with_items self (items self ++ rows)) h
  = has_item self h || existsb (fun row => String.eqb (content_hash row) h) rows.
Proof. unfold has_item. cbn [items with_items]. apply existsb_app. Qed.

(** X15.  [insert_item] returns [True] exactly when no row has the item's key;
    the row is then added at the end.  Otherwise the store is left as it
    was: the stored row is not updated.  Either way the key is in the store
    afterwards, and no other table is touched. *)
Theorem insert_item_spec self item b self' :
  insert_item self item = (Ok b, self') ->
  b = negb (has_item self (content_hash item))
  /\ items self' = (if b then items self ++ [item] else items self)
  /\ other_tables self' = other_tables self
  /\ has_item self' (content_hash item) = true.
Proof.
  intros H. apply insert_item_Ok in H as (_ & _ & Hb & ->).
  split; [exact Hb|]. destruct b.
  - split; [reflexivity|]. split; [reflexivity|].
    rewrite has_item_app. cbn [existsb]. rewrite String.eqb_refl, orb_true_r. reflexivity.
  - split; [reflexivity|]. split; [reflexivity|].
    destruct (has_item self (content_hash item)); [reflexivity | discriminate].
Qed.

Lemma has_item_In self h :
  has_item self h = true <-> In h (map content_hash (items self)).
Proof.
  unfold has_item. rewrite existsb_exists, in_map_iff. split.
  - intros (row & Hin & E). apply String.eqb_eq in E. eauto.
  - intros (row & E & Hin). exists row. split; [exact Hin | apply String.eqb_eq, E].
Qed.

Lemma insert_loop_Ok batch :
  forall self count n self',
    insert_loop self batch count = (Ok n, self') ->
    exists added,
      items self' = items self ++ added
      /\ n = count + Z.of_nat (length added)
      /\ (forall item, In item added -> In item batch)
      /\ other_tables self' = other_tables self
      /\ (forall item, In item batch -> has_item self' (content_hash item) = true)
      /\ (distinct_hashes self -> distinct_hashes self')
      /\ Forall (fun item => dumpable (PDict (metadata item)) = true
                             /\ sqlite_int (score item) = Ok (score item)) batch.
Proof.
  induction batch as [|item batch IH]; intros self count n self'; cbn [insert_loop].
  - intros [= <- <-]. exists []. rewrite app_nil_r. simpl.
    repeat split; try tauto; try lia. constructor.
  - destruct (insert_item self item) as [[b| |] self1] eqn:Hi; try discriminate.
    apply insert_item_Ok in Hi as (Hd & Hz & Hb & ->).
    assert (Hstep : forall count1,
              insert_loop (if b then with_items self (items self ++ [item]) else self)
                batch count1 = (Ok n, self') ->
              count1 = (if b then count + 1 else count) ->
              exists added,
                items self' = items self ++ added
                /\ n = count + Z.of_nat (length added)
                /\ (forall x, In x added -> In x (item :: batch))
                /\ other_tables self' = other_tables self
                /\ (forall x, In x (item :: batch) -> has_item self' (content_hash x) = true)
                /\ (distinct_hashes self -> distinct_hashes self')
                /\ Forall (fun x => dumpable (PDict (metadata x)) = true
                                    /\ sqlite_int (score x) = Ok (score x)) (item :: batch)).
    { intros count1 H ->.
      apply IH in H as (added & Hitems & Hn & Hsub & Hother & Hhas & Hnodup & Hall).
      assert (Hkept : forall h, has_item (if b then with_items self (items self ++ [item])
                                           else self) h = true ->
                                has_item self' h = true).
      { intros h Hh. apply has_item_In. rewrite Hitems, map_app, in_app_iff.
        left. apply has_item_In, Hh. }
      assert (Hitem : has_item self' (content_hash item) = true).
      { apply Hkept. destruct b.
        - rewrite has_item_app. cbn [existsb]. rewrite String.eqb_refl, orb_true_r. reflexivity.
        - destruct (has_item self (content_hash item)); [reflexivity | discriminate]. }
      destruct b.
      - exists (item :: added). cbn [items with_items] in Hitems.
        rewrite <- app_assoc in Hitems. split; [exact Hitems|].
        split; [cbn [length]; lia|].
        split; [intros x [<-|Hx]; [left; reflexivity | right; apply Hsub, Hx]|].
        split; [exact Hother|].
        split; [intros x [<-|Hx]; [exact Hitem | apply Hhas, Hx]|].
        split; [|constructor; [split; assumption | exact Hall]].
        intros Hnd. apply Hnodup. unfold distinct_hashes. cbn [items with_items].
        rewrite map_app. cbn [map].
        apply NoDup_app_swap_single_aux; [exact Hnd|].
        intros Hin. apply has_item_In in Hin. rewrite Hin in Hb. discriminate.
      - exists added. split; [exact Hitems|]. split; [lia|].
        split; [intros x Hx; right; apply Hsub, Hx|].
        split; [exact Hother|].
        split; [intros x [<-|Hx]; [exact Hitem | apply Hhas, Hx]|].
        split; [exact Hnodup | constructor; [split; assumption | exact Hall]]. }
    destruct b; intros H; eapply Hstep; try exact H; reflexivity.
Qed.

Lemma insert_item_any self item r self' :
  insert_item self item = (r, self') ->
  (self' = self \/ (self' = with_items self (items self ++ [item])
                    /\ has_item self (content_hash item) = false))
  /\ (forall e, r = Raise e -> ~ fits (score item)).
Proof.
  unfold insert_item. destruct (negb _); [intros [= <- <-]; split; [auto | discriminate]|].
  destruct (sqlite_int (score item)) as [z|e|] eqn:Hz.
  - destruct (has_item self (content_hash item)) eqn:Hh; intros [= <- <-];
      (split; [auto | discriminate]).
  - assert (Hnot : ~ fits (score item)).
    { intros Hf. rewrite (sqlite_int_fits _ Hf) in Hz. discriminate. }
    destruct (is_sqlite_error e); intros [= <- <-]; (split; [auto | intros; exact Hnot]).
  - intros [= <- <-]. split; [auto | discriminate].
Qed.

(** Whatever [insert_items] does, it only adds rows of the batch, after the
    rows that were there. *)
Lemma insert_loop_any batch :
  forall self count r self',
    insert_loop self batch count = (r, self') ->
    (exists added,
       items self' = items self ++ added
       /\ (forall item, In item added -> In item batch)
       /\ other_tables self' = other_tables self
       /\ (distinct_hashes self -> distinct_hashes self'))
    /\ (forall e, r = Raise e -> ~ Forall (fun item => fits (score item)) batch).
Proof.
  induction batch as [|item batch IH]; intros self count r self'; cbn [insert_loop].
  - intros [= <- <-]. split; [|discriminate]. exists []. rewrite app_nil_r.
    repeat split; [contradiction | auto].
  - destruct (insert_item self item) as [r1 self1] eqn:Hi.
    apply insert_item_any in Hi as [Hself Hraise].
    assert (Hone : exists added1,
              items self1 = items self ++ added1
              /\ (forall x, In x added1 -> In x (item :: batch))
              /\ other_tables self1 = other_tables self
              /\ (distinct_hashes self -> distinct_hashes self1)).
    { destruct Hself as [->|[-> Hnew]].
      - exists []. rewrite app_nil_r. repeat split; [contradiction | auto].
      - exists [item]. split; [reflexivity|].
        split; [intros x [<-|[]]; left; reflexivity|]. split; [reflexivity|].
        intros Hnd. unfold distinct_hashes. cbn [items with_items]. rewrite map_app.
        apply NoDup_app_swap_single_aux; [exact Hnd|].
        intros Hin. apply has_item_In in Hin. congruence. }
    destruct Hone as (added1 & H1 & Hsub1 & Ho1 & Hnd1).
    assert (Hrest : forall count1,
              insert_loop self1 batch count1 = (r, self') ->
              (exists added,
                 items self' = items self ++ added
                 /\ (forall x, In x added -> In x (item :: batch))
                 /\ other_tables self' = other_tables self
                 /\ (distinct_hashes self -> distinct_hashes self'))
              /\ (forall e, r = Raise e ->
                     ~ Forall (fun x => fits (score x)) (item :: batch))).
    { intros count1 H. apply IH in H as [(added2 & H2 & Hsub2 & Ho2 & Hnd2) Hr].
      split.
      - exists (added1 ++ added2). split; [rewrite H2, H1, app_assoc; reflexivity|].
        split; [intros x Hx; apply in_app_iff in Hx as [Hx|Hx];
                [apply Hsub1, Hx | right; apply Hsub2, Hx]|].
        split; [congruence | auto].
      - intros e E Hall. apply Forall_cons in Hall as [_ Hall]. exact (Hr e E Hall). }
    destruct r1 as [[|]|e|]; try apply Hrest.
    + intros [= <- <-]. split; [exists added1; auto|].
      intros e' _ Hall. apply Forall_cons in Hall as [Hitem _].
      exact (Hraise e eq_refl Hitem).
    + intros [= <- <-]. split; [exists added1; auto | discriminate].
Qed.

(** X16.  [insert_items] returns the number of rows it added.  The rows already
    there stay where they are, no other table is touched, every item of the
    batch has its key in the store afterwards, and keys that were distinct
    stay distinct. *)
Theorem insert_items_spec self batch n self' :
  insert_items self batch = (Ok n, self') ->
  exists added,
    items self' = items self ++ added
    /\ n = Z.of_nat (length added)
    /\ (forall item, In item added -> In item batch)
    /\ other_tables self' = other_tables self
    /\ (forall item, In item batch -> has_item self' (content_hash item) = true)
    /\ (distinct_hashes self -> distinct_hashes self').
Proof.
  intros H. apply insert_loop_Ok in H as (added & H1 & H2 & H3 & H4 & H5 & H6 & _).
  exists added. split; [exact H1|]. split; [lia|]. split; [exact H3|].
  split; [exact H4|]. split; [exact H5 | exact H6].
Qed.

Lemma insert_loop_known batch :
  forall self count,
    Forall (fun item => dumpable (PDict (metadata item)) = true
                        /\ sqlite_int (score item) = Ok (score item)) batch ->
    (forall item, In item batch -> has_item self (content_hash item) = true) ->
    insert_loop self batch count = (Ok count, self).
Proof.
  induction batch as [|item batch IH]; intros self count Hall Hhas; cbn [insert_loop].
  - reflexivity.
  - apply Forall_cons in Hall as [[Hd Hz] Hall]. unfold insert_item.
    rewrite Hd, Hz, (Hhas item) by (left; reflexivity). cbn [negb].
    apply IH; [exact Hall | intros x Hx; apply Hhas; right; exact Hx].
Qed.

(** X17.  Inserting a batch a second time adds nothing: the call returns 0 and
    the store is the same. *)
Theorem insert_items_idempotent self batch n self' :
  insert_items self batch = (Ok n, self') ->
  insert_items self' batch = (Ok 0, self').
Proof.
  intros H. apply insert_loop_Ok in H as (added & _ & _ & _ & _ & Hhas & _ & Hall).
  apply insert_loop_known; assumption.
Qed.

Lemma insert_loop_total batch :
  forall self count,
    Forall (fun item => dumpable (PDict (metadata item)) = true
                        /\ fits (score item)) batch ->
    exists n self', insert_loop self batch count = (Ok n, self').
Proof.
  induction batch as [|item batch IH]; intros self count Hall; cbn [insert_loop].
  - eauto.
  - apply Forall_cons in Hall as [[Hd Hz] Hall]. unfold insert_item.
    rewrite Hd. cbn [negb]. rewrite (sqlite_int_fits _ Hz).
    destruct (has_item self (content_hash item)); apply IH, Hall.
Qed.

(** X18.  [insert_items] returns on every batch whose scores fit in 64 bits and
    whose metadata [json.dumps] writes; in particular on what [filter_items]
    returned, when the metadata can be written. *)
Theorem insert_items_total self batch :
  Forall (fun item => dumpable (PDict (metadata item)) = true /\ fits (score item)) batch ->
  exists n self', insert_items self batch = (Ok n, self').
Proof. apply insert_loop_total. Qed.

(** *** Reading items *)

Lemma Source_eqb_eq a b : Source_eqb a b = true <-> a = b.
Proof.
  unfold Source_eqb. rewrite String.eqb_eq. split; [apply Source_value_inj | congruence].
Qed.

Lemma items_order_before a b : items_order a b = true <-> before a b.
Proof.
  unfold items_order, before.
  destruct (Z.ltb_spec (score b) (score a)); [split; [left; lia | reflexivity]|].
  destruct (Z.ltb_spec (score a) (score b)); [split; [discriminate | lia]|].
  rewrite Z.leb_le. split; [right; lia | intros [?|[? ?]]; lia].
Qed.

Lemma items_order_total a b : items_order a b = true \/ items_order b a = true.
Proof. rewrite !items_order_before. unfold before. lia. Qed.

Lemma items_order_trans a b c :
  items_order a b = true -> items_order b c = true -> items_order a c = true.
Proof. rewrite !items_order_before. unfold before. lia. Qed.

(** X19.  What [get_items_since] returns is in descending order of score and, at
    equal score, of collection time; it holds the stored items collected at
    or after [since] whose score is at least [min_score] and which are from
    [source] if one is given, and no other.  Without a source it is the
    query the digests run. *)
Theorem get_items_since_spec self since min_score source :
  StronglySorted before (get_items_since self since min_score source)
  /\ (forall item,
        In item (get_items_since self since min_score source)
        <-> In item (items self)
            /\ since <= collected_at item
            /\ min_score <= score item
            /\ (forall s, source = Some s -> Models.source item = s))
  /\ get_items_since self since min_score None = Db.get_items_since self since min_score.
Proof.
  unfold get_items_since. cbv zeta. split; [|split].
  - match goal with |- StronglySorted _ (sort_by _ ?l) =>
      pose proof (sort_by_sorted items_order items_order_total items_order_trans l) as H
    end.
    induction H as [|x l Hl IH Hx]; constructor; [exact IH|].
    eapply List.Forall_impl; [|exact Hx]. intros y Hy. apply items_order_before, Hy.
  - intros item. rewrite In_sort_by.
    destruct source as [s|].
    + rewrite filter_In, !andb_true_iff, !Z.leb_le, Source_eqb_eq. split.
      * intros (Hin & (H1 & H2) & H3). repeat split; try assumption. congruence.
      * intros (Hin & H1 & H2 & H3). repeat split; auto.
    + rewrite <- in_rev, filter_In, !andb_true_iff, !Z.leb_le. split.
      * intros (Hin & (H1 & H2) & _). repeat split; try assumption. discriminate.
      * intros (Hin & H1 & H2 & _). repeat split; auto.
  - unfold Db.get_items_since. do 2 f_equal. apply filter_ext. intros row.
    apply andb_true_r.
Qed.

(** *** Counting items *)

Lemma total_of_insert (counts : gmap string Z) key :
  total_of (<[key := default 0 (counts !! key) + 1]> counts) = total_of counts + 1.
Proof.
  unfold total_of.
  assert (Hcomm : forall (j1 j2 : string) (z1 z2 y : Z), z1 + (z2 + y) = z2 + (z1 + y))
    by (intros; lia).
  destruct (counts !! key) as [v|] eqn:E; cbn [default from_option Datatypes.id].
  - rewrite <- (insert_delete_id counts key v E) at 2.
    rewrite <- insert_delete_eq.
    rewrite !map_fold_insert_L; try (intros; lia); apply lookup_delete_eq.
  - rewrite map_fold_insert_L; try (intros; lia). exact E.
Qed.

Lemma count_by_source_total rows :
  total_of (count_by_source rows) = Z.of_nat (length rows).
Proof.
  induction rows as [|row rows IH]; [reflexivity|].
  cbn [count_by_source fold_right]. fold (count_by_source rows).
  rewrite total_of_insert, IH. cbn [length]. lia.
Qed.

Lemma count_by_source_lookup rows s :
  count_by_source rows !! Source_value s
  = match from_source s rows with
    | [] => None
    | found => Some (Z.of_nat (length found))
    end.
Proof.
  induction rows as [|row rows IH]; [reflexivity|].
  cbn [count_by_source fold_right]. fold (count_by_source rows).
  unfold from_source in *. cbn [List.filter].
  destruct (Source_eqb (source row) s) eqn:E.
  - apply Source_eqb_eq in E. rewrite E, lookup_insert_eq, IH.
    destruct (List.filter _ rows); cbn [default from_option Datatypes.id length];
      f_equal; lia.
  - rewrite lookup_insert_ne; [exact IH|].
    intros H. apply Source_value_inj in H. apply Source_eqb_eq in H. congruence.
Qed.

(** X20.  The counts [get_stats] gives by source add up to its total, and a
    source has an entry exactly when an item of it is stored, the entry
    being the number of these items. *)
Theorem get_stats_spec self :
  total_of (by_source (get_stats self)) = total_items (get_stats self)
  /\ total_items (get_stats self) = Z.of_nat (length (items self))
  /\ forall s,
       by_source (get_stats self) !! Source_value s
       = match from_source s (items self) with
         | [] => None
         | found => Some (Z.of_nat (length found))
         end.
Proof.
  unfold get_stats. cbn [by_source total_items]. split; [|split].
  - apply count_by_source_total.
  - reflexivity.
  - apply count_by_source_lookup.
Qed.

End StoreFacts.

(** ** Digests and questions *)

Module ReportFacts.
Import Py Models Db Engine Reports Basics Scenarios Notions ReportNotions.

Lemma complete_requests self req r self' :
  complete self req = (r, self') ->
  r = _llm self (requests self) req
  /\ requests self' = requests self ++ [req]
  /\ _storage self' = _storage self
  /\ _llm self' = _llm self.
Proof. unfold complete. intros [= <- <-]. repeat split. Qed.

(** What a digest does to the store, in one scheme for the three. *)
Lemma digest_scheme kind days min_score max_items system user temperature max_tokens quiet
    self t_items t_digest t_saved r self' :
  (let items := get_items_last_n_days (_storage self) t_items days min_score in
   match items with
   | [] => (Ok (Some (mkDigest kind quiet 0 t_digest)), self)
   | _ =>
       match complete self
               (mkRequest system (user (_format_items_for_prompt items max_items))
                  temperature max_tokens) with
       | (Ok response, self) =>
           (Ok (Some (mkDigest kind (text response) (Z.of_nat (length items)) t_digest)),
            with_storage self
              (save_digest (_storage self) t_saved kind [Lit (text response)]
                 (Z.of_nat (length items))))
       | (Raise e, self) => if is_LLMError e then (Ok None, self) else (Raise e, self)
       | (Unmodelled, self) => (Unmodelled, self)
       end
   end) = (r, self') ->
  (length (requests self') <= length (requests self) + 1)%nat
  /\ match r with
     | Ok (Some d) =>
         digest_type d = kind
         /\ generated_at d = t_digest
         /\ item_count d
            = Z.of_nat (length (get_items_last_n_days (_storage self) t_items days min_score))
         /\ (if item_count d =? 0 then self' = self
             else _storage self'
                  = save_digest (_storage self) t_saved kind [Lit (content d)]
                      (item_count d))
     | _ => _storage self' = _storage self
     end.
Proof.
  cbv zeta. destruct (get_items_last_n_days _ _ _ _) as [|item items] eqn:Hitems.
  - intros [= <- <-]. split; [lia|]. repeat split.
  - destruct (complete self _) as [[response|e|] self1] eqn:Hc;
      apply complete_requests in Hc as (Hr & Hreq & Hst & _).
    + intros [= <- <-]. cbn [requests with_storage]. rewrite Hreq, length_app.
      split; [simpl; lia|]. cbn [digest_type generated_at item_count content].
      split; [reflexivity|]. split; [reflexivity|]. split; [reflexivity|].
      cbn [length]. rewrite Hst.
      destruct (Z.eqb_spec (Z.of_nat (S (length items))) 0) as [E|_]; [lia | reflexivity].
    + destruct (is_LLMError e); intros [= <- <-]; rewrite Hreq, length_app;
        (split; [simpl; lia | exact Hst]).
    + intros [= <- <-]. rewrite Hreq, length_app. split; [simpl; lia | exact Hst].
Qed.

(** X21.  Each digest sends at most one request.  The digest it returns has the
    type of the method and counts the items of its window, all of them; when
    it counts none, nothing was sent nor saved; otherwise one row was saved,
    with the content and the count of the digest returned.  When no digest
    is returned the store is as before. *)
Theorem digest_saved_as_returned kind days min_score method
    self t_items t_digest t_saved r self' :
  In (kind, days, min_score, method) digest_methods ->
  method self t_items t_digest t_saved = (r, self') ->
  (length (requests self') <= length (requests self) + 1)%nat
  /\ match r with
     | Ok (Some d) =>
         digest_type d = kind
         /\ generated_at d = t_digest
         /\ item_count d
            = Z.of_nat (length (get_items_last_n_days (_storage self) t_items days min_score))
         /\ (if item_count d =? 0 then self' = self
             else _storage self'
                  = save_digest (_storage self) t_saved kind [Lit (content d)]
                      (item_count d))
     | _ => _storage self' = _storage self
     end.
Proof.
  intros Hin H.
  destruct Hin as [E|[E|[E|[]]]]; injection E as <- <- <- <-;
    apply digest_scheme in H; exact H.
Qed.

(** *** Questions *)

Lemma days_before_Ok now days since :
  days_before now days = Ok since ->
  since = now - timedelta_days days
  /\ -999999999 <= days <= 999999999
  /\ datetime_min <= since <= datetime_max.
Proof.
  unfold days_before. destruct (_ && _) eqn:E1; [|discriminate].
  destruct ((datetime_min <=? _) && _) eqn:E2; [|discriminate].
  intros [= <-]. apply andb_prop in E1 as [H1 H2], E2 as [H3 H4].
  rewrite Z.leb_le in *. lia.
Qed.

(** X22.  [ask] never writes to the store.  When the window is in the calendar
    it sends exactly one request, also when no item is stored; the answer
    counts every item of the window as a source, although the prompt shows
    at most 30; a failure of the provider gives no result.  When the window
    is not in the calendar it raises [OverflowError] and sends nothing. *)
Theorem ask_spec self question days t_items t_result r self' :
  ask self question days t_items t_result = (r, self') ->
  _storage self' = _storage self
  /\ match days_before t_items days with
     | Ok since =>
         let items := get_items_since (_storage self) since 20 in
         let request :=
           mkRequest QA_SYSTEM
             (QA_USER (_format_items_for_prompt (firstn 30 items) 30) question days)
             (4 # 10) 1500 in
         requests self' = requests self ++ [request]
         /\ match _llm self (requests self) request with
            | Ok response =>
                r = Ok (Some (mkQAResult question (text response)
                                (Z.of_nat (length items)) t_result))
            | Raise e => r = if is_LLMError e then Ok None else Raise e
            | Unmodelled => r = Unmodelled
            end
     | _ => r = Raise OverflowError /\ requests self' = requests self
     end.
Proof.
  unfold ask, items_of_last_n_days.
  destruct (days_before t_items days) as [since|e|] eqn:Hd; cbn [bind].
  - cbv zeta.
    assert (Hfirst : forall items : list Item,
              _format_items_for_prompt (firstn 30 items) 30
              = _format_items_for_prompt items 30).
    { intros items. unfold _format_items_for_prompt.
      destruct items as [|x items]; [reflexivity|].
      rewrite firstn_firstn. reflexivity. }
    rewrite Hfirst.
    destruct (complete self _) as [[response|e|] self1] eqn:Hc;
      apply complete_requests in Hc as (Hr & Hreq & Hst & _); rewrite <- Hr.
    + intros [= <- <-]. auto.
    + destruct (is_LLMError e); intros [= <- <-]; auto.
    + intros [= <- <-]. auto.
  - intros [= <- <-]. unfold days_before in Hd.
    destruct (_ && _); [destruct (_ && _) in Hd|]; try discriminate;
      injection Hd as <-; auto.
  - unfold days_before in Hd.
    destruct (_ && _); [destruct (_ && _) in Hd|]; discriminate.
Qed.

(** The handler forwards to the synthesizer it was built with. *)
Lemma handler_ask_forwards llm storage question days t_items t_result :
  (handler_ask (new_QAHandler llm storage) question days t_items t_result).1
  = (ask (mkSynthesizer llm storage []) question days t_items t_result).1.
Proof.
  unfold handler_ask, new_QAHandler. cbn [_synthesizer].
  destruct (ask _ _ _ _ _). reflexivity.
Qed.

Lemma items_of_last_n_days_in_calendar self now days min_score :
  0 <= now <= datetime_max ->
  0 <= days <= 36500 ->
  items_of_last_n_days self now days min_score
  = Ok (get_items_last_n_days self now days min_score).
Proof.
  intros Hnow Hdays. unfold items_of_last_n_days, days_before, get_items_last_n_days.
  unfold datetime_min, datetime_max, timedelta_days in *.
  replace ((-999999999 <=? days) && (days <=? 999999999)) with true
    by (symmetry; apply andb_true_intro; split; apply Z.leb_le; lia).
  replace ((-62135596800000000 <=? now - days * 86400 * 1000000)
           && (now - days * 86400 * 1000000 <=? 253402300799999999)) with true
    by (symmetry; apply andb_true_intro; split; apply Z.leb_le; lia).
  reflexivity.
Qed.

End ReportFacts.

(** ** Saving opportunities and reading them back *)

Module OpportunityFacts.
Import Py Models Scorer Db Basics Scenarios Notions DbFacts.
Import OpportunityStore OpportunityNotions ScorerMore.

(** *** What a run writes *)

Lemma sqlite_int_Ok z v : sqlite_int z = Ok v -> v = z.
Proof. unfold sqlite_int. destruct (_ && _); [|discriminate]. congruence. Qed.

Lemma bind_opportunity_Ok c notes v :
  bind_opportunity c notes = Ok v -> v = stored_notes notes.
Proof.
  unfold bind_opportunity. destruct (sqlite_int c); cbn [bind]; try discriminate.
  destruct notes as [|b|z|[| |q]|s|l|m]; cbn [stored_notes];
    try discriminate; try congruence.
  destruct (sqlite_int z); cbn [bind]; [congruence | discriminate | discriminate].
Qed.

Lemma insert_evidence_Ok oid rid evs :
  forall table last table' last',
    insert_evidence oid rid evs table last = (Ok tt, (table', last')) ->
    map evidence_fact table'
    = map evidence_fact table
      ++ map (fun ev =>
           (oid, rid,
            mkStoredEvidence (ev_source ev) (item_title ev) (ev_url ev) (ev_score ev)))
           evs.
Proof.
  induction evs as [|ev evs IH]; intros table last table' last'; cbn [insert_evidence].
  - intros [= <- <-]. rewrite app_nil_r. reflexivity.
  - destruct (sqlite_int (ev_score ev)) as [score| |] eqn:Hs; try discriminate.
    apply sqlite_int_Ok in Hs as ->. intros H. apply IH in H. rewrite H.
    rewrite map_app, <- app_assoc. reflexivity.
Qed.

Lemma save_opportunity_Ok now rid opp self u self' :
  save_opportunity now rid opp self = (Ok u, self') ->
  untouched self self'
  /\ opportunity_runs self' = opportunity_runs self
  /\ last_run_id self' = last_run_id self
  /\ opportunities self' = insert_or_replace (written_row now rid opp) (opportunities self)
  /\ map evidence_fact (opportunity_evidence self')
     = map evidence_fact (opportunity_evidence self) ++ facts_of rid [opp].
Proof.
  unfold save_opportunity.
  destruct (bind_opportunity _ _) as [notes| |] eqn:Hb; try (intros [= ?]; fail).
  apply bind_opportunity_Ok in Hb as ->.
  destruct (insert_evidence _ _ _ _ _) as [[[]| |] [table last]] eqn:He;
    try (intros [= ?]; fail).
  intros [= _ <-]. apply insert_evidence_Ok in He.
  cbn [items digests last_digest_id opportunity_runs last_run_id opportunities
       opportunity_evidence].
  repeat split. rewrite He. unfold facts_of. cbn [flat_map]. rewrite app_nil_r. reflexivity.
Qed.

Lemma save_opportunities_Ok now rid opps :
  forall self u self',
    save_opportunities now rid opps self = (Ok u, self') ->
    untouched self self'
    /\ opportunity_runs self' = opportunity_runs self
    /\ last_run_id self' = last_run_id self
    /\ opportunities self'
       = fold_left (fun table o => insert_or_replace (written_row now rid o) table)
           opps (opportunities self)
    /\ map evidence_fact (opportunity_evidence self')
       = map evidence_fact (opportunity_evidence self) ++ facts_of rid opps.
Proof.
  induction opps as [|opp opps IH]; intros self u self'; cbn [save_opportunities].
  - intros [= _ <-]. unfold untouched, facts_of. cbn [flat_map fold_left].
    rewrite app_nil_r. repeat split.
  - destruct (save_opportunity now rid opp self) as [[u1| |] self1] eqn:H1;
      try (intros [= ?]; fail).
    apply save_opportunity_Ok in H1 as ((Hi & Hd & Hl) & Hr & Hlr & Ho & He).
    intros H. apply IH in H as ((Hi' & Hd' & Hl') & Hr' & Hlr' & Ho' & He').
    unfold untouched. cbn [fold_left]. rewrite <- Ho.
    split; [repeat split; congruence|]. split; [congruence|]. split; [congruence|].
    split; [exact Ho'|]. rewrite He', He. unfold facts_of. cbn [flat_map].
    rewrite app_nil_r, <- app_assoc. reflexivity.
Qed.

Lemma save_opportunity_run_Ok self now opps n digest rid self' :
  save_opportunity_run self now opps n digest = (Ok rid, self') ->
  rid = last_run_id self + 1
  /\ untouched self self'
  /\ opportunity_runs self'
     = opportunity_runs self
       ++ [mkRunRow rid digest n (Z.of_nat (length opps)) now]
  /\ last_run_id self' = rid
  /\ opportunities self'
     = fold_left (fun table o => insert_or_replace (written_row now rid o) table)
         opps (opportunities self)
  /\ map evidence_fact (opportunity_evidence self')
     = map evidence_fact (opportunity_evidence self) ++ facts_of rid opps.
Proof.
  unfold save_opportunity_run.
  destruct (bind_run self digest n); try (intros [= ?]; fail).
  destruct (save_opportunities _ _ _ _) as [[u| |] self2] eqn:H; try (intros [= ?]; fail).
  intros [= <- <-]. apply save_opportunities_Ok in H as (Hu & Hr & Hl & Ho & He).
  split; [reflexivity|]. split; [exact Hu|]. split; [exact Hr|]. split; [exact Hl|].
  split; [exact Ho | exact He].
Qed.

(** In a run whose ids are distinct and whose number no stored row has,
    nothing is replaced. *)
Lemma fresh_rows_appended now rid opps :
  forall table,
    (forall r, In r table -> o_run_id r = rid -> ~ In (o_id r) (map id opps)) ->
    List.NoDup (map id opps) ->
    fold_left (fun table o => insert_or_replace (written_row now rid o) table) opps table
    = table ++ map (written_row now rid) opps.
Proof.
  induction opps as [|o opps IH]; intros table Hfresh Hnd; cbn [fold_left map].
  - rewrite app_nil_r. reflexivity.
  - apply List.NoDup_cons_iff in Hnd as [Ho Hnd].
    assert (E : insert_or_replace (written_row now rid o) table
                = table ++ [written_row now rid o]).
    { unfold insert_or_replace. f_equal. apply filter_all.
      apply List.Forall_forall. intros r Hr. apply negb_true_iff.
      cbn [written_row o_id o_run_id].
      destruct (same_key (id o) rid r) eqn:Hk; [|reflexivity].
      apply same_key_spec in Hk. injection Hk as Hid Hrid.
      exfalso. apply (Hfresh r Hr Hrid). left. symmetry. exact Hid. }
    rewrite E, IH.
    + rewrite <- app_assoc. reflexivity.
    + intros r Hr Hrid Hin. apply in_app_iff in Hr as [Hr|[<-|[]]].
      * apply (Hfresh r Hr Hrid). right. exact Hin.
      * apply Ho. exact Hin.
    + exact Hnd.
Qed.

(** *** Reading back *)

Lemma sorted_head_is_latest (l : list (opportunity_row * run_row)) x :
  In x l ->
  (forall y, In y l -> y = x \/ o_generated_at y.1 < o_generated_at x.1) ->
  exists rest, sort_by latest_first l = x :: rest.
Proof.
  intros Hin Hmax.
  assert (Htotal : forall a b, latest_first a b = true \/ latest_first b a = true).
  { intros a b. unfold latest_first. rewrite !Z.leb_le. lia. }
  assert (Htrans : forall a b c, latest_first a b = true -> latest_first b c = true ->
                                 latest_first a c = true).
  { intros a b c. unfold latest_first. rewrite !Z.leb_le. lia. }
  pose proof (sort_by_sorted latest_first Htotal Htrans l) as Hs.
  assert (Hin' : In x (sort_by latest_first l)) by (apply In_sort_by, Hin).
  assert (Hmax' : forall y, In y (sort_by latest_first l) ->
                    y = x \/ o_generated_at y.1 < o_generated_at x.1).
  { intros y Hy. apply Hmax. apply In_sort_by in Hy. exact Hy. }
  destruct (sort_by latest_first l) as [|h t]; [contradiction|].
  exists t. f_equal. destruct Hin' as [E|Hx]; [exact E|].
  apply StronglySorted_inv in Hs as [_ Hh]. rewrite List.Forall_forall in Hh.
  specialize (Hh x Hx). unfold latest_first in Hh. apply Z.leb_le in Hh.
  destruct (Hmax' h (or_introl eq_refl)) as [E|Hlt]; [exact E | lia].
Qed.

Lemma NoDup_map_id (opps : list Opportunity) a b :
  List.NoDup (map id opps) -> In a opps -> In b opps -> id a = id b -> a = b.
Proof.
  induction opps as [|o opps IH]; [contradiction|]. cbn [map].
  intros Hnd Ha Hb E. apply List.NoDup_cons_iff in Hnd as [Ho Hnd].
  destruct Ha as [<-|Ha], Hb as [<-|Hb].
  - reflexivity.
  - exfalso. apply Ho. rewrite E. apply in_map, Hb.
  - exfalso. apply Ho. rewrite <- E. apply in_map, Ha.
  - apply IH; assumption.
Qed.

Lemma evidence_of_facts self oid rid :
  evidence_of self oid rid
  = map snd (List.filter (fun f => String.eqb f.1.1 oid && (f.1.2 =? rid))
               (map evidence_fact (opportunity_evidence self))).
Proof.
  unfold evidence_of. induction (opportunity_evidence self) as [|e table IH];
    [reflexivity|].
  cbn [map List.filter evidence_fact fst snd].
  destruct (String.eqb (e_opportunity_id e) oid && (e_run_id e =? rid));
    cbn [map snd]; rewrite IH; reflexivity.
Qed.

Lemma facts_of_one rid opps o :
  List.NoDup (map id opps) -> In o opps ->
  map snd (List.filter (fun f => String.eqb f.1.1 (id o) && (f.1.2 =? rid))
             (facts_of rid opps))
  = map (fun ev => mkStoredEvidence (ev_source ev) (item_title ev) (ev_url ev) (ev_score ev))
      (evidence o).
Proof.
  assert (Hown : forall o' : Opportunity,
            id o' = id o ->
            map snd (List.filter (fun f => String.eqb f.1.1 (id o) && (f.1.2 =? rid))
                       (map (fun ev =>
                          (id o', rid,
                           mkStoredEvidence (ev_source ev) (item_title ev) (ev_url ev)
                             (ev_score ev))) (evidence o')))
            = map (fun ev => mkStoredEvidence (ev_source ev) (item_title ev) (ev_url ev)
                               (ev_score ev)) (evidence o')).
  { intros o' E. rewrite E. induction (evidence o') as [|ev evs IH]; [reflexivity|].
    cbn [map List.filter fst snd]. rewrite String.eqb_refl, Z.eqb_refl.
    cbn [andb map snd]. rewrite IH. reflexivity. }
  assert (Hother : forall o' : Opportunity,
            id o' <> id o ->
            List.filter (fun f => String.eqb f.1.1 (id o) && (f.1.2 =? rid))
              (map (fun ev =>
                 (id o', rid,
                  mkStoredEvidence (ev_source ev) (item_title ev) (ev_url ev)
                    (ev_score ev))) (evidence o')) = []).
  { intros o' E. induction (evidence o') as [|ev evs IH]; [reflexivity|].
    cbn [map List.filter fst snd].
    destruct (String.eqb_spec (id o') (id o)); [contradiction|]. exact IH. }
  unfold facts_of. induction opps as [|o' opps IH]; [contradiction|].
  cbn [map flat_map]. intros Hnd Hin. apply List.NoDup_cons_iff in Hnd as [Ho Hnd].
  rewrite List.filter_app, map_app. destruct Hin as [->|Hin].
  - rewrite Hown by reflexivity.
    assert (Hrest : List.filter (fun f => String.eqb f.1.1 (id o) && (f.1.2 =? rid))
                      (flat_map (fun o0 =>
                         map (fun ev =>
                           (id o0, rid,
                            mkStoredEvidence (ev_source ev) (item_title ev) (ev_url ev)
                              (ev_score ev))) (evidence o0)) opps) = []).
    { clear IH Hnd. induction opps as [|o2 opps IH2]; [reflexivity|].
      cbn [flat_map]. rewrite List.filter_app, Hother, IH2; [reflexivity| |].
      - intros Hin. apply Ho. right. exact Hin.
      - intros E. apply Ho. left. exact E. }
    rewrite Hrest. apply app_nil_r.
  - rewrite Hother; [apply IH; assumption|].
    intros E. apply Ho. rewrite E. apply in_map, Hin.
Qed.

Lemma no_facts_of_later_run table oid rid last :
  Forall (fun e => e_run_id e <= last) table ->
  last < rid ->
  List.filter (fun f => String.eqb f.1.1 oid && (f.1.2 =? rid)) (map evidence_fact table)
  = [].
Proof.
  intros Hall Hlt. induction Hall as [|e table He _ IH]; [reflexivity|].
  cbn [map List.filter evidence_fact fst snd].
  destruct (Z.eqb_spec (e_run_id e) rid) as [E|_]; [lia|].
  rewrite andb_false_r. exact IH.
Qed.

(** X23.  An opportunity saved in a run is what [get_opportunity_by_id] returns
    for its id right after, with its evidence in order and the digest of the
    run, provided the ids of the run are distinct and the rows stored under
    its id are older.  Its [competition_notes] is read back as the text it
    was, and as the empty text when it was [None] or NaN; a number is read
    back as a text of it, which is not rendered here. *)
Theorem saved_opportunity_is_read_back self now opps n digest rid self' o :
  consistent self ->
  save_opportunity_run self now opps n digest = (Ok rid, self') ->
  List.NoDup (map id opps) ->
  In o opps ->
  Forall (fun row => o_id row = id o -> o_generated_at row < now) (opportunities self) ->
  get_opportunity_by_id self' (id o)
  = match competition_notes o with
    | PStr notes => Ok (Some (stored_as o rid notes now digest))
    | PNone | PFloat FNaN => Ok (Some (stored_as o rid EmptyString now digest))
    | _ => Unmodelled
    end.
Proof.
  intros (_ & Hruns & Hopps & Hevs) Hsave Hnd Hin Holder.
  apply save_opportunity_run_Ok in Hsave as (Hrid & _ & Hr & _ & Ho & He).
  rewrite List.Forall_forall in Hruns, Hopps, Hevs, Holder.
  rewrite fresh_rows_appended in Ho; [|
    intros r Hr' E; apply Hopps in Hr'; lia | exact Hnd].
  set (run := mkRunRow rid digest n (Z.of_nat (length opps)) now) in *.
  set (row := written_row now rid o).
  assert (Hjoin : forall o' r', In (o', r') (joined self') <->
            In o' (opportunities self') /\ In r' (opportunity_runs self')
            /\ run_row_id r' = o_run_id o').
  { intros o' r'. unfold joined. rewrite in_flat_map. split.
    - intros (x & Hx & Hp). apply in_map_iff in Hp as (y & [= <- <-] & Hy).
      apply filter_In in Hy as [Hy E]. apply Z.eqb_eq in E. auto.
    - intros (Hx & Hy & E). exists o'. split; [exact Hx|].
      apply in_map_iff. exists r'. split; [reflexivity|].
      apply filter_In. split; [exact Hy | apply Z.eqb_eq, E]. }
  assert (Hmine : In (row, run)
            (List.filter (fun p => String.eqb (o_id p.1) (id o)) (joined self'))).
  { apply filter_In. split; [|apply String.eqb_refl].
    apply Hjoin. rewrite Ho, Hr. split; [|split; [|reflexivity]].
    - apply in_app_iff. right. apply in_map, Hin.
    - apply in_app_iff. right. left. reflexivity. }
  assert (Hmax : forall y,
            In y (List.filter (fun p => String.eqb (o_id p.1) (id o)) (joined self')) ->
            y = (row, run) \/ o_generated_at y.1 < o_generated_at (row, run).1).
  { intros [o' r'] Hy. apply filter_In in Hy as [Hy E]. cbn [fst] in E.
    apply String.eqb_eq in E. apply Hjoin in Hy as (Hx & Hy & Hk).
    rewrite Ho in Hx. apply in_app_iff in Hx as [Hx|Hx].
    - right. cbn [fst row written_row o_generated_at]. apply Holder; assumption.
    - left. apply in_map_iff in Hx as (o2 & <- & Ho2).
      cbn [written_row o_id] in E.
      assert (o2 = o) as -> by (apply (NoDup_map_id opps); assumption).
      f_equal. rewrite Hr in Hy. cbn [written_row o_run_id] in Hk.
      apply in_app_iff in Hy as [Hy|[<-|[]]]; [|reflexivity].
      apply Hruns in Hy. lia. }
  destruct (sorted_head_is_latest _ _ Hmine Hmax) as [rest Hsorted].
  unfold get_opportunity_by_id. cbv zeta. rewrite Hsorted.
  cbn [row written_row o_id o_run_id o_title o_pain o_target_buyer o_solution_shape
       o_market_type o_effort_estimate o_monetization o_moat o_confidence
       o_competition_notes o_generated_at run run_digest_id].
  assert (Hev : evidence_of self' (id o) rid
                = map (fun ev => mkStoredEvidence (ev_source ev) (item_title ev)
                                   (ev_url ev) (ev_score ev)) (evidence o)).
  { rewrite evidence_of_facts, He, List.filter_app, map_app.
    rewrite (facts_of_one rid opps o Hnd Hin).
    rewrite (no_facts_of_later_run _ (id o) rid (last_run_id self)); [reflexivity| |lia].
    apply List.Forall_forall, Hevs. }
  rewrite Hev. unfold stored_as.
  destruct (competition_notes o) as [|b|z|[| |q]|s|l|m];
    cbn [stored_notes column_text bind]; reflexivity.
Qed.

(** X24.  What [get_opportunity_by_id] returns is the latest version stored under
    the id: a row of that id that has its run, than which no such row is
    newer, with the digest of the run and the evidence written under the
    key of the row.  It returns nothing exactly when the id has no such
    row. *)
Theorem get_opportunity_by_id_latest self oid r :
  get_opportunity_by_id self oid = Ok r ->
  match r with
  | None => forall p, In p (joined self) -> o_id p.1 <> oid
  | Some s =>
      so_id s = oid
      /\ (exists o run,
            In (o, run) (joined self)
            /\ key o = (so_id s, so_run_id s)
            /\ o_generated_at o = so_generated_at s
            /\ o_title o = so_title s
            /\ o_confidence o = so_confidence s
            /\ run_digest_id run = so_digest_id s)
      /\ (forall p, In p (joined self) -> o_id p.1 = oid ->
                    o_generated_at p.1 <= so_generated_at s)
      /\ so_evidence s = evidence_of self oid (so_run_id s)
  end.
Proof.
  unfold get_opportunity_by_id. cbv zeta.
  set (found := List.filter (fun row => String.eqb (o_id row.1) oid) (joined self)).
  assert (Htotal : forall a b, latest_first a b = true \/ latest_first b a = true).
  { intros a b. unfold latest_first. rewrite !Z.leb_le. lia. }
  assert (Htrans : forall a b c, latest_first a b = true -> latest_first b c = true ->
                                 latest_first a c = true).
  { intros a b c. unfold latest_first. rewrite !Z.leb_le. lia. }
  pose proof (sort_by_sorted latest_first Htotal Htrans found) as Hs.
  assert (Hin : forall p, In p (sort_by latest_first found)
                          <-> In p (joined self) /\ o_id p.1 = oid).
  { intros p. rewrite In_sort_by. unfold found. rewrite filter_In, String.eqb_eq. tauto. }
  destruct (sort_by latest_first found) as [|[o run] rest].
  - intros [= <-]. intros p Hp E. apply (Hin p). auto.
  - intros H. apply bind_Ok in H as (notes & _ & H). injection H as <-.
    cbn [so_id so_run_id so_generated_at so_title so_confidence so_digest_id so_evidence].
    destruct (proj1 (Hin (o, run)) (or_introl eq_refl)) as [Hj Hid]. cbn [fst] in Hid.
    split; [exact Hid|]. split; [exists o, run; repeat split; assumption|].
    split; [|rewrite Hid; reflexivity].
    intros p Hp E. assert (Hp' : In p ((o, run) :: rest)) by (apply Hin; auto).
    destruct Hp' as [<-|Hp']; [cbn [fst]; lia|].
    apply StronglySorted_inv in Hs as [_ Hh]. rewrite List.Forall_forall in Hh.
    specialize (Hh p Hp'). unfold latest_first in Hh. apply Z.leb_le in Hh. exact Hh.
Qed.

End OpportunityFacts.

(** ** What a structured report leaves in the store *)

Module EngineMore.
Import Py Models Scorer Db Engine Basics Scenarios Notions DbFacts ParserFacts.
Import ParserNotions ParserMore OpportunityStore OpportunityNotions OpportunityFacts.
Import EngineNotions.

(** *** The ids of the store *)

Lemma consistent_empty : consistent empty_storage.
Proof. unfold consistent. cbn. repeat split; constructor. Qed.

Lemma consistent_save_digest self now kind text n :
  consistent self -> consistent (save_digest self now kind text n).
Proof.
  intros (Hd & Hr & Ho & He). unfold consistent, save_digest.
  cbn [digests last_digest_id opportunity_runs last_run_id opportunities
       opportunity_evidence digest_id].
  split; [|auto]. apply Forall_app. split.
  - eapply List.Forall_impl; [|exact Hd]. intros d H. simpl in H. lia.
  - constructor; [simpl; lia | constructor].
Qed.

Lemma fold_insert_or_replace_Forall (P : opportunity_row -> Prop) now rid opps :
  (forall o, P (written_row now rid o)) ->
  forall table,
    Forall P table ->
    Forall P (fold_left (fun table o => insert_or_replace (written_row now rid o) table)
                opps table).
Proof.
  intros Hnew. induction opps as [|o opps IH]; intros table Ht; cbn [fold_left];
    [exact Ht|].
  apply IH. unfold insert_or_replace. apply Forall_app. split.
  - rewrite List.Forall_forall in *. intros r Hr. apply filter_In in Hr as [Hr _]. auto.
  - constructor; [apply Hnew | constructor].
Qed.

Lemma consistent_save_run self now opps n digest rid self' :
  consistent self ->
  save_opportunity_run self now opps n digest = (Ok rid, self') ->
  consistent self'.
Proof.
  intros (Hd & Hr & Ho & He) H.
  apply save_opportunity_run_Ok in H as (-> & (_ & Hd' & Hl') & Hr' & Hlr & Ho' & He').
  unfold consistent. rewrite Hd', Hl', Hr', Hlr, Ho'.
  split; [exact Hd|]. split; [|split].
  - apply Forall_app. split.
    + eapply List.Forall_impl; [|exact Hr]. intros r H. simpl in H. lia.
    + constructor; [simpl; lia | constructor].
  - apply fold_insert_or_replace_Forall; [intros o; simpl; lia|].
    eapply List.Forall_impl; [|exact Ho]. intros r H. simpl in H. lia.
  - assert (Hfacts : Forall (fun f : string * Z * stored_evidence =>
                               f.1.2 <= last_run_id self + 1)
                       (map evidence_fact (opportunity_evidence self'))).
    { rewrite He'. apply Forall_app. split.
      - apply List.Forall_forall. intros f Hf. apply in_map_iff in Hf as (e & <- & Hin).
        rewrite List.Forall_forall in He. apply He in Hin. simpl. lia.
      - apply List.Forall_forall. intros f Hf. unfold facts_of in Hf.
        apply in_flat_map in Hf as (o & _ & Hf). apply in_map_iff in Hf as (ev & <- & _).
        simpl. lia. }
    apply List.Forall_forall. intros e Hin. rewrite List.Forall_forall in Hfacts.
    apply (Hfacts (evidence_fact e)). apply in_map, Hin.
Qed.

Lemma fold_max_le l : forall a m, a <= m -> Forall (fun x => x <= m) l ->
  fold_left Z.max l a <= m.
Proof.
  induction l as [|x l IH]; intros a m Ha Hl; cbn [fold_left]; [exact Ha|].
  apply Forall_cons in Hl as [Hx Hl]. apply IH; [lia | exact Hl].
Qed.

(** The digest a call has just saved is the one the next query finds. *)
Lemma latest_digest_id_saved self now kind text n :
  consistent self ->
  latest_digest_id (save_digest self now kind text n) = Some (last_digest_id self + 1).
Proof.
  intros (Hd & _). unfold latest_digest_id, save_digest. cbn [digests].
  destruct (digests self) as [|d rest]; [reflexivity|].
  cbn [app]. rewrite map_app, fold_left_app. cbn [map fold_left digest_id]. f_equal.
  apply Forall_cons in Hd as [Hd Hrest].
  assert (fold_left Z.max (map digest_id rest) (digest_id d) <= last_digest_id self).
  { apply fold_max_le; [exact Hd|]. apply List.Forall_forall. intros x Hx.
    apply in_map_iff in Hx as (r & <- & Hr). rewrite List.Forall_forall in Hrest.
    apply Hrest, Hr. }
  lia.
Qed.

(** *** What a structured report leaves in the store *)

Lemma parse_opportunities_json_sound json_loads raw parsed :
  parse_opportunities_json json_loads raw = Ok parsed -> Forall sound parsed.
Proof.
  unfold parse_opportunities_json. intros H.
  apply bind_Ok in H as (json_str & _ & H). apply bind_Ok in H as (data & _ & H).
  apply parse_loaded_sound in H. exact H.
Qed.

Lemma store_opportunities_Ok self t_digest t_run items parsed o opps self' :
  consistent (_storage self) ->
  store_opportunities self t_digest t_run items parsed = (Ok (Some (o :: opps)), self') ->
  let st := _storage self in
  let st' := _storage self' in
  let n := Z.of_nat (length items) in
  let did := last_digest_id st + 1 in
  let rid := last_run_id st + 1 in
  o :: opps = map (fun opp => set_run_id opp rid) parsed
  /\ Db.items st' = Db.items st
  /\ digests st'
     = digests st ++ [mkDigestRow did "opportunities" (_opportunities_to_text parsed) n
                        t_digest]
  /\ opportunity_runs st'
     = opportunity_runs st
       ++ [mkRunRow rid (Some did) n (Z.of_nat (length parsed)) t_run]
  /\ consistent st'.
Proof.
  intros Hc. unfold store_opportunities. destruct parsed as [|p parsed]; [discriminate|].
  set (all := p :: parsed) in *. clearbody all.
  rewrite (latest_digest_id_saved _ _ _ _ _ Hc).
  destruct (save_opportunity_run _ _ _ _ _) as [[rid| |] st2] eqn:Hs; try discriminate.
  intros [= Ho <-]. cbv zeta. cbn [_storage with_storage].
  pose proof (consistent_save_run _ _ _ _ _ _ _ (consistent_save_digest _ t_digest
                "opportunities" (_opportunities_to_text all) (Z.of_nat (length items)) Hc)
                Hs) as Hc'.
  apply save_opportunity_run_Ok in Hs as (-> & (Hi & Hd & _) & Hr & _).
  cbn [save_digest last_run_id Db.items digests opportunity_runs] in *.
  split; [symmetry; exact Ho|]. split; [exact Hi|]. split; [exact Hd|].
  split; [exact Hr | exact Hc'].
Qed.

Lemma store_opportunities_empty self t_digest t_run items parsed self' :
  store_opportunities self t_digest t_run items parsed = (Ok (Some []), self') ->
  self' = self.
Proof.
  unfold store_opportunities. destruct parsed as [|p parsed]; [congruence|].
  destruct (save_opportunity_run _ _ _ _ _) as [[rid| |] st2]; discriminate.
Qed.

Lemma store_opportunities_not_None self t_digest t_run items parsed self' :
  store_opportunities self t_digest t_run items parsed <> (Ok None, self').
Proof.
  unfold store_opportunities. destruct parsed as [|p parsed]; [discriminate|].
  destruct (save_opportunity_run _ _ _ _ _) as [[rid| |] st2]; discriminate.
Qed.

(** A report either leaves the store as it was and returns no opportunity,
    or is what [store_opportunities] makes of a response that parsed. *)
Lemma report_outcome json_loads self t_items t_digest t_run r self' :
  structured_opportunity_report json_loads self t_items t_digest t_run = (r, self') ->
  (_storage self' = _storage self /\ forall o opps, r <> Ok (Some (o :: opps)))
  \/ exists raw parsed self1,
       _storage self1 = _storage self
       /\ parse_opportunities_json json_loads raw = Ok parsed
       /\ store_opportunities self1 t_digest t_run
            (get_items_last_n_days (_storage self) t_items 14 35) parsed = (r, self').
Proof.
  unfold structured_opportunity_report.
  destruct (get_items_last_n_days (_storage self) t_items 14 35) as [|item items'] eqn:Hi.
  { intros [= <- <-]. left. split; [reflexivity | discriminate]. }
  set (items := item :: items') in *. clearbody items.
  unfold complete. cbn [_llm _storage requests].
  destruct (_llm self (requests self) (first_request items)) as [response|e|].
  - destruct (parse_opportunities_json json_loads (text response)) as [parsed|e1|] eqn:Hp.
    + intros H. right. eexists _, parsed, _. split; [|split; [exact Hp | exact H]].
      reflexivity.
    + destruct (is_ValueError e1).
      * cbn [_llm _storage requests].
        destruct (_llm self _ _) as [r2|e2|].
        -- destruct (parse_opportunities_json json_loads (text r2)) as [parsed|e2|] eqn:Hp2.
           ++ intros H. right. eexists _, parsed, _.
              split; [|split; [exact Hp2 | exact H]]. reflexivity.
           ++ destruct (caught_by_retry e2); intros [= <- <-]; left;
                (split; [reflexivity | discriminate]).
           ++ intros [= <- <-]. left. split; [reflexivity | discriminate].
        -- destruct (caught_by_retry e2); intros [= <- <-]; left;
             (split; [reflexivity | discriminate]).
        -- intros [= <- <-]. left. split; [reflexivity | discriminate].
      * intros [= <- <-]. left. split; [reflexivity | discriminate].
    + intros [= <- <-]. left. split; [reflexivity | discriminate].
  - destruct (is_LLMError e); intros [= <- <-]; left; (split; [reflexivity | discriminate]).
  - intros [= <- <-]. left. split; [reflexivity | discriminate].
Qed.

(** Whatever the saving of a run returns or raises, it leaves the items. *)
Lemma save_opportunities_items now rid opps :
  forall self r self',
    save_opportunities now rid opps self = (r, self') -> Db.items self' = Db.items self.
Proof.
  induction opps as [|opp opps IH]; intros self r self'; cbn [save_opportunities].
  - intros [= _ <-]. reflexivity.
  - assert (H1 : Db.items (save_opportunity now rid opp self).2 = Db.items self).
    { unfold save_opportunity. destruct (bind_opportunity _ _); try reflexivity.
      destruct (insert_evidence _ _ _ _ _) as [u [table last]]. reflexivity. }
    destruct (save_opportunity now rid opp self) as [[u|e|] self1]; cbn [snd] in H1.
    + intros H. apply IH in H. congruence.
    + intros [= _ <-]. exact H1.
    + intros [= _ <-]. exact H1.
Qed.

Lemma save_opportunity_run_items self now opps n digest r self' :
  save_opportunity_run self now opps n digest = (r, self') ->
  Db.items self' = Db.items self.
Proof.
  unfold save_opportunity_run. destruct (bind_run self digest n).
  - destruct (save_opportunities _ _ _ _) as [[u|e|] self2] eqn:H;
      apply save_opportunities_items in H; cbn [Db.items] in H;
      intros [= _ <-]; exact H.
  - intros [= _ <-]. reflexivity.
  - intros [= _ <-]. reflexivity.
Qed.

Lemma store_opportunities_items self t_digest t_run items parsed r self' :
  store_opportunities self t_digest t_run items parsed = (r, self') ->
  Db.items (_storage self') = Db.items (_storage self).
Proof.
  unfold store_opportunities. destruct parsed as [|p parsed].
  - intros [= _ <-]. reflexivity.
  - destruct (save_opportunity_run _ _ _ _ _) as [[rid|e|] st2] eqn:H;
      apply save_opportunity_run_items in H; cbn [save_digest Db.items] in H;
      intros [= _ <-]; cbn [_storage with_storage]; exact H.
Qed.

(** X25.  Whatever a structured report returns or raises, the items are as
    before.  When it returns opportunities, they are the ones parsed, each
    [sound] and carrying the id of the run, also those whose
    [competition_notes] is [None]; the store has one more digest, of type
    [opportunities], and one more run, linked to that digest and counting
    the items of the window and the opportunities.  When it returns none,
    or no result, the store is as it was. *)
Theorem structured_report_saved json_loads self t_items t_digest t_run r self' :
  consistent (_storage self) ->
  structured_opportunity_report json_loads self t_items t_digest t_run = (r, self') ->
  let st := _storage self in
  let st' := _storage self' in
  let n := Z.of_nat (length (get_items_last_n_days st t_items 14 35)) in
  let did := last_digest_id st + 1 in
  let rid := last_run_id st + 1 in
  Db.items st' = Db.items st
  /\ match r with
     | Ok (Some (o :: opps)) =>
         exists parsed,
           o :: opps = map (fun opp => set_run_id opp rid) parsed
           /\ Forall sound parsed
           /\ digests st'
              = digests st
                ++ [mkDigestRow did "opportunities" (_opportunities_to_text parsed) n
                      t_digest]
           /\ opportunity_runs st'
              = opportunity_runs st
                ++ [mkRunRow rid (Some did) n (Z.of_nat (length (o :: opps))) t_run]
           /\ consistent st'
     | Ok _ => st' = st
     | _ => True
     end.
Proof.
  intros Hc H. cbv zeta. apply report_outcome in H as [[Hst Hno]|H].
  - split; [rewrite Hst; reflexivity|].
    destruct r as [[[|o opps]|]| |]; try exact Hst; try exact I.
    exfalso. apply (Hno o opps). reflexivity.
  - destruct H as (raw & parsed & self1 & Hst & Hp & H).
    split; [rewrite <- Hst; apply (store_opportunities_items _ _ _ _ _ _ _ H)|].
    destruct r as [[[|o opps]|]| |]; try exact I.
    + apply store_opportunities_empty in H. subst self'. exact Hst.
    + rewrite <- Hst in Hc.
      pose proof (store_opportunities_Ok _ _ _ _ _ _ _ _ Hc H) as G. cbv zeta in G.
      rewrite Hst in G. destruct G as (G1 & G2 & G3 & G4 & G5).
      exists parsed. split; [exact G1|].
      split; [apply (parse_opportunities_json_sound _ _ _ Hp)|].
      split; [exact G3|]. split; [|exact G5].
      rewrite G4, G1, length_map. reflexivity.
    + exfalso. apply (store_opportunities_not_None _ _ _ _ _ _ H).
Qed.

(** *** What the prompt shows *)

Lemma take_take n s : take n (take n s) = take n s.
Proof.
  revert s. induction n as [|n IH]; intros [|c s]; simpl; try reflexivity.
  rewrite IH. reflexivity.
Qed.

(** X26.  With [max_items] at least 1, the items after the first
    [max_items] change nothing in the prompt.  With any [max_items], the
    characters of a body after the first 500 change nothing in it.  With
    [max_items] 0 the prompt of a list that is not empty is the empty text,
    where the prompt of the empty list is the text that no items were
    collected: the first statement does not hold there. *)
Theorem prompt_is_capped items max_items :
  ((0 < max_items)%nat ->
   _format_items_for_prompt (firstn max_items items) max_items
   = _format_items_for_prompt items max_items)
  /\ _format_items_for_prompt (map capped_body items) max_items
     = _format_items_for_prompt items max_items
  /\ (items <> [] ->
      _format_items_for_prompt items 0 = []
      /\ _format_items_for_prompt (firstn 0 items) 0 = [Lit "(no items collected)"]).
Proof.
  unfold _format_items_for_prompt. split; [|split].
  - intros Hm. destruct items as [|x items]; [destruct max_items; reflexivity|].
    destruct max_items as [|m]; [lia|].
    rewrite firstn_firstn, Nat.min_id. reflexivity.
  - destruct items as [|x items]; [reflexivity|]. cbn [map].
    change (capped_body x :: map capped_body items) with (map capped_body (x :: items)).
    generalize (x :: items). intros l. f_equal.
    rewrite List.firstn_map, map_map. apply map_ext.
    intros item. unfold format_item, capped_body. cbn [body score source title url].
    rewrite take_take. reflexivity.
  - intros Hne. destruct items as [|x items]; [contradiction|]. split; reflexivity.
Qed.

End EngineMore.

(** ** Collection *)

Module CollectFacts.
Import Py Models Scorer Db ItemStore Collect Basics Scenarios Notions StoreNotions.
Import Hashing ScorerFacts ScorerMore StoreFacts CollectNotions.

Lemma filter_items_scores items threshold kept :
  filter_items items threshold = Ok kept ->
  Forall (fun item => threshold <= score item <= 100) kept.
Proof.
  intros H. apply filter_items_Ok in H as (scored & Hs & ->).
  apply score_all_Forall2 in Hs.
  apply List.Forall_forall. intros item Hin. apply In_sort_by in Hin.
  apply filter_In in Hin as [Hin Hge]. apply Z.leb_le in Hge. split; [exact Hge|].
  clear -Hs Hin. induction Hs as [|x x' items scored Hx _ IH]; [contradiction|].
  destruct Hin as [<-|Hin]; [|apply IH, Hin].
  apply score_item_Ok in Hx as (p & e & _ & _ & ->). simpl. lia.
Qed.

Lemma filter_items_fit items threshold kept :
  filter_items items threshold = Ok kept ->
  Forall (fun item => fits (score item)) kept.
Proof.
  intros H. apply filter_items_Ok in H as (scored & Hs & ->).
  apply score_all_Forall2 in Hs.
  apply List.Forall_forall. intros item Hin. apply In_sort_by in Hin.
  apply filter_In in Hin as [Hin _].
  clear -Hs Hin. induction Hs as [|x x' items scored Hx _ IH]; [contradiction|].
  destruct Hin as [<-|Hin]; [|apply IH, Hin].
  apply score_item_Ok in Hx as (p & e & _ & _ & ->). unfold fits. simpl. lia.
Qed.

(** The loop never raises. *)
Lemma collect_loop_never_raises threshold collectors :
  forall total_raw total_stored db e,
    (collect_loop threshold collectors total_raw total_stored db).1 <> Raise e.
Proof.
  induction collectors as [|collector rest IH]; intros total_raw total_stored db e;
    cbn [collect_loop]; [discriminate|].
  destruct (collector db) as [[raw_items| |] db1]; [|apply IH|discriminate].
  destruct raw_items as [|x raw_items]; [apply IH|].
  destruct (filter_items (x :: raw_items) threshold) as [filtered| |];
    [|apply IH|discriminate].
  destruct (insert_items (tables db1) filtered) as [[new_count| |] storage1];
    [apply IH|apply IH|discriminate].
Qed.

(** A failure of a collector counts as an empty collection. *)
Lemma collect_loop_guarded threshold collectors :
  forall total_raw total_stored db,
    collect_loop threshold (map guarded collectors) total_raw total_stored db
    = collect_loop threshold collectors total_raw total_stored db.
Proof.
  induction collectors as [|collector rest IH]; intros total_raw total_stored db;
    cbn [map collect_loop]; [reflexivity|].
  unfold guarded at 1.
  destruct (collector db) as [[raw_items|e|] db1].
  - destruct raw_items as [|x raw_items]; [apply IH|].
    destruct (filter_items (x :: raw_items) threshold) as [filtered| |];
      [|apply IH|reflexivity].
    destruct (insert_items (tables db1) filtered) as [[new_count| |] storage1];
      [apply IH|apply IH|reflexivity].
  - cbn [length Z.of_nat]. rewrite Z.add_0_r. apply IH.
  - reflexivity.
Qed.

Lemma collected_nothing threshold total_stored storage r :
  (forall raw stored, r = Ok (raw, stored) -> stored = total_stored) ->
  collected threshold total_stored storage r storage.
Proof.
  intros Hcount. exists []. rewrite app_nil_r.
  split; [reflexivity|]. split; [constructor|]. split; [reflexivity|].
  split; [auto|]. intros raw stored E. rewrite (Hcount _ _ E). simpl. lia.
Qed.

Lemma collect_loop_spec threshold collectors :
  Forall keeps_tables collectors ->
  forall total_raw total_stored db r db',
    collect_loop threshold collectors total_raw total_stored db = (r, db') ->
    collected threshold total_stored (tables db) r (tables db').
Proof.
  induction 1 as [|collector rest Hkeep _ IH];
    intros total_raw total_stored db r db'; cbn [collect_loop].
  - intros [= <- <-]. apply collected_nothing.
    intros raw stored [= _ <-]. reflexivity.
  - specialize (Hkeep db).
    destruct (collector db) as [outcome db1]. cbn [snd] in Hkeep. rewrite <- Hkeep.
    assert (Hstop : (Unmodelled, db1) = (r, db') ->
                    collected threshold total_stored (tables db1) r (tables db')).
    { intros [= <- <-]. apply collected_nothing. discriminate. }
    destruct outcome as [raw_items| |]; [|apply IH|apply Hstop].
    destruct raw_items as [|x raw_items]; [apply IH|].
    destruct (filter_items (x :: raw_items) threshold) as [filtered| |] eqn:Hf;
      [|apply IH|apply Hstop].
    pose proof (filter_items_scores _ _ _ Hf) as Hscores.
    pose proof (filter_items_fit _ _ _ Hf) as Hfit.
    destruct (insert_items (tables db1) filtered) as [r1 storage1] eqn:Hi.
    unfold insert_items in Hi.
    pose proof (insert_loop_any _ _ _ _ _ Hi) as [(added1 & H1 & Hsub1 & Ho1 & Hnd1) Hraise].
    assert (Hadded1 : Forall (fun item => threshold <= score item <= 100) added1).
    { rewrite List.Forall_forall in *. intros item Hin. apply Hscores, Hsub1, Hin. }
    destruct r1 as [new_count|e|].
    + apply insert_loop_Ok in Hi as (added & Ha & Hn & _).
      assert (added = added1) as -> by (rewrite H1 in Ha; apply app_inv_head in Ha; congruence).
      intros H. apply IH in H as (added2 & H2 & Hall2 & Ho2 & Hnd2 & Hcount).
      cbn [tables with_tables] in *.
      exists (added1 ++ added2).
      split; [rewrite H2, H1, app_assoc; reflexivity|].
      split; [apply Forall_app; split; assumption|].
      split; [congruence|]. split; [auto|].
      intros raw stored E. rewrite (Hcount _ _ E), length_app. lia.
    + exfalso. exact (Hraise e eq_refl Hfit).
    + intros [= <- <-]. cbn [tables with_tables]. exists added1.
      split; [exact H1|]. split; [exact Hadded1|]. split; [exact Ho1|].
      split; [exact Hnd1 | discriminate].
Qed.

(** X27.  [cmd_collect] never raises, and a failure of a collector counts as
    an empty collection: the collectors after it run as they would.  When
    no collector writes a table other than [collector_state], the call
    only adds rows to [items], after the rows that were there, each with a
    score between the threshold and 100, and returns how many it added;
    keys that were distinct stay distinct. *)
Theorem cmd_collect_spec threshold collectors db r db' :
  cmd_collect threshold collectors db = (r, db') ->
  (forall e, r <> Raise e)
  /\ cmd_collect threshold (map guarded collectors) db = (r, db')
  /\ (Forall keeps_tables collectors ->
      exists added,
        items (tables db') = items (tables db) ++ added
        /\ Forall (fun item => threshold <= score item <= 100) added
        /\ other_tables (tables db') = other_tables (tables db)
        /\ (distinct_hashes (tables db) -> distinct_hashes (tables db'))
        /\ forall n, r = Ok n -> n = Z.of_nat (length added)).
Proof.
  unfold cmd_collect. rewrite collect_loop_guarded.
  pose proof (collect_loop_never_raises threshold collectors 0 0 db) as Hno.
  destruct (collect_loop threshold collectors 0 0 db) as [r1 db1] eqn:H.
  cbn [fst] in Hno. intros E.
  assert (Hr : db1 = db' /\ forall raw stored, r1 = Ok (raw, stored) -> r = Ok stored).
  { destruct r1 as [[raw stored]|e|]; injection E as <- <-;
      (split; [reflexivity|]); intros raw' stored' [= ]; subst; reflexivity. }
  destruct Hr as [-> Hr].
  split; [|split; [exact E|]].
  - destruct r1 as [[raw stored]|e|]; injection E as <-; try discriminate.
    exfalso. exact (Hno e eq_refl).
  - intros Hkeep. apply (collect_loop_spec _ _ Hkeep) in H
      as (added & H1 & H2 & H3 & H4 & Hcount).
    exists added. repeat (split; [assumption|]). intros n ->.
    destruct r1 as [[raw stored]|e|]; try discriminate.
    injection E as <-. rewrite (Hcount raw stored eq_refl). lia.
Qed.

End CollectFacts.

(** ** Examples for the further properties *)

Module MoreExamples.
Import Py Models Scorer Db Engine Basics Scenarios Notions.
Import Hashing ItemStore StoreNotions StoreFacts.
Import Reports ReportNotions ReportFacts.
Import OpportunityStore OpportunityNotions OpportunityFacts.
Import ParserNotions EngineNotions EngineMore.
Import Collect CollectNotions CollectFacts MoreScenarios.

Lemma hash_input_injective_witness :
  hash_input plain_issue = hash_input plain_issue_again
  /\ source plain_issue = source plain_issue_again
  /\ source_id plain_issue = source_id plain_issue_again
  /\ content_hash plain_issue = content_hash plain_issue_again.
Proof.
  assert (H : hash_input plain_issue = hash_input plain_issue_again) by reflexivity.
  split; [exact H | exact (hash_input_injective _ _ H)].
Defined.

Lemma insert_item_spec_witness :
  insert_item empty_storage plain_issue
  = (Ok true, with_items empty_storage [plain_issue])
  /\ true = negb (has_item empty_storage (content_hash plain_issue))
  /\ items (with_items empty_storage [plain_issue]) = items empty_storage ++ [plain_issue]
  /\ other_tables (with_items empty_storage [plain_issue]) = other_tables empty_storage
  /\ has_item (with_items empty_storage [plain_issue]) (content_hash plain_issue) = true.
Proof.
  assert (H : insert_item empty_storage plain_issue
              = (Ok true, with_items empty_storage [plain_issue]))
    by (vm_compute; reflexivity).
  split; [exact H | exact (insert_item_spec _ _ _ _ H)].
Defined.

(** The second version of the issue is not stored: its key is taken. *)
Lemma insert_items_spec_witness :
  insert_items empty_storage [plain_issue; feed_entry; plain_issue_again]
  = (Ok 2, with_items empty_storage [plain_issue; feed_entry])
  /\ exists added,
       items (with_items empty_storage [plain_issue; feed_entry])
       = items empty_storage ++ added
       /\ 2 = Z.of_nat (length added)
       /\ (forall item, In item added ->
                        In item [plain_issue; feed_entry; plain_issue_again])
       /\ other_tables (with_items empty_storage [plain_issue; feed_entry])
          = other_tables empty_storage
       /\ (forall item, In item [plain_issue; feed_entry; plain_issue_again] ->
             has_item (with_items empty_storage [plain_issue; feed_entry])
               (content_hash item) = true)
       /\ (distinct_hashes empty_storage ->
           distinct_hashes (with_items empty_storage [plain_issue; feed_entry])).
Proof.
  assert (H : insert_items empty_storage [plain_issue; feed_entry; plain_issue_again]
              = (Ok 2, with_items empty_storage [plain_issue; feed_entry]))
    by (vm_compute; reflexivity).
  split; [exact H | exact (insert_items_spec _ _ _ _ H)].
Defined.

Lemma insert_items_idempotent_witness :
  insert_items empty_storage [plain_issue; feed_entry]
  = (Ok 2, with_items empty_storage [plain_issue; feed_entry])
  /\ insert_items (with_items empty_storage [plain_issue; feed_entry])
       [plain_issue; feed_entry]
     = (Ok 0, with_items empty_storage [plain_issue; feed_entry]).
Proof.
  assert (H : insert_items empty_storage [plain_issue; feed_entry]
              = (Ok 2, with_items empty_storage [plain_issue; feed_entry]))
    by (vm_compute; reflexivity).
  split; [exact H | exact (insert_items_idempotent _ _ _ _ H)].
Defined.

Lemma insert_items_total_witness :
  Forall (fun item => dumpable (PDict (metadata item)) = true /\ fits (score item))
    [set_score soc2_discussion 65]
  /\ exists n self', insert_items empty_storage [set_score soc2_discussion 65] = (Ok n, self').
Proof.
  assert (H : Forall (fun item => dumpable (PDict (metadata item)) = true
                                  /\ fits (score item))
                [set_score soc2_discussion 65]).
  { constructor; [|constructor]. split; [vm_compute; reflexivity|].
    unfold fits. simpl. lia. }
  split; [exact H | exact (insert_items_total empty_storage _ H)].
Defined.

Lemma digest_saved_as_returned_witness :
  In ("daily", 1, 40, daily_digest) digest_methods
  /\ daily_digest steady_synthesizer 1000 2000 3000
     = (Ok (Some (mkDigest "daily" "- [github_discussion] SOC 2 audits are done by hand."
                    1 2000)),
        (daily_digest steady_synthesizer 1000 2000 3000).2)
  /\ _storage (daily_digest steady_synthesizer 1000 2000 3000).2
     = save_digest store_with_item 3000 "daily"
         [Lit "- [github_discussion] SOC 2 audits are done by hand."] 1.
Proof.
  assert (Hin : In ("daily", 1, 40, daily_digest) digest_methods) by (left; reflexivity).
  assert (H : daily_digest steady_synthesizer 1000 2000 3000
              = (Ok (Some (mkDigest "daily"
                             "- [github_discussion] SOC 2 audits are done by hand." 1 2000)),
                 (daily_digest steady_synthesizer 1000 2000 3000).2))
    by (vm_compute; reflexivity).
  split; [exact Hin|]. split; [exact H|].
  pose proof (digest_saved_as_returned _ _ _ _ _ _ _ _ _ _ Hin H) as (_ & _ & _ & _ & G).
  exact G.
Defined.

Lemma ask_spec_witness :
  ask steady_synthesizer "Who audits by hand?" 7 1000 2000
  = (Ok (Some (mkQAResult "Who audits by hand?"
                 "- [github_discussion] SOC 2 audits are done by hand." 1 2000)),
     (ask steady_synthesizer "Who audits by hand?" 7 1000 2000).2)
  /\ _storage (ask steady_synthesizer "Who audits by hand?" 7 1000 2000).2
     = store_with_item.
Proof.
  assert (H : ask steady_synthesizer "Who audits by hand?" 7 1000 2000
              = (Ok (Some (mkQAResult "Who audits by hand?"
                             "- [github_discussion] SOC 2 audits are done by hand." 1 2000)),
                 (ask steady_synthesizer "Who audits by hand?" 7 1000 2000).2))
    by (vm_compute; reflexivity).
  split; [exact H|].
  exact (proj1 (ask_spec _ _ _ _ _ _ _ H)).
Defined.

Lemma after_first_run_consistent : consistent after_first_run.
Proof.
  apply (consistent_save_run empty_storage 100 [drift_detector] 5 None 1);
    [apply consistent_empty | vm_compute; reflexivity].
Qed.

(** The run saves an opportunity whose notes are [None] after one whose
    notes are a text; the first is read back with the empty text. *)
Lemma saved_opportunity_is_read_back_witness :
  consistent after_first_run
  /\ save_opportunity_run after_first_run 200 [drift_detector_v2; unnoted] 6 None
     = (Ok 2, after_mixed_run)
  /\ get_opportunity_by_id after_mixed_run "unnoted-one"
     = Ok (Some (stored_as unnoted 2 EmptyString 200 None)).
Proof.
  assert (Hc : consistent after_first_run) by exact after_first_run_consistent.
  assert (H : save_opportunity_run after_first_run 200 [drift_detector_v2; unnoted] 6 None
              = (Ok 2, after_mixed_run)) by (vm_compute; reflexivity).
  split; [exact Hc|]. split; [exact H|].
  refine (saved_opportunity_is_read_back _ _ _ _ _ _ _ unnoted Hc H _ _ _).
  - constructor; [simpl; intros [E|[]]; discriminate E|].
    constructor; [simpl; tauto | constructor].
  - right. left. reflexivity.
  - constructor; [intros E; discriminate E | constructor].
Defined.

Lemma get_opportunity_by_id_latest_witness :
  get_opportunity_by_id after_second_run "terraform-drift-detector"
  = Ok (Some (stored_as drift_detector_v2 2 EmptyString 200 None))
  /\ forall p, In p (joined after_second_run) ->
               o_id p.1 = "terraform-drift-detector" -> o_generated_at p.1 <= 200.
Proof.
  assert (H : get_opportunity_by_id after_second_run "terraform-drift-detector"
              = Ok (Some (stored_as drift_detector_v2 2 EmptyString 200 None)))
    by (vm_compute; reflexivity).
  split; [exact H|].
  pose proof (get_opportunity_by_id_latest _ _ _ H) as (_ & _ & G & _). exact G.
Defined.

(** The second object of the response has [null] for its notes: the report
    returns both opportunities and saves the run. *)
Lemma structured_report_saved_witness :
  consistent (_storage array_synthesizer)
  /\ structured_opportunity_report array_loader array_synthesizer 1000 2000 3000
     = (Ok (Some [set_run_id good_opportunity 1; set_run_id unnoted 1]),
        (structured_opportunity_report array_loader array_synthesizer 1000 2000 3000).2)
  /\ exists parsed,
       [set_run_id good_opportunity 1; set_run_id unnoted 1]
       = map (fun opp => set_run_id opp 1) parsed
       /\ Forall sound parsed.
Proof.
  assert (Hc : consistent (_storage array_synthesizer))
    by (unfold consistent; cbn; repeat split; constructor).
  assert (H : structured_opportunity_report array_loader array_synthesizer 1000 2000 3000
              = (Ok (Some [set_run_id good_opportunity 1; set_run_id unnoted 1]),
                 (structured_opportunity_report array_loader array_synthesizer
                    1000 2000 3000).2))
    by (vm_compute; reflexivity).
  split; [exact Hc|]. split; [exact H|].
  pose proof (structured_report_saved _ _ _ _ _ _ _ Hc H) as (_ & parsed & G1 & G2 & _).
  exists parsed. split; [exact G1 | exact G2].
Defined.

Lemma prompt_is_capped_witness :
  (0 < 2)%nat
  /\ scenario_A_batch <> []
  /\ _format_items_for_prompt (firstn 2 scenario_A_batch) 2
     = _format_items_for_prompt scenario_A_batch 2
  /\ _format_items_for_prompt (map capped_body scenario_A_batch) 2
     = _format_items_for_prompt scenario_A_batch 2
  /\ _format_items_for_prompt scenario_A_batch 0 = []
  /\ _format_items_for_prompt (firstn 0 scenario_A_batch) 0
     = [Lit "(no items collected)"].
Proof.
  assert (H : (0 < 2)%nat) by lia.
  assert (Hne : scenario_A_batch <> []) by discriminate.
  destruct (prompt_is_capped scenario_A_batch 2) as (G1 & G2 & _).
  destruct (prompt_is_capped scenario_A_batch 0) as (_ & _ & G3).
  split; [exact H|]. split; [exact Hne|]. split; [exact (G1 H)|]. split; [exact G2|].
  exact (G3 Hne).
Defined.

(** A collection in which the first collector fails after noting its
    cursor and the third returns a record that cannot be scored: the two
    items of the second that reach the threshold are stored, and both
    cursors are kept. *)
Lemma cmd_collect_spec_witness :
  cmd_collect 40 [failing_collector; batch_collector; malformed_collector] empty_database
  = (Ok 2,
     mkDatabase
       (with_items empty_storage [set_score soc2_discussion 65; set_score release_note 45])
       (<["github" := "{}"]> (<["rss" := "{}"]> ∅)))
  /\ Forall keeps_tables [failing_collector; batch_collector; malformed_collector]
  /\ cmd_collect 40
       (map guarded [failing_collector; batch_collector; malformed_collector])
       empty_database
     = (Ok 2,
        mkDatabase
          (with_items empty_storage
             [set_score soc2_discussion 65; set_score release_note 45])
          (<["github" := "{}"]> (<["rss" := "{}"]> ∅)))
  /\ exists added,
       items (with_items empty_storage
                [set_score soc2_discussion 65; set_score release_note 45])
       = items empty_storage ++ added
       /\ Forall (fun item => 40 <= score item <= 100) added.
Proof.
  assert (H : cmd_collect 40 [failing_collector; batch_collector; malformed_collector]
                empty_database
              = (Ok 2,
                 mkDatabase
                   (with_items empty_storage
                      [set_score soc2_discussion 65; set_score release_note 45])
                   (<["github" := "{}"]> (<["rss" := "{}"]> ∅))))
    by (vm_compute; reflexivity).
  assert (Hk : Forall keeps_tables [failing_collector; batch_collector; malformed_collector])
    by (repeat constructor).
  split; [exact H|]. split; [exact Hk|].
  pose proof (cmd_collect_spec _ _ _ _ _ H) as (_ & G & F).
  split; [exact G|].
  destruct (F Hk) as (added & G1 & G2 & _).
  exists added. split; [exact G1 | exact G2].
Defined.

End MoreExamples.

